(** * SPARTA data query system: record store, keyword scorer, semantic search

    A shallow embedding of [sparta_extractor.py] (record database and keyword
    search) and [sparta_semantic_search.py] (embedding index, similarity
    ranking, related techniques, query agent), with the properties of the
    specification stated and settled against it.

    Conventions of the model:
    - a Python [str] is a [string] whose characters are the code points below
      U+0100; a [set] of words is a [gset string]; [SPARTA_DATA] is a
      [gmap] from tactic id to its technique list;
    - a Python [int] is a [Z]; list slices keep Python's meaning for negative
      bounds;
    - a floating-point score is a real number or NaN: 0/0 is NaN, which
      compares false with everything and which numpy sorts after every
      number; rounding is not modelled, and no statement below rests on a
      bound that only exact arithmetic gives a computed score;
    - [np.argsort] is known by its contract only (values ascending, NaN
      last, the order of equal values left open): a statement about the
      order of results with equal scores is made for every sort that meets
      the contract;
    - the engine object, the files it reads and writes and the calls made to
      the embedding model are one explicit [world], threaded through a small
      state-and-exception monad; [print] is not modelled. *)

From Stdlib Require Import ZArith Reals Lra Lia List Sorting.Sorted Permutation.
From Stdlib Require Import Ascii String.
From stdpp Require Import gmap strings list.

(** ** Python strings *)

Module Text.

Definition code (c : ascii) : nat := nat_of_ascii c.

(** [str.lower] on one code point below U+0100: A-Z, and the Latin-1
    capitals U+00C0-U+00DE except the multiplication sign U+00D7. *)
Definition lower_char (c : ascii) : ascii :=
  let n := code c in
  if ((65 <=? n) && (n <=? 90)
      || (192 <=? n) && (n <=? 222) && negb (n =? 215))%nat
  then ascii_of_nat (n + 32)
  else c.

Fixpoint lower (s : string) : string :=
  match s with
  | EmptyString => EmptyString
  | String c s' => String (lower_char c) (lower s')
  end.

(** [str.isspace] on one code point below U+0100. *)
Definition isspace (c : ascii) : bool :=
  let n := code c in
  ((9 <=? n) && (n <=? 13) || (28 <=? n) && (n <=? 32)
   || (n =? 133) || (n =? 160))%nat.

(** [str.split()] with no separator: maximal runs of non-space
    characters, in order; [cur] is the word being read. *)
Fixpoint split_from (cur : string) (s : string) : list string :=
  match s with
  | EmptyString => if decide (cur = EmptyString) then [] else [cur]
  | String c s' =>
      if isspace c
      then (if decide (cur = EmptyString) then split_from EmptyString s'
            else cur :: split_from EmptyString s')
      else split_from (cur +:+ String c EmptyString) s'
  end.

Definition split (s : string) : list string := split_from EmptyString s.

(** [needle in hay] on strings: [needle] starts at some position of
    [hay]. *)
Fixpoint contains (needle hay : string) : bool :=
  String.prefix needle hay
  || match hay with
     | EmptyString => false
     | String _ hay' => contains needle hay'
     end.

(** [l[:k]] *)
Definition slice_to {A} (k : Z) (l : list A) : list A :=
  if (0 <=? k)%Z then firstn (Z.to_nat k) l
  else firstn (Z.to_nat (Z.of_nat (length l) + k)) l.

(** [l[1:]] *)
Definition slice_from_1 {A} (l : list A) : list A := skipn 1 l.

End Text.

(** ** Stable insertion sort

  Python's [list.sort] is stable and numpy's [argsort] is modelled by a
  stable sort too; both are instances of this one sort, which inserts each
  element before the first element it does not exceed. On a total preorder
  every stable sort returns the same list, so the algorithm is immaterial. *)

Module StableSort.
Section Sort.
Context {A : Type} (le : A -> A -> bool).

Fixpoint insert (x : A) (l : list A) : list A :=
  match l with
  | [] => [x]
  | y :: ys => if le x y then x :: y :: ys else y :: insert x ys
  end.

Fixpoint isort (l : list A) : list A :=
  match l with
  | [] => []
  | x :: xs => insert x (isort xs)
  end.

Definition eqv (a x : A) : bool := le a x && le x a.

End Sort.
End StableSort.

(** ** Calls that may raise *)

Module Py.

(** The Python exceptions that the modelled code can raise. *)
Inductive exn : Type :=
| ImportError        (* sentence-transformers is not installed *)
| FileNotFoundError  (* [open] of a missing file *)
| AttributeError     (* a method called on [None] *)
| TypeError          (* [None] used as an array or as a list *)
| ValueError         (* [np.dot] on mismatched shapes *)
| IndexError.        (* list index out of range *)

(** A call returns a value or raises. *)
Inductive outcome (A : Type) : Type :=
| Ok (a : A)
| Raise (e : exn).
Arguments Ok {A} a.
Arguments Raise {A} e.

End Py.

(** ** sparta_extractor.py *)

Module Extractor.
Import Text Py.

(** The taxonomy literals [TACTICS] and [SPARTA_DATA]: each dict becomes a
    record; a technique may lack its ["sub_techniques"] key. *)
Record SubTechniqueInfo : Type := {
  sub_id : string;
  sub_name : string;
  sub_description : string }.

Record TechniqueInfo : Type := {
  tech_id : string;
  tech_name : string;
  tech_description : string;
  tech_sub_techniques : option (list SubTechniqueInfo) }.

Record TacticInfo : Type := {
  tac_id : string;
  tac_name : string;
  tac_description : string }.

(** The value of the ["type"] key. *)
Inductive entry_type : Type := ty_technique | ty_sub_technique.

(** A database entry; technique entries have no ["parent_name"] key and
    [None] under ["parent_id"]. *)
Record entry : Type := {
  e_type : entry_type;
  e_id : string;
  e_name : string;
  e_description : string;
  e_tactic : string;
  e_tactic_id : string;
  e_tactic_description : string;
  e_parent_id : option string;
  e_parent_name : option string;
  e_full_text : string }.

Definition technique_entry (tactic_info : TacticInfo) (technique : TechniqueInfo)
  : entry :=
  {| e_type := ty_technique;
     e_id := tech_id technique;
     e_name := tech_name technique;
     e_description := tech_description technique;
     e_tactic := tac_name tactic_info;
     e_tactic_id := tac_id tactic_info;
     e_tactic_description := tac_description tactic_info;
     e_parent_id := None;
     e_parent_name := None;
     e_full_text :=
       tech_name technique +:+ " " +:+ tech_description technique
       +:+ " " +:+ tac_name tactic_info |}.

Definition sub_technique_entry (tactic_info : TacticInfo)
    (technique : TechniqueInfo) (sub : SubTechniqueInfo) : entry :=
  {| e_type := ty_sub_technique;
     e_id := sub_id sub;
     e_name := sub_name sub;
     e_description := sub_description sub;
     e_tactic := tac_name tactic_info;
     e_tactic_id := tac_id tactic_info;
     e_tactic_description := tac_description tactic_info;
     e_parent_id := Some (tech_id technique);
     e_parent_name := Some (tech_name technique);
     e_full_text :=
       sub_name sub +:+ " " +:+ sub_description sub
       +:+ " " +:+ tech_name technique +:+ " " +:+ tac_name tactic_info |}.

(** Body of [for technique in SPARTA_DATA[tactic_id]["techniques"]]:
    append the technique, then loop over
    [technique.get("sub_techniques", [])]. *)
Definition add_technique (tactic_info : TacticInfo) (database : list entry)
    (technique : TechniqueInfo) : list entry :=
  fold_left
    (fun database sub => database ++ [sub_technique_entry tactic_info technique sub])
    (default [] (tech_sub_techniques technique))
    (database ++ [technique_entry tactic_info technique]).

(** Body of [for tactic_info in TACTICS], with its guard
    [if tactic_id in SPARTA_DATA]. *)
Definition add_tactic (SPARTA_DATA : gmap string (list TechniqueInfo))
    (database : list entry) (tactic_info : TacticInfo) : list entry :=
  match SPARTA_DATA !! tac_id tactic_info with
  | Some techniques => fold_left (add_technique tactic_info) techniques database
  | None => database
  end.

(** [build_database()]; the two module constants it reads are its
    arguments here. No statement of it can raise: both lookups are guarded. *)
Definition build_database (TACTICS : list TacticInfo)
    (SPARTA_DATA : gmap string (list TechniqueInfo)) : outcome (list entry) :=
  Ok (fold_left (add_tactic SPARTA_DATA) TACTICS []).

(** The score that the loop body of [search_techniques] gives one entry. *)
Definition entry_score (query_lower : string) (query_words : gset string)
    (entry : entry) : Z :=
  let full_text_lower := lower (e_full_text entry) in
  let score := 0%Z in
  let score :=
    if contains query_lower (lower (e_name entry)) then (score + 100)%Z else score in
  let score :=
    if contains query_lower (lower (e_description entry)) then (score + 50)%Z
    else score in
  let entry_words : gset string := list_to_set (split full_text_lower) in
  let overlap := query_words ∩ entry_words in
  let score := (score + Z.of_nat (size overlap) * 10)%Z in
  set_fold
    (fun word score => if contains word full_text_lower then (score + 5)%Z else score)
    score query_words.

(** [scored_results.sort(key=lambda x: x[0], reverse=True)]: Python's sort
    is stable, also under [reverse=True]. *)
Definition sort_by_score_desc (scored_results : list (Z * entry))
  : list (Z * entry) :=
  StableSort.isort (fun x y => (fst y <=? fst x)%Z) scored_results.

Definition score_entries (query_lower : string) (query_words : gset string)
    (database : list entry) : list (Z * entry) :=
  fold_left
    (fun scored_results entry =>
       let score := entry_score query_lower query_words entry in
       if (0 <? score)%Z then scored_results ++ [(score, entry)]
       else scored_results)
    database [].

Definition search_techniques (database : list entry) (query : string)
    (top_k : Z) : list entry :=
  let query_lower := lower query in
  let query_words : gset string := list_to_set (split query_lower) in
  let scored_results := score_entries query_lower query_words database in
  let scored_results := sort_by_score_desc scored_results in
  map snd (slice_to top_k scored_results).

End Extractor.

(** ** sparta_semantic_search.py *)

Module Semantic.
Import Text Py Extractor.

(** *** Vectors and similarities *)

(** One embedding; [self.embeddings] is a list of rows. *)
Definition vec : Type := list R.

(** A similarity as numpy holds it: a number, or NaN. *)
Inductive fval : Type :=
| Num (r : R)
| NaN.

Fixpoint dot (u v : vec) : R :=
  match u, v with
  | x :: u', y :: v' => (x * y + dot u' v')%R
  | _, _ => 0%R
  end.

(** [np.linalg.norm] *)
Definition norm (v : vec) : R := sqrt (dot v v).

(** One component of
    [np.dot(E, q) / (np.linalg.norm(E, axis=1) * np.linalg.norm(q))].
    There is no test of the divisor: when it is 0 one of the two vectors is
    null, the dividend is 0 as well, and 0/0 is NaN. *)
Definition cosine (row query_embedding : vec) : fval :=
  let divisor := (norm row * norm query_embedding)%R in
  if Req_dec_T divisor 0 then NaN
  else Num (dot row query_embedding / divisor).

(** The whole array; [np.dot] raises on rows that do not have the length of
    the query vector. *)
Definition similarities (E : list vec) (query_embedding : vec)
  : outcome (list fval) :=
  if forallb (fun row => length row =? length query_embedding)%nat E
  then Ok (map (fun row => cosine row query_embedding) E)
  else Raise ValueError.

(** The order of [np.argsort]: numbers ascending, NaN last. *)
Definition fle (a b : fval) : bool :=
  match a, b with
  | _, NaN => true
  | NaN, Num _ => false
  | Num x, Num y => if Rle_dec x y then true else false
  end.

(** What numpy promises of [np.argsort(a)] with the default kind: the
    indices of [a], arranged so that the values ascend, NaN last. The
    default sort is not stable: where two values are equal, either index
    may come first. *)
Definition is_argsort (a : list fval) (order : list nat) : Prop :=
  Permutation order (seq 0 (length a))
  /\ StronglySorted (fun i j => fle (nth i a NaN) (nth j a NaN) = true) order.

(** One sort that meets the contract, the stable one, in which equal values
    keep ascending index order. *)
Definition argsort (a : list fval) : list nat :=
  StableSort.isort (fun i j => fle (nth i a NaN) (nth j a NaN))
    (seq 0 (length a)).

(** [score >= min_score] *)
Definition fge (score : fval) (min_score : R) : bool :=
  match score with
  | Num x => if Rle_dec min_score x then true else false
  | NaN => false
  end.

(** *** The engine and its environment *)

(** What [save_embeddings] pickles. *)
Record pickled : Type := {
  p_embeddings : option (list vec);
  p_model_name : string }.

Record world : Type := {
  (* the attributes of the SPARTASemanticSearch object *)
  model_name : string;
  model : option string;   (* the loaded model, known by the name it was loaded under *)
  database : option (list entry);
  embeddings : option (list vec);
  index_path : string;
  (* the environment *)
  SENTENCE_TRANSFORMERS_AVAILABLE : bool;
  json_files : gmap string (list entry);
  pickle_files : gmap string pickled;
  encoder : string -> string -> vec;   (* model name, text *)
  encode_calls : list (list string) }. (* every batch passed to [model.encode] *)

Definition set_model (m : option string) (w : world) : world :=
  {| model_name := model_name w; model := m; database := database w;
     embeddings := embeddings w; index_path := index_path w;
     SENTENCE_TRANSFORMERS_AVAILABLE := SENTENCE_TRANSFORMERS_AVAILABLE w;
     json_files := json_files w; pickle_files := pickle_files w;
     encoder := encoder w; encode_calls := encode_calls w |}.

Definition set_database (d : option (list entry)) (w : world) : world :=
  {| model_name := model_name w; model := model w; database := d;
     embeddings := embeddings w; index_path := index_path w;
     SENTENCE_TRANSFORMERS_AVAILABLE := SENTENCE_TRANSFORMERS_AVAILABLE w;
     json_files := json_files w; pickle_files := pickle_files w;
     encoder := encoder w; encode_calls := encode_calls w |}.

Definition set_embeddings (e : option (list vec)) (w : world) : world :=
  {| model_name := model_name w; model := model w; database := database w;
     embeddings := e; index_path := index_path w;
     SENTENCE_TRANSFORMERS_AVAILABLE := SENTENCE_TRANSFORMERS_AVAILABLE w;
     json_files := json_files w; pickle_files := pickle_files w;
     encoder := encoder w; encode_calls := encode_calls w |}.

Definition set_pickle_files (f : gmap string pickled) (w : world) : world :=
  {| model_name := model_name w; model := model w; database := database w;
     embeddings := embeddings w; index_path := index_path w;
     SENTENCE_TRANSFORMERS_AVAILABLE := SENTENCE_TRANSFORMERS_AVAILABLE w;
     json_files := json_files w; pickle_files := f;
     encoder := encoder w; encode_calls := encode_calls w |}.

Definition set_encode_calls (c : list (list string)) (w : world) : world :=
  {| model_name := model_name w; model := model w; database := database w;
     embeddings := embeddings w; index_path := index_path w;
     SENTENCE_TRANSFORMERS_AVAILABLE := SENTENCE_TRANSFORMERS_AVAILABLE w;
     json_files := json_files w; pickle_files := pickle_files w;
     encoder := encoder w; encode_calls := c |}.

(** *** The monad of method calls: the world is kept when a call raises. *)

Definition M (A : Type) : Type := world -> outcome A * world.

Definition ret {A} (a : A) : M A := fun w => (Ok a, w).

Definition raise {A} (e : exn) : M A := fun w => (Raise e, w).

Definition bind {A B} (m : M A) (k : A -> M B) : M B :=
  fun w =>
    match m w with
    | (Ok a, w') => k a w'
    | (Raise e, w') => (Raise e, w')
    end.

Definition gets {A} (f : world -> A) : M A := fun w => (Ok (f w), w).

Definition modify (f : world -> world) : M unit := fun w => (Ok tt, f w).

Definition lift {A} (o : outcome A) : M A := fun w => (o, w).

(** [if c: body] *)
Definition when (c : bool) (body : M unit) : M unit :=
  if c then body else ret tt.

Declare Scope py_scope.
Delimit Scope py_scope with py.
Notation "x <- m ;; k" := (bind m (fun x => k))
  (at level 100, m at next level, right associativity) : py_scope.
Notation "m ;; k" := (bind m (fun _ => k))
  (at level 100, right associativity) : py_scope.
Local Open Scope py_scope.

Definition is_None {A} (o : option A) : bool :=
  match o with None => true | Some _ => false end.

(** [self.model.encode(texts, ...)] *)
Definition encode (texts : list string) : M (list vec) :=
  fun w =>
    match model w with
    | Some name =>
        (Ok (map (encoder w name) texts),
         set_encode_calls (encode_calls w ++ [texts]) w)
    | None => (Raise AttributeError, w)
    end.

Definition load_model : M unit :=
  available <- gets SENTENCE_TRANSFORMERS_AVAILABLE ;;
  if available then
    name <- gets model_name ;;
    modify (set_model (Some name))
  else raise ImportError.

Definition default_database_file : string := "sparta_database.json".

Definition load_database (filename : string) : M unit :=
  files <- gets json_files ;;
  match files !! filename with
  | Some entries => modify (set_database (Some entries))
  | None => raise FileNotFoundError
  end.

Definition type_text (t : entry_type) : string :=
  match t with
  | ty_technique => "technique"
  | ty_sub_technique => "sub technique"
  end.

Fixpoint join (sep : string) (parts : list string) : string :=
  match parts with
  | [] => ""
  | [p] => p
  | p :: rest => p +:+ sep +:+ join sep rest
  end.

(** The text embedded for one entry. *)
Definition entry_text (entry : entry) : string :=
  let text_parts :=
    ["Technique: " +:+ e_name entry;
     "Description: " +:+ e_description entry;
     "Tactic: " +:+ e_tactic entry;
     "Category: " +:+ type_text (e_type entry)] in
  let text_parts :=
    match e_parent_name entry with
    | Some parent_name =>
        if decide (parent_name = "") then text_parts
        else text_parts ++ ["Parent: " +:+ parent_name]
    | None => text_parts
    end in
  join ". " text_parts.

Definition create_embeddings : M unit :=
  m <- gets model ;;
  when (is_None m) load_model ;;
  d <- gets database ;;
  when (is_None d) (load_database default_database_file) ;;
  d <- gets database ;;
  match d with
  | None => raise TypeError
  | Some entries =>
      vectors <- encode (map entry_text entries) ;;
      modify (set_embeddings (Some vectors))
  end.

Definition save_embeddings : M unit :=
  modify (fun w =>
    let data := {| p_embeddings := embeddings w; p_model_name := model_name w |} in
    set_pickle_files (<[index_path w := data]> (pickle_files w)) w).

Definition load_embeddings : M bool :=
  path <- gets index_path ;;
  files <- gets pickle_files ;;
  match files !! path with
  | Some data =>
      modify (set_embeddings (p_embeddings data)) ;;
      ret true
  | None => ret false
  end.

(** The loop [for idx in top_indices] of [search]. *)
Fixpoint collect_results (db : option (list entry)) (sims : list fval)
    (min_score : R) (top_indices : list nat) (results : list (entry * fval))
  : outcome (list (entry * fval)) :=
  match top_indices with
  | [] => Ok results
  | idx :: rest =>
      let score := nth idx sims NaN in
      if fge score min_score then
        match db with
        | None => Raise TypeError
        | Some entries =>
            match entries !! idx with
            | Some entry =>
                collect_results db sims min_score rest (results ++ [(entry, score)])
            | None => Raise IndexError
            end
        end
      else collect_results db sims min_score rest results
  end.

(** [search], with [np.argsort] as the parameter [np_argsort]. *)
Definition search_with (np_argsort : list fval -> list nat)
    (query : string) (top_k : Z) (min_score : R)
  : M (list (entry * fval)) :=
  m <- gets model ;;
  when (is_None m) load_model ;;
  e <- gets embeddings ;;
  when (is_None e)
    (loaded <- load_embeddings ;;
     when (negb loaded) (create_embeddings ;; save_embeddings)) ;;
  encoded <- encode [query] ;;
  let query_embedding := nth 0 encoded [] in
  e <- gets embeddings ;;
  match e with
  | None => raise TypeError
  | Some E =>
      sims <- lift (similarities E query_embedding) ;;
      let top_indices := slice_to top_k (rev (np_argsort sims)) in
      db <- gets database ;;
      lift (collect_results db sims min_score top_indices [])
  end.

(** [search] where numpy sorts stably: what every [np.argsort] gives
    when no two scores are equal. Where the order of equal scores matters,
    the statement is made of [search_with] instead. *)
Definition search (query : string) (top_k : Z) (min_score : R)
  : M (list (entry * fval)) :=
  search_with argsort query top_k min_score.

Definition search_by_tactic (tactic_name : string) : M (list entry) :=
  d <- gets database ;;
  when (is_None d) (load_database default_database_file) ;;
  d <- gets database ;;
  match d with
  | None => raise TypeError
  | Some entries =>
      let tactic_lower := lower tactic_name in
      ret (List.filter (fun entry => contains tactic_lower (lower (e_tactic entry)))
             entries)
  end.

(** The loop with [break] that looks the technique up. *)
Definition find_technique (entries : list entry) (technique_id : string)
  : option entry :=
  List.find (fun entry => bool_decide (e_id entry = technique_id)) entries.

Definition get_related_techniques (technique_id : string) (top_k : Z)
  : M (list (entry * fval)) :=
  d <- gets database ;;
  when (is_None d) (load_database default_database_file) ;;
  d <- gets database ;;
  match d with
  | None => raise TypeError
  | Some entries =>
      match find_technique entries technique_id with
      | None => ret []
      | Some technique =>
          results <- search (e_description technique) (top_k + 1) 0 ;;
          ret (slice_from_1 results)
      end
  end.

(** *** SPARTAQueryAgent *)

(** The dict literal of [answer_query], in its insertion order. *)
Definition tactic_keywords : list (string * string) :=
  [("reconnaissance", "Reconnaissance");
   ("resource development", "Resource Development");
   ("initial access", "Initial Access");
   ("execution", "Execution");
   ("persistence", "Persistence");
   ("defense evasion", "Defense Evasion");
   ("lateral movement", "Lateral Movement");
   ("exfiltration", "Exfiltration");
   ("impact", "Impact")].

(** What [answer_query] hands to one of its two formatters; the rendering
    to text is not part of the model. *)
Inductive response : Type :=
| TacticResponse (tactic : string) (techniques : list entry)
| SearchResponse (query : string) (results : list (entry * fval)).

Definition answer_query (query : string) : M response :=
  let query_lower := lower query in
  match List.find (fun kt => contains (fst kt) query_lower) tactic_keywords with
  | Some (_, tactic) =>
      techniques <- search_by_tactic tactic ;;
      ret (TacticResponse tactic techniques)
  | None =>
      results <- search query 5 (3 / 10) ;;
      ret (SearchResponse query results)
  end.

End Semantic.

(** ** The specification's own wording, for comparison with the code *)

Module Spec.
Import Text Py Extractor Semantic.

(** The distinct whitespace-split words of a string, each once, in some
    order. *)
Definition distinct_words (s : string) : list string := remove_dups (split s).

Definition count {A} (p : A -> bool) (l : list A) : Z :=
  Z.of_nat (length (List.filter p l)).

(** The scoring policy of the keyword scorer, contribution by
    contribution, as a function of the query and three fields of the
    record. *)
Definition keyword_score (query name description composite : string) : Z :=
  let q := lower query in
  let text := lower composite in
  ((if contains q (lower name) then 100 else 0)
   + (if contains q (lower description) then 50 else 0)
   + 10 * count (fun w => bool_decide (w ∈ split text)) (distinct_words q)
   + 5 * count (fun w => contains w text) (distinct_words q))%Z.

(** The score [search_techniques] computes for [entry] under [query]. *)
Definition score (query : string) (entry : entry) : Z :=
  entry_score (lower query) (list_to_set (split (lower query))) entry.

(** The ranking of which [search_techniques] returns a slice: the sorted
    scored entries, without their scores. *)
Definition ranking (database : list entry) (query : string) : list entry :=
  map snd
    (sort_by_score_desc
       (score_entries (lower query) (list_to_set (split (lower query)))
          database)).

(** A technique is filed under a tactic id that [TACTICS] does not declare. *)
Definition references_absent_tactic (TACTICS : list TacticInfo)
    (SPARTA_DATA : gmap string (list TechniqueInfo)) : Prop :=
  exists tactic_id techniques,
    SPARTA_DATA !! tactic_id = Some techniques
    /\ techniques <> []
    /\ tactic_id ∉ map tac_id TACTICS.

(** The part of a dotted sub-technique id before its last dot. *)
Fixpoint implied_parent (sub_id : string) : string :=
  match sub_id with
  | EmptyString => EmptyString
  | String c rest =>
      if contains "." rest then String c (implied_parent rest) else EmptyString
  end.

Definition techniques_of (SPARTA_DATA : gmap string (list TechniqueInfo))
  : list TechniqueInfo :=
  concat (map snd (map_to_list SPARTA_DATA)).

Definition sub_techniques_of (SPARTA_DATA : gmap string (list TechniqueInfo))
  : list SubTechniqueInfo :=
  flat_map (fun t => default [] (tech_sub_techniques t))
    (techniques_of SPARTA_DATA).

(** Some sub-technique's id names a parent that is no technique of the
    taxonomy. *)
Definition implied_parent_absent
    (SPARTA_DATA : gmap string (list TechniqueInfo)) : Prop :=
  exists sub,
    sub ∈ sub_techniques_of SPARTA_DATA
    /\ implied_parent (sub_id sub) ∉ map tech_id (techniques_of SPARTA_DATA).

Definition malformed (TACTICS : list TacticInfo)
    (SPARTA_DATA : gmap string (list TechniqueInfo)) : Prop :=
  references_absent_tactic TACTICS SPARTA_DATA
  \/ implied_parent_absent SPARTA_DATA.

(** The data model's taxonomy: tactic ids are unique and every technique
    group belongs to a declared tactic. *)
Definition well_formed (TACTICS : list TacticInfo)
    (SPARTA_DATA : gmap string (list TechniqueInfo)) : Prop :=
  NoDup (map tac_id TACTICS)
  /\ dom SPARTA_DATA ⊆ (list_to_set (map tac_id TACTICS) : gset string).

(** The techniques of the taxonomy, tactic by tactic: those nested under
    the declared tactics, in declared order. *)
Definition techniques_under (TACTICS : list TacticInfo)
    (SPARTA_DATA : gmap string (list TechniqueInfo)) : list TechniqueInfo :=
  flat_map (fun tactic_info => default [] (SPARTA_DATA !! tac_id tactic_info))
    TACTICS.

(** The sub-techniques a technique lists. *)
Definition subs_of (t : TechniqueInfo) : list SubTechniqueInfo :=
  default [] (tech_sub_techniques t).

Definition count_techniques (TACTICS : list TacticInfo)
    (SPARTA_DATA : gmap string (list TechniqueInfo)) : nat :=
  length (techniques_under TACTICS SPARTA_DATA).

Definition count_sub_techniques (TACTICS : list TacticInfo)
    (SPARTA_DATA : gmap string (list TechniqueInfo)) : nat :=
  length (flat_map subs_of (techniques_under TACTICS SPARTA_DATA)).

(** The declared order: a technique, then its sub-techniques; techniques
    in the order of their tactic's group; tactics in the order of
    [TACTICS]. *)
Definition technique_records (tactic_info : TacticInfo) (t : TechniqueInfo)
  : list entry :=
  technique_entry tactic_info t
  :: map (sub_technique_entry tactic_info t) (default [] (tech_sub_techniques t)).

Definition tactic_records (SPARTA_DATA : gmap string (list TechniqueInfo))
    (tactic_info : TacticInfo) : list entry :=
  flat_map (technique_records tactic_info)
    (default [] (SPARTA_DATA !! tac_id tactic_info)).

Definition declared_order (TACTICS : list TacticInfo)
    (SPARTA_DATA : gmap string (list TechniqueInfo)) : list entry :=
  flat_map (tactic_records SPARTA_DATA) TACTICS.

(** The database an engine works on: the loaded one, else the one
    [load_database()] would read. *)
Definition available_database (w : world) : option (list entry) :=
  match database w with
  | Some entries => Some entries
  | None => json_files w !! default_database_file
  end.

(** The engine after a method's
    [if self.database is None: self.load_database()]. *)
Definition with_database (entries : list entry) (w : world) : world :=
  match database w with
  | Some _ => w
  | None => set_database (Some entries) w
  end.

(** The result pair for the record at position [i]. *)
Definition result_at (entries : list entry) (sims : list fval) (i : nat)
  : option (entry * fval) :=
  match entries !! i with
  | Some entry => Some (entry, nth i sims NaN)
  | None => None
  end.

(** The value a call returns, if it returns. *)
Definition returned {A} (r : outcome A * world) : option A :=
  match fst r with
  | Ok a => Some a
  | Raise _ => None
  end.

End Spec.

(** ** Data for the examples: the real tactics and a few real techniques *)

Module Examples.
Import Text Py Extractor Semantic.

Definition ST0004 : TacticInfo :=
  {| tac_id := "ST0004"; tac_name := "Execution";
     tac_description := "Threat actor is trying to run malicious code on the spacecraft." |}.

Definition TACTICS : list TacticInfo :=
  [ {| tac_id := "ST0001"; tac_name := "Reconnaissance";
       tac_description := "Threat actor is trying to gather information about the space system." |};
    {| tac_id := "ST0002"; tac_name := "Resource Development";
       tac_description := "Threat actor is trying to establish resources for future operations." |};
    {| tac_id := "ST0003"; tac_name := "Initial Access";
       tac_description := "Threat actor is trying to get into the space system." |};
    ST0004;
    {| tac_id := "ST0005"; tac_name := "Persistence";
       tac_description := "Threat actor is trying to maintain their foothold/access to command/execute code on the spacecraft." |};
    {| tac_id := "ST0006"; tac_name := "Defense Evasion";
       tac_description := "Threat actor is trying to avoid being detected." |};
    {| tac_id := "ST0007"; tac_name := "Lateral Movement";
       tac_description := "Threat actor is trying to move through the space system environment." |};
    {| tac_id := "ST0008"; tac_name := "Exfiltration";
       tac_description := "Threat actor is trying to steal data from the space system." |};
    {| tac_id := "ST0009"; tac_name := "Impact";
       tac_description := "Threat actor is trying to manipulate, interrupt, or destroy the space system(s) and/or data." |} ].

Definition REC_0004 : TechniqueInfo :=
  {| tech_id := "REC-0004"; tech_name := "Gather Launch Information";
     tech_description := "Threat actors may gather the launch date and time, location of the launch, organizations involved, launch vehicle, etc.";
     tech_sub_techniques := Some
       [ {| sub_id := "REC-0004.01"; sub_name := "Flight Termination";
            sub_description := "Threat actor may obtain information regarding the vehicle's flight termination system." |} ] |}.

Definition EX_0016 : TechniqueInfo :=
  {| tech_id := "EX-0016"; tech_name := "Jamming";
     tech_description := "Jamming is an electronic attack that uses RF signals to interfere with communications.";
     tech_sub_techniques := Some
       [ {| sub_id := "EX-0016.01"; sub_name := "Uplink Jamming";
            sub_description := "An uplink jammer interferes with signals going up to a satellite." |};
         {| sub_id := "EX-0016.02"; sub_name := "Downlink Jamming";
            sub_description := "Downlink jammers target the users of a satellite." |};
         {| sub_id := "EX-0016.03"; sub_name := "PNT Jamming";
            sub_description := "Threat actors may jam GNSS signals." |} ] |}.

Definition IMP_0003 : TechniqueInfo :=
  {| tech_id := "IMP-0003"; tech_name := "Denial";
     tech_description := "Measures designed to temporarily eliminate the use, access, or operation of a system.";
     tech_sub_techniques := Some [] |}.

(** An excerpt of [SPARTA_DATA]. *)
Definition SPARTA_DATA_excerpt : gmap string (list TechniqueInfo) :=
  <["ST0001" := [REC_0004]]>
    (<["ST0004" := [EX_0016]]> (<["ST0009" := [IMP_0003]]> ∅)).

(** The database built from the excerpt: seven entries. *)
Definition database_excerpt : list entry :=
  Eval vm_compute in Spec.declared_order TACTICS SPARTA_DATA_excerpt.

(** A taxonomy in which the jamming technique is filed under a tactic id
    that [TACTICS] does not declare. *)
Definition SPARTA_DATA_orphan_group : gmap string (list TechniqueInfo) :=
  <["ST0001" := [REC_0004]]> (<["ST0042" := [EX_0016]]> ∅).

(** A taxonomy in which a sub-technique listed under IMP-0003 carries the
    id EX-0016.01, whose implied parent EX-0016 is absent. *)
Definition IMP_0003_stray : TechniqueInfo :=
  {| tech_id := "IMP-0003"; tech_name := "Denial";
     tech_description := "Measures designed to temporarily eliminate the use, access, or operation of a system.";
     tech_sub_techniques := Some
       [ {| sub_id := "EX-0016.01"; sub_name := "Uplink Jamming";
            sub_description := "An uplink jammer interferes with signals going up to a satellite." |} ] |}.

Definition SPARTA_DATA_stray_sub : gmap string (list TechniqueInfo) :=
  <["ST0009" := [IMP_0003_stray]]> ∅.

(** *** An engine over two records and a stub model *)

Definition jamming : entry :=
  Eval vm_compute in technique_entry ST0004 EX_0016.

Definition uplink_jamming : entry :=
  Eval vm_compute in
    sub_technique_entry ST0004 EX_0016
      {| sub_id := "EX-0016.01"; sub_name := "Uplink Jamming";
         sub_description := "An uplink jammer interferes with signals going up to a satellite." |}.

Definition database_pair : list entry := [jamming; uplink_jamming].

(** A deterministic stand-in for the embedding model: the index text of a
    technique goes to (1,0), the index text of a sub-technique to (0,1),
    and any other text to (0,1). *)
Definition stub_encoder (name text : string) : vec :=
  if String.prefix "Technique: " text
  then (if contains "Parent: " text then [0%R; 1%R] else [1%R; 0%R])
  else [0%R; 1%R].

(** A new engine object, [SPARTASemanticSearch()], next to the database
    file. *)
Definition w_fresh : world :=
  {| model_name := "all-MiniLM-L6-v2";
     model := None;
     database := None;
     embeddings := None;
     index_path := "sparta_embeddings.pkl";
     SENTENCE_TRANSFORMERS_AVAILABLE := true;
     json_files := <["sparta_database.json" := database_pair]> ∅;
     pickle_files := ∅;
     encoder := stub_encoder;
     encode_calls := [] |}.

(** The engine after [load_database(); load_model(); create_embeddings()]. *)
Definition w_ready : world :=
  {| model_name := "all-MiniLM-L6-v2";
     model := Some "all-MiniLM-L6-v2";
     database := Some database_pair;
     embeddings := Some [[1%R; 0%R]; [0%R; 1%R]];
     index_path := "sparta_embeddings.pkl";
     SENTENCE_TRANSFORMERS_AVAILABLE := true;
     json_files := <["sparta_database.json" := database_pair]> ∅;
     pickle_files := ∅;
     encoder := stub_encoder;
     encode_calls := [map entry_text database_pair] |}.

(** An index pickled under another provider. *)
Definition stale_index : pickled :=
  {| p_embeddings := Some [[0%R; 1%R]; [1%R; 0%R]];
     p_model_name := "all-mpnet-base-v2" |}.

(** A new engine configured for all-MiniLM-L6-v2, next to that index. *)
Definition w_stale : world :=
  {| model_name := "all-MiniLM-L6-v2";
     model := None;
     database := None;
     embeddings := None;
     index_path := "sparta_embeddings.pkl";
     SENTENCE_TRANSFORMERS_AVAILABLE := true;
     json_files := <["sparta_database.json" := database_pair]> ∅;
     pickle_files := <["sparta_embeddings.pkl" := stale_index]> ∅;
     encoder := stub_encoder;
     encode_calls := [] |}.

(** The same engine after [load_database()]. *)
Definition w_stale_db : world := set_database (Some database_pair) w_stale.

(** A new engine next to the database built from the excerpt. *)
Definition w_excerpt : world :=
  {| model_name := "all-MiniLM-L6-v2";
     model := None;
     database := None;
     embeddings := None;
     index_path := "sparta_embeddings.pkl";
     SENTENCE_TRANSFORMERS_AVAILABLE := true;
     json_files := <["sparta_database.json" := database_excerpt]> ∅;
     pickle_files := ∅;
     encoder := stub_encoder;
     encode_calls := [] |}.

(** An engine whose first stored vector is null. *)
Definition w_null_row : world :=
  {| model_name := "all-MiniLM-L6-v2";
     model := Some "all-MiniLM-L6-v2";
     database := Some database_pair;
     embeddings := Some [[0%R; 0%R]; [0%R; 1%R]];
     index_path := "sparta_embeddings.pkl";
     SENTENCE_TRANSFORMERS_AVAILABLE := true;
     json_files := ∅;
     pickle_files := ∅;
     encoder := stub_encoder;
     encode_calls := [] |}.

End Examples.

(** ** sparta_extractor.py: statistics and the interactive loop *)

Module Tools.
Import Text Py Extractor.

(** One value of [stats["tactics"]]. *)
Record tactic_counts : Type := {
  n_techniques : nat;
  n_sub_techniques : nat }.

(** The dict [get_statistics] returns; [st_tactics] keeps the insertion
    order of its keys, in which [main] prints it. *)
Record statistics : Type := {
  st_total_entries : nat;
  st_techniques : nat;
  st_sub_techniques : nat;
  st_tactics : list (string * tactic_counts) }.

Definition is_type (t : entry_type) (entry : entry) : bool :=
  match t, e_type entry with
  | ty_technique, ty_technique => true
  | ty_sub_technique, ty_sub_technique => true
  | _, _ => false
  end.

(** [d[entry["type"] + "s"] = d.get(entry["type"] + "s", 0) + 1] *)
Definition bump (t : entry_type) (c : tactic_counts) : tactic_counts :=
  match t with
  | ty_technique =>
      {| n_techniques := S (n_techniques c);
         n_sub_techniques := n_sub_techniques c |}
  | ty_sub_technique =>
      {| n_techniques := n_techniques c;
         n_sub_techniques := S (n_sub_techniques c) |}
  end.

(** [key in d] *)
Definition has_key {V} (key : string) (d : list (string * V)) : bool :=
  existsb (fun kv => bool_decide (fst kv = key)) d.

(** [d[key]] read, for a dict kept as the list of its items. *)
Fixpoint get_item {V} (key : string) (d : list (string * V)) : option V :=
  match d with
  | [] => None
  | (k, v) :: rest => if decide (k = key) then Some v else get_item key rest
  end.

(** [d[key] = f(d[key])] for a key of [d]: the item keeps its place. *)
Fixpoint update_item {V} (f : V -> V) (key : string) (d : list (string * V))
  : list (string * V) :=
  match d with
  | [] => []
  | (k, v) :: rest =>
      if decide (k = key) then (k, f v) :: rest
      else (k, v) :: update_item f key rest
  end.

(** Body of the loop [for entry in database] of [get_statistics]. *)
Definition count_entry (tactics : list (string * tactic_counts)) (entry : entry)
  : list (string * tactic_counts) :=
  let tactic := e_tactic entry in
  let tactics :=
    if has_key tactic tactics then tactics
    else tactics ++ [(tactic, {| n_techniques := 0; n_sub_techniques := 0 |})] in
  update_item (bump (e_type entry)) tactic tactics.

Definition get_statistics (database : list entry) : statistics :=
  {| st_total_entries := length database;
     st_techniques := length (List.filter (is_type ty_technique) database);
     st_sub_techniques := length (List.filter (is_type ty_sub_technique) database);
     st_tactics := fold_left count_entry database [] |}.

(** [str.strip()] *)
Fixpoint lstrip (s : string) : string :=
  match s with
  | EmptyString => EmptyString
  | String c s' => if isspace c then lstrip s' else s
  end.

Fixpoint rstrip (s : string) : string :=
  match s with
  | EmptyString => EmptyString
  | String c s' =>
      let r := rstrip s' in
      if isspace c && bool_decide (r = EmptyString) then EmptyString
      else String c r
  end.

Definition strip (s : string) : string := rstrip (lstrip s).

(** [query.lower() in ['quit', 'exit', 'q']] *)
Definition is_quit (query : string) : bool :=
  bool_decide (lower query ∈ ["quit"; "exit"; "q"]).

(** What one turn of [interactive_query] prints. *)
Inductive event : Type :=
| Found (query : string) (results : list entry)
| NoMatch (query : string)
| Goodbye.

(** How the loop ends: [break] after a quit word, or [input()] raising
    EOFError at the end of the input. *)
Inductive ending : Type := Returned | EOFError.

(** [interactive_query(database)] on the lines that [input()] will
    return. *)
Fixpoint interactive_query (database : list entry) (lines : list string)
  : list event * ending :=
  match lines with
  | [] => ([], EOFError)
  | line :: rest =>
      let query := strip line in
      if is_quit query then ([Goodbye], Returned)
      else if decide (query = EmptyString) then interactive_query database rest
      else
        let results := search_techniques database query 5 in
        let shown :=
          match results with
          | [] => NoMatch query
          | _ :: _ => Found query results
          end in
        let (events, e) := interactive_query database rest in
        (shown :: events, e)
  end.

End Tools.

(** ** Wording of the further properties *)

Module Props.
Import Text Py Extractor Semantic Tools.

(** The number of entries of [database] under [tactic] with type [t]. *)
Definition tally (database : list entry) (tactic : string) (t : entry_type)
  : nat :=
  length
    (List.filter
       (fun entry => bool_decide (e_tactic entry = tactic) && is_type t entry)
       database).

(** The keys of a list in order of first occurrence. *)
Fixpoint first_occurrences (seen : list string) (l : list string) : list string :=
  match l with
  | [] => []
  | x :: rest =>
      if bool_decide (x ∈ seen) then first_occurrences seen rest
      else x :: first_occurrences (seen ++ [x]) rest
  end.

(** The query, lowercased, occurs in the name or the description of the
    entry, or one of its words occurs in the entry's composite text. *)
Definition matches (query : string) (entry : entry) : bool :=
  contains (lower query) (lower (e_name entry))
  || contains (lower query) (lower (e_description entry))
  || existsb (fun w => contains w (lower (e_full_text entry)))
       (split (lower query)).

(** What the loop prints for one line that is neither blank nor a quit
    word. *)
Definition answer (database : list entry) (query : string) : event :=
  match search_techniques database query 5 with
  | [] => NoMatch query
  | results => Found query results
  end.

(** The vectors [create_embeddings] computes for [entries] with the model
    loaded under [name]. *)
Definition index_of (w : world) (name : string) (entries : list entry)
  : list vec :=
  map (fun entry => encoder w name (entry_text entry)) entries.

(** The model a method can work with: the loaded one, else the one
    [load_model()] would load. *)
Definition usable_model (w : world) : option string :=
  match model w with
  | Some name => Some name
  | None =>
      if SENTENCE_TRANSFORMERS_AVAILABLE w then Some (model_name w) else None
  end.

(** The engine after [if self.model is None: self.load_model()]. *)
Definition with_model (name : string) (w : world) : world :=
  match model w with
  | Some _ => w
  | None => set_model (Some name) w
  end.

(** The last part of [search], from [query_embedding = ...] on. *)
Definition rank_with_index (query : string) (top_k : Z) (min_score : R)
  : M (list (entry * fval)) :=
  bind (encode [query]) (fun encoded =>
    let query_embedding := nth 0 encoded [] in
    bind (gets embeddings) (fun e =>
      match e with
      | None => raise TypeError
      | Some E =>
          bind (lift (similarities E query_embedding)) (fun sims =>
            let top_indices := slice_to top_k (rev (argsort sims)) in
            bind (gets database) (fun db =>
              lift (collect_results db sims min_score top_indices [])))
      end)).

(** The engine after a successful [create_embeddings()]. *)
Definition with_index (name : string) (entries : list entry) (w : world)
  : world :=
  set_embeddings (Some (index_of w name entries))
    (set_encode_calls (encode_calls w ++ [map entry_text entries])
       (Spec.with_database entries (with_model name w))).

End Props.

(** ** Further example data *)

Module MoreExamples.
Import Text Py Extractor Semantic.

(** A new engine on a machine without sentence-transformers. *)
Definition w_no_package : world :=
  {| model_name := "all-MiniLM-L6-v2";
     model := None;
     database := None;
     embeddings := None;
     index_path := "sparta_embeddings.pkl";
     SENTENCE_TRANSFORMERS_AVAILABLE := false;
     json_files := <["sparta_database.json" := Examples.database_pair]> ∅;
     pickle_files := ∅;
     encoder := Examples.stub_encoder;
     encode_calls := [] |}.

(** An engine that found its index on disk and never loaded the
    database. *)
Definition w_index_only : world :=
  {| model_name := "all-MiniLM-L6-v2";
     model := Some "all-MiniLM-L6-v2";
     database := None;
     embeddings := Some [[1%R; 0%R]; [0%R; 1%R]];
     index_path := "sparta_embeddings.pkl";
     SENTENCE_TRANSFORMERS_AVAILABLE := true;
     json_files := ∅;
     pickle_files := ∅;
     encoder := Examples.stub_encoder;
     encode_calls := [] |}.

(** An engine whose index has rows of another dimension than the model's
    vectors. *)
Definition w_other_dimension : world :=
  {| model_name := "all-MiniLM-L6-v2";
     model := Some "all-MiniLM-L6-v2";
     database := Some Examples.database_pair;
     embeddings := Some [[1%R; 0%R; 0%R]; [0%R; 1%R; 0%R]];
     index_path := "sparta_embeddings.pkl";
     SENTENCE_TRANSFORMERS_AVAILABLE := true;
     json_files := ∅;
     pickle_files := ∅;
     encoder := Examples.stub_encoder;
     encode_calls := [] |}.

(** An engine with neither a database nor a database file. *)
Definition w_no_database : world :=
  {| model_name := "all-MiniLM-L6-v2";
     model := None;
     database := None;
     embeddings := None;
     index_path := "sparta_embeddings.pkl";
     SENTENCE_TRANSFORMERS_AVAILABLE := true;
     json_files := ∅;
     pickle_files := ∅;
     encoder := Examples.stub_encoder;
     encode_calls := [] |}.

End MoreExamples.

(** * Properties *)

(** ** The stable sort *)

Module StableSortFacts.
Import StableSort.
Section Facts.
Context {A : Type} (le : A -> A -> bool).
Hypothesis le_total : forall x y, le x y = true \/ le y x = true.
Hypothesis le_trans : forall x y z, le x y = true -> le y z = true -> le x z = true.

Lemma insert_perm (x : A) (l : list A) : Permutation (insert le x l) (x :: l).
Proof.
  induction l as [|y ys IH]; simpl; [reflexivity|].
  destruct (le x y); [reflexivity|].
  rewrite IH. apply perm_swap.
Qed.

Lemma isort_perm (l : list A) : Permutation (isort le l) l.
Proof.
  induction l as [|x xs IH]; simpl; [reflexivity|].
  rewrite insert_perm. now constructor.
Qed.

Lemma insert_sorted (x : A) (l : list A) :
  StronglySorted (fun a b => le a b = true) l ->
  StronglySorted (fun a b => le a b = true) (insert le x l).
Proof.
  induction l as [|y ys IH]; simpl; intros Hs.
  - repeat constructor.
  - inversion Hs as [|? ? Hys Hall]; subst.
    destruct (le x y) eqn:Hxy.
    + constructor; [assumption|].
      constructor; [assumption|].
      eapply Forall_impl; [exact Hall|].
      intros z Hz. now apply (le_trans x y z).
    + constructor; [now apply IH|].
      assert (Hyx : le y x = true) by (destruct (le_total x y); congruence).
      eapply Permutation_Forall; [symmetry; apply insert_perm|].
      now constructor.
Qed.

Lemma isort_sorted (l : list A) :
  StronglySorted (fun a b => le a b = true) (isort le l).
Proof.
  induction l as [|x xs IH]; simpl; [constructor|].
  now apply insert_sorted.
Qed.

(** Stability: a predicate whose members are pairwise in order (such as one
    class of equal keys) selects the same sublist before and after. *)
Lemma insert_stable (p : A -> bool) (x : A) (l : list A) :
  (forall u v, p u = true -> p v = true -> le u v = true) ->
  List.filter p (insert le x l) = List.filter p (x :: l).
Proof.
  intros Hp. induction l as [|y ys IH]; [reflexivity|].
  cbn [insert]. destruct (le x y) eqn:Hxy; [reflexivity|].
  cbn [List.filter] in *. rewrite IH.
  destruct (p x) eqn:Hx, (p y) eqn:Hy; try reflexivity.
  rewrite (Hp x y Hx Hy) in Hxy. discriminate.
Qed.

Lemma isort_stable (p : A -> bool) (l : list A) :
  (forall u v, p u = true -> p v = true -> le u v = true) ->
  List.filter p (isort le l) = List.filter p l.
Proof.
  intros Hp. induction l as [|x xs IH]; [reflexivity|].
  cbn [isort]. rewrite insert_stable by assumption.
  cbn [List.filter]. now rewrite IH.
Qed.

Lemma isort_stable_class (a : A) (l : list A) :
  List.filter (eqv le a) (isort le l) = List.filter (eqv le a) l.
Proof.
  apply isort_stable. unfold eqv. intros u v Hu Hv.
  apply andb_prop in Hu as [_ Hu]. apply andb_prop in Hv as [Hv _].
  now apply (le_trans u a v).
Qed.

End Facts.
End StableSortFacts.

(** ** Keyword score *)

Module ScoreFacts.
Import Text Py Extractor.

Lemma filter_length_perm {A} (p : A -> bool) (l1 l2 : list A) :
  Permutation l1 l2 -> length (List.filter p l1) = length (List.filter p l2).
Proof.
  induction 1 as [|x l l' _ IH|x y l|l l' l'' _ IH1 _ IH2]; simpl.
  - reflexivity.
  - destruct (p x); simpl; congruence.
  - destruct (p x), (p y); reflexivity.
  - congruence.
Qed.

Lemma list_filter_elem_of {A} (p : A -> bool) (l : list A) (x : A) :
  x ∈ List.filter p l <-> x ∈ l /\ p x = true.
Proof. rewrite !list_elem_of_In. apply filter_In. Qed.

Lemma words_set_remove_dups (l : list string) :
  (list_to_set (remove_dups l) : gset string) = list_to_set l.
Proof.
  apply set_eq. intros x.
  rewrite !elem_of_list_to_set. apply elem_of_remove_dups.
Qed.

Lemma elements_words (l : list string) :
  Permutation (elements (list_to_set l : gset string)) (remove_dups l).
Proof.
  rewrite <- words_set_remove_dups.
  apply elements_list_to_set, NoDup_remove_dups.
Qed.

(** The overlap of two word sets, counted on the distinct words. *)
Lemma overlap_size (l1 l2 : list string) :
  size ((list_to_set l1 : gset string) ∩ list_to_set l2)
  = length (List.filter (fun w => bool_decide (w ∈ l2)) (remove_dups l1)).
Proof.
  rewrite <- (size_list_to_set (C := gset string))
    by (apply NoDup_ListNoDup, List.NoDup_filter, NoDup_ListNoDup,
          NoDup_remove_dups).
  f_equal. apply set_eq. intros x.
  rewrite elem_of_intersection, !elem_of_list_to_set.
  rewrite list_filter_elem_of, elem_of_remove_dups, bool_decide_eq_true.
  reflexivity.
Qed.

(** The partial-match loop adds 5 per word of the set that passes. *)
Lemma partial_match_fold (p : string -> bool) (score0 : Z) (l : list string) :
  foldr (fun word score => if p word then (score + 5)%Z else score) score0 l
  = (score0 + 5 * Z.of_nat (length (List.filter p l)))%Z.
Proof.
  induction l as [|w l IH]; simpl; [lia|].
  rewrite IH. destruct (p w); simpl; lia.
Qed.

Lemma entry_score_eq (query : string) (entry : entry) :
  Spec.score query entry
  = Spec.keyword_score query (e_name entry) (e_description entry)
      (e_full_text entry).
Proof.
  unfold Spec.score, Spec.keyword_score, entry_score, Spec.count,
    Spec.distinct_words, set_fold.
  cbn [compose]. rewrite partial_match_fold, overlap_size.
  rewrite (filter_length_perm _ _ _ (elements_words _)).
  destruct (contains _ (lower (e_name entry))),
    (contains _ (lower (e_description entry))); lia.
Qed.

Lemma keyword_score_nonneg (query name description composite : string) :
  (0 <= Spec.keyword_score query name description composite)%Z.
Proof.
  unfold Spec.keyword_score, Spec.count.
  destruct (contains _ (lower name)), (contains _ (lower description)); lia.
Qed.

(** The query "jamming" on the record named Jamming: name and description
    both contain it, and it is a word of the composite text. *)
Example score_jamming : Spec.score "jamming" Examples.jamming = 165%Z.
Proof. reflexivity. Qed.

Example score_empty_query : Spec.score "" Examples.jamming = 150%Z.
Proof. reflexivity. Qed.

Example score_two_words :
  map (Spec.score "launch jamming") Examples.database_excerpt
  = [15; 15; 15; 15; 15; 15; 0]%Z.
Proof. reflexivity. Qed.

Example search_jamming :
  map e_id (search_techniques Examples.database_excerpt "jamming" 5)
  = ["EX-0016"; "EX-0016.01"; "EX-0016.02"; "EX-0016.03"].
Proof. reflexivity. Qed.

End ScoreFacts.

(** C1. For every query and record, the score that [search_techniques]
    computes is the sum of four independent contributions: 100 when the
    lowercased query is a substring of the lowercased name, 50 when it is a
    substring of the lowercased description, 10 per distinct query word that
    is a word of the lowercased composite text, and 5 per distinct query word
    that is a substring of it (both may count the same word). It is an
    integer that is at least 0 and a function of the query and of the
    record's name, description and composite text alone. *)
Theorem keyword_score_is_sum_of_contributions :
  forall (query : string) (entry : Extractor.entry),
    let q := Text.lower query in
    let text := Text.lower (Extractor.e_full_text entry) in
    let words := Spec.distinct_words q in
    Spec.score query entry
    = ((if Text.contains q (Text.lower (Extractor.e_name entry)) then 100 else 0)
       + (if Text.contains q (Text.lower (Extractor.e_description entry))
          then 50 else 0)
       + 10 * Spec.count (fun w => bool_decide (w ∈ Text.split text)) words
       + 5 * Spec.count (fun w => Text.contains w text) words)%Z
    /\ (0 <= Spec.score query entry)%Z
    /\ Spec.score query entry
       = Spec.keyword_score query (Extractor.e_name entry)
           (Extractor.e_description entry) (Extractor.e_full_text entry).
Proof.
  intros query entry q text words.
  rewrite ScoreFacts.entry_score_eq.
  split; [reflexivity|].
  split; [apply ScoreFacts.keyword_score_nonneg|reflexivity].
Qed.

(** ** Keyword rank *)

Module RankFacts.
Import Text Py Extractor.

Lemma filter_map_comm {A B} (p : B -> bool) (g : A -> B) (l : list A) :
  List.filter p (map g l) = map g (List.filter (fun x => p (g x)) l).
Proof.
  induction l as [|x l IH]; simpl; [reflexivity|].
  destruct (p (g x)); simpl; now rewrite IH.
Qed.

Lemma StronglySorted_map {A B} (R : B -> B -> Prop) (g : A -> B) (l : list A) :
  StronglySorted R (map g l) -> StronglySorted (fun a b => R (g a) (g b)) l.
Proof.
  induction l as [|x l IH]; simpl; intros Hs; [constructor|].
  inversion Hs as [|? ? Hl Hall]; subst.
  constructor; [now apply IH|].
  rewrite List.Forall_forall in *. intros b Hb.
  apply Hall, in_map, Hb.
Qed.

Lemma score_loop (query_lower : string) (query_words : gset string)
    (database : list entry) (acc : list (Z * entry)) :
  fold_left
    (fun scored_results entry =>
       let score := entry_score query_lower query_words entry in
       if (0 <? score)%Z then scored_results ++ [(score, entry)]
       else scored_results)
    database acc
  = acc ++ map (fun e => (entry_score query_lower query_words e, e))
      (List.filter (fun e => (0 <? entry_score query_lower query_words e)%Z)
         database).
Proof.
  revert acc. induction database as [|e db IH]; intros acc; simpl.
  - now rewrite app_nil_r.
  - rewrite IH. destruct (0 <? _)%Z; simpl; [|reflexivity].
    now rewrite <- app_assoc.
Qed.

(** The scoring loop keeps, in store order, the entries of positive
    score, each paired with its score. *)
Lemma score_entries_eq (query_lower : string) (query_words : gset string)
    (database : list entry) :
  score_entries query_lower query_words database
  = map (fun e => (entry_score query_lower query_words e, e))
      (List.filter (fun e => (0 <? entry_score query_lower query_words e)%Z)
         database).
Proof. unfold score_entries. now rewrite score_loop. Qed.

Lemma by_score_desc_total (x y : Z * entry) :
  (fst y <=? fst x)%Z = true \/ (fst x <=? fst y)%Z = true.
Proof. lia. Qed.

Lemma by_score_desc_trans (x y z : Z * entry) :
  (fst y <=? fst x)%Z = true -> (fst z <=? fst y)%Z = true ->
  (fst z <=? fst x)%Z = true.
Proof. lia. Qed.

Lemma StronglySorted_weaken {A} (R R' : A -> A -> Prop) (l : list A) :
  (forall a b, R a b -> R' a b) -> StronglySorted R l -> StronglySorted R' l.
Proof.
  intros HR. induction 1 as [|x l _ IH Hall]; constructor; [exact IH|].
  eapply Forall_impl; [exact Hall|]. intros b. apply HR.
Qed.

(** A list of scored entries is the image of its entries. *)
Lemma scored_image (g : entry -> Z) (l : list (Z * entry)) :
  List.Forall (fun x => fst x = g (snd x)) l ->
  l = map (fun e => (g e, e)) (map snd l).
Proof.
  induction 1 as [|[s e] l Hx _ IH]; simpl; [reflexivity|].
  simpl in Hx. subst s. now rewrite <- IH.
Qed.

Lemma positive_is_nonzero (query : string) (database : list entry) :
  List.filter (fun e => (0 <? Spec.score query e)%Z) database
  = List.filter (fun e => negb (Spec.score query e =? 0)%Z) database.
Proof.
  apply List.filter_ext. intros e.
  pose proof (ScoreFacts.keyword_score_nonneg query (e_name e)
                (e_description e) (e_full_text e)) as H.
  rewrite <- ScoreFacts.entry_score_eq in H. lia.
Qed.

Lemma In_firstn {A} (n : nat) (l : list A) (x : A) :
  In x (firstn n l) -> In x l.
Proof.
  intros H. rewrite <- (firstn_skipn n l). apply in_or_app. now left.
Qed.

Lemma In_slice_to {A} (k : Z) (l : list A) (x : A) :
  In x (slice_to k l) -> In x l.
Proof. unfold slice_to. destruct (0 <=? k)%Z; apply In_firstn. Qed.

Lemma slice_to_map {A B} (g : A -> B) (k : Z) (l : list A) :
  map g (slice_to k l) = slice_to k (map g l).
Proof.
  unfold slice_to. rewrite length_map.
  destruct (0 <=? k)%Z; now rewrite firstn_map.
Qed.

Lemma search_techniques_slice database query top_k :
  search_techniques database query top_k
  = slice_to top_k (Spec.ranking database query).
Proof. unfold search_techniques, Spec.ranking. apply slice_to_map. Qed.

Lemma ranking_scored database query :
  sort_by_score_desc
    (score_entries (lower query) (list_to_set (split (lower query))) database)
  = map (fun e => (Spec.score query e, e)) (Spec.ranking database query).
Proof.
  unfold Spec.ranking. apply scored_image.
  eapply Permutation_Forall.
  - symmetry. apply StableSortFacts.isort_perm.
  - rewrite score_entries_eq. apply List.Forall_forall.
    intros x Hx. apply in_map_iff in Hx as [e [<- _]]. reflexivity.
Qed.

Lemma ranking_perm database query :
  Permutation (Spec.ranking database query)
    (List.filter (fun e => negb (Spec.score query e =? 0)%Z) database).
Proof.
  rewrite <- positive_is_nonzero. unfold Spec.ranking, sort_by_score_desc.
  rewrite StableSortFacts.isort_perm, score_entries_eq, map_map. simpl.
  now rewrite map_id.
Qed.

Lemma ranking_sorted database query :
  StronglySorted (fun a b => (Spec.score query b <= Spec.score query a)%Z)
    (Spec.ranking database query).
Proof.
  pose proof (StableSortFacts.isort_sorted (fun x y => (fst y <=? fst x)%Z)
                by_score_desc_total by_score_desc_trans
                (score_entries (lower query)
                   (list_to_set (split (lower query))) database)) as Hs.
  fold (sort_by_score_desc
          (score_entries (lower query) (list_to_set (split (lower query)))
             database)) in Hs.
  rewrite ranking_scored in Hs. apply StronglySorted_map in Hs.
  eapply StronglySorted_weaken; [|exact Hs].
  intros a b Hab. simpl in Hab. lia.
Qed.

Lemma ranking_stable database query (s : Z) :
  List.filter (fun e => (Spec.score query e =? s)%Z) (Spec.ranking database query)
  = List.filter (fun e => (Spec.score query e =? s)%Z)
      (List.filter (fun e => negb (Spec.score query e =? 0)%Z) database).
Proof.
  rewrite <- positive_is_nonzero.
  assert (Hst := StableSortFacts.isort_stable
            (fun x y => (fst y <=? fst x)%Z) (fun x => (fst x =? s)%Z)
            (score_entries (lower query)
               (list_to_set (split (lower query))) database)).
  fold (sort_by_score_desc
          (score_entries (lower query) (list_to_set (split (lower query)))
             database)) in Hst.
  rewrite ranking_scored, score_entries_eq, !filter_map_comm in Hst.
  simpl in Hst. fold (Spec.score query) in Hst.
  apply (f_equal (map snd)) in Hst; [|intros u v Hu Hv; lia].
  now rewrite !map_map, !map_id in Hst.
Qed.

End RankFacts.

(** C2. For every query, record list and [top_k], keyword rank scores
    every record, discards the records of score 0, orders the rest by
    descending score with equal scores kept in store order, and returns the
    slice [[:top_k]] of that ordering, which for a count [top_k] (not
    negative) is its first [top_k] records; no record of score 0 is
    returned. *)
Theorem keyword_rank_spec :
  forall (database : list Extractor.entry) (query : string) (top_k : Z),
    exists ranked : list Extractor.entry,
      Permutation ranked
        (List.filter (fun e => negb (Spec.score query e =? 0)%Z) database)
      /\ StronglySorted
           (fun a b => (Spec.score query b <= Spec.score query a)%Z) ranked
      /\ (forall s : Z,
            List.filter (fun e => (Spec.score query e =? s)%Z) ranked
            = List.filter (fun e => (Spec.score query e =? s)%Z)
                (List.filter (fun e => negb (Spec.score query e =? 0)%Z)
                   database))
      /\ Extractor.search_techniques database query top_k
         = Text.slice_to top_k ranked
      /\ ((0 <= top_k)%Z ->
          Extractor.search_techniques database query top_k
          = firstn (Z.to_nat top_k) ranked)
      /\ List.Forall (fun e => Spec.score query e <> 0%Z)
           (Extractor.search_techniques database query top_k).
Proof.
  intros database query top_k.
  exists (Spec.ranking database query).
  split; [apply RankFacts.ranking_perm|].
  split; [apply RankFacts.ranking_sorted|].
  split; [apply RankFacts.ranking_stable|].
  split; [apply RankFacts.search_techniques_slice|].
  split.
  - intros Hk. rewrite RankFacts.search_techniques_slice. unfold Text.slice_to.
    destruct (Z.leb_spec 0 top_k); [reflexivity|lia].
  - rewrite RankFacts.search_techniques_slice.
    apply List.Forall_forall. intros e He.
    apply RankFacts.In_slice_to in He.
    apply (Permutation_in _ (RankFacts.ranking_perm database query)) in He.
    apply filter_In in He as [_ He].
    intros Hz. rewrite Hz in He. discriminate.
Qed.

Lemma keyword_rank_spec_witness :
  (0 <= 2)%Z
  /\ exists ranked : list Extractor.entry,
       Permutation ranked
         (List.filter (fun e => negb (Spec.score "jamming" e =? 0)%Z)
            Examples.database_excerpt)
       /\ Extractor.search_techniques Examples.database_excerpt "jamming" 2
          = firstn (Z.to_nat 2) ranked.
Proof.
  assert (Hk : (0 <= 2)%Z) by lia.
  split; [exact Hk|].
  destruct (keyword_rank_spec Examples.database_excerpt "jamming" 2)
    as [ranked [Hperm [_ [_ [_ [Hfirst _]]]]]].
  exists ranked. split; [exact Hperm|exact (Hfirst Hk)].
Defined.

(** ** Building the record store *)

Module BuildFacts.
Import Text Py Extractor.

Lemma sub_loop (tactic_info : TacticInfo) (t : TechniqueInfo)
    (subs : list SubTechniqueInfo) (database : list entry) :
  fold_left
    (fun database sub => database ++ [sub_technique_entry tactic_info t sub])
    subs database
  = database ++ map (sub_technique_entry tactic_info t) subs.
Proof.
  revert database. induction subs as [|sub subs IH]; intros database; simpl.
  - now rewrite app_nil_r.
  - rewrite IH. now rewrite <- app_assoc.
Qed.

Lemma add_technique_eq tactic_info database t :
  add_technique tactic_info database t
  = database ++ Spec.technique_records tactic_info t.
Proof.
  unfold add_technique, Spec.technique_records.
  rewrite sub_loop. now rewrite <- app_assoc.
Qed.

Lemma technique_loop tactic_info (techniques : list TechniqueInfo) database :
  fold_left (add_technique tactic_info) techniques database
  = database ++ flat_map (Spec.technique_records tactic_info) techniques.
Proof.
  revert database.
  induction techniques as [|t ts IH]; intros database; simpl.
  - now rewrite app_nil_r.
  - rewrite IH, add_technique_eq. now rewrite <- app_assoc.
Qed.

Lemma add_tactic_eq SPARTA_DATA database tactic_info :
  add_tactic SPARTA_DATA database tactic_info
  = database ++ Spec.tactic_records SPARTA_DATA tactic_info.
Proof.
  unfold add_tactic, Spec.tactic_records.
  destruct (SPARTA_DATA !! tac_id tactic_info) as [techniques|]; simpl.
  - apply technique_loop.
  - now rewrite app_nil_r.
Qed.

Lemma tactic_loop SPARTA_DATA (TACTICS : list TacticInfo) database :
  fold_left (add_tactic SPARTA_DATA) TACTICS database
  = database ++ Spec.declared_order TACTICS SPARTA_DATA.
Proof.
  revert database.
  induction TACTICS as [|tac T IH]; intros database; simpl.
  - now rewrite app_nil_r.
  - rewrite IH, add_tactic_eq. now rewrite <- app_assoc.
Qed.

(** The build returns the records in the declared order, whatever the
    taxonomy. *)
Lemma build_database_eq TACTICS SPARTA_DATA :
  build_database TACTICS SPARTA_DATA
  = Ok (Spec.declared_order TACTICS SPARTA_DATA).
Proof. unfold build_database. now rewrite tactic_loop. Qed.

(** Every record comes from a declared tactic. *)
Lemma declared_order_tactic TACTICS SPARTA_DATA (e : entry) :
  In e (Spec.declared_order TACTICS SPARTA_DATA) ->
  In (e_tactic_id e) (map tac_id TACTICS).
Proof.
  unfold Spec.declared_order, Spec.tactic_records. intros He.
  apply in_flat_map in He as [tac [Htac He]].
  apply in_flat_map in He as [t [_ He]].
  apply in_map_iff. exists tac. split; [|exact Htac].
  destruct He as [<-|He]; [reflexivity|].
  apply in_map_iff in He as [sub [<- _]]. reflexivity.
Qed.

Lemma group_records_length tactic_info (techniques : list TechniqueInfo) :
  length (flat_map (Spec.technique_records tactic_info) techniques)
  = length techniques + length (flat_map Spec.subs_of techniques).
Proof.
  induction techniques as [|t ts IH]; simpl; [reflexivity|].
  rewrite !length_app, length_map, IH. fold (Spec.subs_of t). lia.
Qed.

(** One record per technique of the declared tactics and one per
    sub-technique of those. *)
Lemma declared_order_length TACTICS SPARTA_DATA :
  length (Spec.declared_order TACTICS SPARTA_DATA)
  = Spec.count_techniques TACTICS SPARTA_DATA
    + Spec.count_sub_techniques TACTICS SPARTA_DATA.
Proof.
  unfold Spec.count_techniques, Spec.count_sub_techniques,
    Spec.declared_order, Spec.techniques_under.
  induction TACTICS as [|tac T IH]; simpl; [reflexivity|].
  rewrite flat_map_app, !length_app, IH. unfold Spec.tactic_records at 1.
  rewrite group_records_length. lia.
Qed.

Lemma flat_map_ext_in {A B} (f g : A -> list B) (l : list A) :
  (forall x, In x l -> f x = g x) -> flat_map f l = flat_map g l.
Proof.
  induction l as [|x l IH]; simpl; intros H; [reflexivity|].
  rewrite (H x) by now left. rewrite IH; [reflexivity|].
  intros y Hy. apply H. now right.
Qed.

Lemma concat_perm {A} (L L' : list (list A)) :
  Permutation L L' -> Permutation (concat L) (concat L').
Proof.
  induction 1 as [|l L L' _ IH|l1 l2 L|L L' L'' _ IH1 _ IH2]; simpl.
  - reflexivity.
  - now apply Permutation_app_head.
  - rewrite !app_assoc. apply Permutation_app_tail, Permutation_app_comm.
  - now transitivity (concat L').
Qed.

(** In a well-formed taxonomy the techniques under the declared tactics
    are all the techniques of [SPARTA_DATA], each once. *)
Lemma techniques_under_all (TACTICS : list TacticInfo) :
  forall SPARTA_DATA : gmap string (list TechniqueInfo),
    NoDup (map tac_id TACTICS) ->
    (forall k, is_Some (SPARTA_DATA !! k) -> k ∈ map tac_id TACTICS) ->
    Permutation (Spec.techniques_under TACTICS SPARTA_DATA)
      (Spec.techniques_of SPARTA_DATA).
Proof.
  unfold Spec.techniques_under, Spec.techniques_of.
  induction TACTICS as [|tac T IH]; intros D Hnd Hdom.
  - assert (D = ∅) as ->.
    { apply map_empty. intros k. apply eq_None_not_Some. intros Hk.
      apply Hdom in Hk. simpl in Hk. inversion Hk. }
    now rewrite map_to_list_empty.
  - simpl in Hnd. apply NoDup_cons in Hnd as [Hnotin Hnd].
    cbn [flat_map].
    destruct (D !! tac_id tac) as [ts|] eqn:Hlook; cbn [default].
    + rewrite <- (concat_perm _ _
                    (Permutation_map snd
                       (map_to_list_delete D (tac_id tac) ts Hlook))).
      cbn [map concat snd]. apply Permutation_app_head.
      rewrite <- (IH (delete (tac_id tac) D)).
      * erewrite flat_map_ext_in; [reflexivity|]. intros tac' Hin. cbv beta.
        rewrite lookup_delete_ne; [reflexivity|].
        intros Heq. apply Hnotin. rewrite Heq.
        apply list_elem_of_In, in_map, Hin.
      * exact Hnd.
      * intros k Hk.
        destruct (decide (k = tac_id tac)) as [->|Hne].
        { rewrite lookup_delete_eq in Hk. destruct Hk; discriminate. }
        rewrite lookup_delete_ne in Hk by congruence.
        apply Hdom in Hk. simpl in Hk.
        apply elem_of_cons in Hk as [Hk|Hk]; [contradiction|exact Hk].
    + simpl. apply IH; [exact Hnd|].
      intros k Hk. pose proof (Hdom k Hk) as Hin. simpl in Hin.
      apply elem_of_cons in Hin as [->|Hin]; [|exact Hin].
      rewrite Hlook in Hk. destruct Hk; discriminate.
Qed.

Lemma well_formed_all_techniques TACTICS SPARTA_DATA :
  Spec.well_formed TACTICS SPARTA_DATA ->
  Permutation (Spec.techniques_under TACTICS SPARTA_DATA)
    (Spec.techniques_of SPARTA_DATA).
Proof.
  intros [Hnd Hdom]. apply techniques_under_all; [exact Hnd|].
  intros k Hk. apply elem_of_dom, Hdom, elem_of_list_to_set in Hk. exact Hk.
Qed.

End BuildFacts.

(** C8, as stated, fails: a taxonomy with a technique filed under an
    undeclared tactic id, and one with a sub-technique whose implied parent
    is absent, are both built into a store without any error. *)
Lemma build_database_accepts_malformed :
  (Spec.malformed Examples.TACTICS Examples.SPARTA_DATA_orphan_group
   /\ Extractor.build_database Examples.TACTICS Examples.SPARTA_DATA_orphan_group
      = Py.Ok (firstn 2 Examples.database_excerpt))
  /\ (Spec.malformed Examples.TACTICS Examples.SPARTA_DATA_stray_sub
      /\ exists store,
           Extractor.build_database Examples.TACTICS
             Examples.SPARTA_DATA_stray_sub = Py.Ok store
           /\ map Extractor.e_id store = ["IMP-0003"; "EX-0016.01"]
           /\ map Extractor.e_parent_id store = [None; Some "IMP-0003"]).
Proof.
  split; split.
  - left. exists "ST0042", [Examples.EX_0016].
    split; [reflexivity|]. split; [discriminate|].
    refine (bool_decide_unpack _ _). vm_compute. exact I.
  - vm_compute. reflexivity.
  - right. exists {| Extractor.sub_id := "EX-0016.01";
                     Extractor.sub_name := "Uplink Jamming";
                     Extractor.sub_description :=
                       "An uplink jammer interferes with signals going up to a satellite." |}.
    split.
    + vm_compute. constructor.
    + refine (bool_decide_unpack _ _). vm_compute. exact I.
  - eexists. split; [vm_compute; reflexivity|]. split; reflexivity.
Qed.

(** C8, amended. Building the record store never fails: for every taxonomy
    it returns the records of the declared tactics' groups in declared
    order, every record carrying the id of a declared tactic; a group filed
    under an undeclared tactic id is skipped without an error, and nothing
    checks a sub-technique's id against its parent. *)
Theorem build_database_never_fails :
  forall (TACTICS : list Extractor.TacticInfo)
         (SPARTA_DATA : gmap string (list Extractor.TechniqueInfo)),
    exists store : list Extractor.entry,
      Extractor.build_database TACTICS SPARTA_DATA = Py.Ok store
      /\ store = Spec.declared_order TACTICS SPARTA_DATA
      /\ List.Forall
           (fun e => In (Extractor.e_tactic_id e) (map Extractor.tac_id TACTICS))
           store.
Proof.
  intros TACTICS SPARTA_DATA.
  exists (Spec.declared_order TACTICS SPARTA_DATA).
  split; [apply BuildFacts.build_database_eq|].
  split; [reflexivity|].
  apply List.Forall_forall. apply BuildFacts.declared_order_tactic.
Qed.

(** C9. For every taxonomy, the build produces exactly count(techniques)
    + count(sub_techniques) records, one per technique of the taxonomy's
    tactics and one per sub-technique of those, in the declared order:
    tactics in declared order, each tactic's techniques in declared order,
    each technique followed at once by its sub-techniques in declared
    order. The store is a function of the taxonomy alone, so repeated
    builds agree. When tactic ids are unique and every technique group
    belongs to a declared tactic, the techniques counted are all the
    techniques of [SPARTA_DATA], each once. *)
Theorem build_database_count_and_order :
  forall (TACTICS : list Extractor.TacticInfo)
         (SPARTA_DATA : gmap string (list Extractor.TechniqueInfo)),
    exists store : list Extractor.entry,
      Extractor.build_database TACTICS SPARTA_DATA = Py.Ok store
      /\ length store
         = Spec.count_techniques TACTICS SPARTA_DATA
           + Spec.count_sub_techniques TACTICS SPARTA_DATA
      /\ store = Spec.declared_order TACTICS SPARTA_DATA
      /\ (Spec.well_formed TACTICS SPARTA_DATA ->
          Permutation (Spec.techniques_under TACTICS SPARTA_DATA)
            (Spec.techniques_of SPARTA_DATA)).
Proof.
  intros TACTICS SPARTA_DATA.
  exists (Spec.declared_order TACTICS SPARTA_DATA).
  split; [apply BuildFacts.build_database_eq|].
  split; [apply BuildFacts.declared_order_length|].
  split; [reflexivity|apply BuildFacts.well_formed_all_techniques].
Qed.

Lemma build_database_count_and_order_witness :
  Spec.well_formed Examples.TACTICS Examples.SPARTA_DATA_excerpt
  /\ Extractor.build_database Examples.TACTICS Examples.SPARTA_DATA_excerpt
     = Py.Ok Examples.database_excerpt
  /\ length Examples.database_excerpt = (3 + 4)%nat
  /\ Permutation
       (Spec.techniques_under Examples.TACTICS Examples.SPARTA_DATA_excerpt)
       (Spec.techniques_of Examples.SPARTA_DATA_excerpt).
Proof.
  assert (Hwf : Spec.well_formed Examples.TACTICS Examples.SPARTA_DATA_excerpt).
  { split; refine (bool_decide_unpack _ _); vm_compute; exact I. }
  destruct (build_database_count_and_order Examples.TACTICS
              Examples.SPARTA_DATA_excerpt)
    as [store [Hbuild [Hlen [Horder Hall]]]].
  split; [exact Hwf|]. split; [reflexivity|]. split; [reflexivity|].
  exact (Hall Hwf).
Defined.

(** ** Cosine similarity *)

Module CosineFacts.
Import Text Py Extractor Semantic.
Local Open Scope R_scope.

Lemma dot_self_nonneg (u : vec) : 0 <= dot u u.
Proof. induction u as [|x u IH]; simpl; nra. Qed.

(** Cauchy-Schwarz, on the common prefix of the two lists. *)
Lemma cauchy_schwarz (u v : vec) :
  dot u v * dot u v <= dot u u * dot v v.
Proof.
  revert v. induction u as [|x u IH]; intros v.
  - simpl. pose proof (dot_self_nonneg v). nra.
  - destruct v as [|y v]; simpl.
    + pose proof (dot_self_nonneg (x :: u)) as H. simpl in H. nra.
    + specialize (IH v).
      pose proof (dot_self_nonneg u) as HA.
      pose proof (dot_self_nonneg v) as HB.
      set (D := dot u v) in *. set (A := dot u u) in *. set (B := dot v v) in *.
      assert (Hx : 0 <= x * x * (A * B - D * D))
        by (apply Rmult_le_pos; nra).
      assert (Hsq : 0 <= (x * D - A * y) * (x * D - A * y))
        by apply Rle_0_sqr.
      destruct (Req_dec_T A 0) as [HA0|HA0].
      * assert (D = 0) by nra. nra.
      * assert (HApos : 0 < A) by lra.
        assert (Hm : A * (2 * x * y * D) <= A * (x * x * B + A * y * y)) by nra.
        apply Rmult_le_reg_l in Hm; [|exact HApos].
        nra.
Qed.

Lemma norm_nonneg (u : vec) : 0 <= norm u.
Proof. apply sqrt_pos. Qed.

Lemma norm_sqr (u : vec) : norm u * norm u = dot u u.
Proof. apply sqrt_sqrt, dot_self_nonneg. Qed.

(** With a null divisor the dividend is null too: the quotient numpy
    computes is 0/0. *)
Lemma null_divisor_null_dividend (u v : vec) :
  norm u * norm v = 0 -> dot u v = 0.
Proof.
  intros H. pose proof (cauchy_schwarz u v) as Hcs.
  rewrite <- (norm_sqr u), <- (norm_sqr v) in Hcs.
  assert (norm u * norm u * (norm v * norm v) = 0).
  { replace (norm u * norm u * (norm v * norm v))
      with ((norm u * norm v) * (norm u * norm v)) by ring.
    rewrite H. ring. }
  nra.
Qed.

Lemma cosine_null (u v : vec) :
  norm u = 0 \/ norm v = 0 -> cosine u v = NaN.
Proof.
  intros H. unfold cosine.
  destruct (Req_dec_T (norm u * norm v) 0) as [|Hne]; [reflexivity|].
  exfalso. apply Hne. destruct H as [-> | ->]; ring.
Qed.

Lemma cosine_defined (u v : vec) :
  norm u <> 0 -> norm v <> 0 ->
  cosine u v = Num (dot u v / (norm u * norm v)).
Proof.
  intros Hu Hv. unfold cosine.
  destruct (Req_dec_T (norm u * norm v) 0) as [H0|]; [|reflexivity].
  exfalso. apply Rmult_integral in H0. tauto.
Qed.

Lemma similarities_ok (E : list vec) (q : vec) :
  List.Forall (fun row => length row = length q) E ->
  similarities E q = Ok (map (fun row => cosine row q) E).
Proof.
  intros H. unfold similarities.
  replace (forallb _ E) with true; [reflexivity|].
  symmetry. apply forallb_forall. rewrite List.Forall_forall in H.
  intros row Hrow. apply Nat.eqb_eq, H, Hrow.
Qed.

(** The vectors of the examples. *)
Lemma norm_e1 : norm [1; 0] = 1.
Proof. unfold norm. simpl. replace (1 * 1 + (0 * 0 + 0)) with 1 by ring. apply sqrt_1. Qed.

Lemma norm_e2 : norm [0; 1] = 1.
Proof. unfold norm. simpl. replace (0 * 0 + (1 * 1 + 0)) with 1 by ring. apply sqrt_1. Qed.

Lemma norm_null : norm [0; 0] = 0.
Proof. unfold norm. simpl. replace (0 * 0 + (0 * 0 + 0)) with 0 by ring. apply sqrt_0. Qed.

Lemma cosine_e1_e2 : cosine [1; 0] [0; 1] = Num 0.
Proof.
  rewrite cosine_defined by (rewrite ?norm_e1, ?norm_e2; lra).
  rewrite norm_e1, norm_e2. simpl. f_equal. field.
Qed.

Lemma cosine_e2_e2 : cosine [0; 1] [0; 1] = Num 1.
Proof.
  rewrite cosine_defined by (rewrite ?norm_e2; lra).
  rewrite norm_e2. simpl. f_equal. field.
Qed.

Lemma cosine_null_e2 : cosine [0; 0] [0; 1] = NaN.
Proof. apply cosine_null. left. apply norm_null. Qed.

End CosineFacts.

(** C3, as stated, fails: for a stored vector of norm 0 the similarity is
    NaN, not 0, and where a score of 0 would pass a [min_score] of 0, NaN
    does not. *)
Lemma cosine_of_null_vector_is_nan :
  Semantic.norm [0%R; 0%R] = 0%R
  /\ Semantic.similarities [[0%R; 0%R]] [0%R; 1%R] = Py.Ok [Semantic.NaN]
  /\ Semantic.NaN <> Semantic.Num 0
  /\ Semantic.fge Semantic.NaN 0 = false
  /\ Semantic.fge (Semantic.Num 0) 0 = true.
Proof.
  split; [apply CosineFacts.norm_null|].
  split.
  - rewrite CosineFacts.similarities_ok by (repeat constructor).
    simpl. now rewrite CosineFacts.cosine_null_e2.
  - split; [discriminate|]. split; [reflexivity|].
    simpl. destruct (Rle_dec 0 0); [reflexivity|lra].
Qed.

(** C3, amended. Each record's score is the dot product of its stored
    vector and the query vector divided by the product of the two L2 norms,
    when both norms are non-zero. There is no guard for a norm of exactly
    0: dividend and divisor are then both 0, the score is NaN, not 0, and
    NaN fails the comparison with every [min_score]. (Rounding is outside
    the statement, and no bound on a computed score is stated.) *)
Theorem cosine_score_spec :
  forall (E : list Semantic.vec) (q : Semantic.vec),
    E <> [] ->
    List.Forall (fun row => length row = length q) E ->
    exists sims : list Semantic.fval,
      Semantic.similarities E q = Py.Ok sims
      /\ Forall2
           (fun row s =>
              (Semantic.norm row <> 0%R /\ Semantic.norm q <> 0%R ->
               s = Semantic.Num
                     (Semantic.dot row q / (Semantic.norm row * Semantic.norm q)))
              /\ (Semantic.norm row = 0%R \/ Semantic.norm q = 0%R ->
                  Semantic.dot row q = 0%R
                  /\ s = Semantic.NaN
                  /\ forall min_score : R, Semantic.fge s min_score = false))
           E sims.
Proof.
  intros E q _ Hlen.
  exists (map (fun row => Semantic.cosine row q) E).
  split; [now apply CosineFacts.similarities_ok|].
  clear Hlen. induction E as [|row E IH]; simpl; constructor; [|exact IH].
  split.
  - intros [Hrow Hq]. exact (CosineFacts.cosine_defined row q Hrow Hq).
  - intros Hnull. split.
    + apply CosineFacts.null_divisor_null_dividend.
      destruct Hnull as [-> | ->]; ring.
    + rewrite (CosineFacts.cosine_null row q Hnull). now split.
Qed.

Lemma cosine_score_spec_witness :
  [[1%R; 0%R]; [0%R; 1%R]] <> []
  /\ List.Forall (fun row => length row = length [0%R; 1%R])
       [[1%R; 0%R]; [0%R; 1%R]]
  /\ exists sims : list Semantic.fval,
       Semantic.similarities [[1%R; 0%R]; [0%R; 1%R]] [0%R; 1%R] = Py.Ok sims
       /\ Forall2
            (fun row s =>
               (Semantic.norm row <> 0%R /\ Semantic.norm [0%R; 1%R] <> 0%R ->
                s = Semantic.Num
                      (Semantic.dot row [0%R; 1%R]
                       / (Semantic.norm row * Semantic.norm [0%R; 1%R])))
               /\ (Semantic.norm row = 0%R \/ Semantic.norm [0%R; 1%R] = 0%R ->
                   Semantic.dot row [0%R; 1%R] = 0%R
                   /\ s = Semantic.NaN
                   /\ forall min_score : R,
                        Semantic.fge s min_score = false))
            [[1%R; 0%R]; [0%R; 1%R]] sims.
Proof.
  assert (Hne : [[1%R; 0%R]; [0%R; 1%R]] <> []) by discriminate.
  assert (H : List.Forall (fun row => length row = length [0%R; 1%R])
                [[1%R; 0%R]; [0%R; 1%R]])
    by (repeat constructor).
  split; [exact Hne|]. split; [exact H|].
  exact (cosine_score_spec [[1%R; 0%R]; [0%R; 1%R]] [0%R; 1%R] Hne H).
Defined.

(** ** The engine *)

Module EngineFacts.
Import Text Py Extractor Semantic.
Local Open Scope py_scope.

Lemma fle_num_true (x y : R) : (x <= y)%R -> fle (Num x) (Num y) = true.
Proof. intros H. simpl. destruct (Rle_dec x y); [reflexivity|contradiction]. Qed.

Lemma fle_num_false (x y : R) : (y < x)%R -> fle (Num x) (Num y) = false.
Proof. intros H. simpl. destruct (Rle_dec x y); [lra|reflexivity]. Qed.

Lemma fge_true (x m : R) : (m <= x)%R -> fge (Num x) m = true.
Proof. intros H. simpl. destruct (Rle_dec m x); [reflexivity|contradiction]. Qed.

Lemma fge_false (x m : R) : (x < m)%R -> fge (Num x) m = false.
Proof. intros H. simpl. destruct (Rle_dec m x); [lra|reflexivity]. Qed.

(** Settles the comparisons of known numbers that a concrete ranking
    leaves in the goal. *)
Ltac decide_scores :=
  repeat first
    [ rewrite fle_num_true by lra
    | rewrite fle_num_false by lra
    | rewrite fge_true by lra
    | rewrite fge_false by lra ].

Lemma fle_total (a b : fval) : fle a b = true \/ fle b a = true.
Proof.
  destruct a as [x|], b as [y|]; simpl; auto.
  destruct (Rle_dec x y), (Rle_dec y x); auto. lra.
Qed.

Lemma fle_trans (a b c : fval) :
  fle a b = true -> fle b c = true -> fle a c = true.
Proof.
  destruct a as [x|], b as [y|], c as [z|]; simpl; try easy.
  destruct (Rle_dec x y), (Rle_dec y z), (Rle_dec x z); try easy. lra.
Qed.

(** [search] on an engine whose model and embeddings are loaded: one
    call of the model on the query, then the ranking. *)
Lemma search_with_ready (np_argsort : list fval -> list nat) (w : world)
    (query : string) (top_k : Z) (min_score : R) (name : string)
    (E : list vec) :
  model w = Some name -> embeddings w = Some E ->
  search_with np_argsort query top_k min_score w
  = let w' := set_encode_calls (encode_calls w ++ [[query]]) w in
    match similarities E (encoder w name query) with
    | Ok sims =>
        (collect_results (database w) sims min_score
           (slice_to top_k (rev (np_argsort sims))) [], w')
    | Raise e => (Raise e, w')
    end.
Proof.
  intros Hm He. unfold search_with, bind, gets, when, lift, encode, raise.
  rewrite Hm. cbn [is_None ret]. rewrite He. cbn [is_None ret].
  rewrite Hm. cbn [nth map]. cbn [embeddings set_encode_calls]. rewrite He.
  cbn [encoder]. destruct (similarities E (encoder w name query)); reflexivity.
Qed.

Lemma search_ready (w : world) (query : string) (top_k : Z) (min_score : R)
    (name : string) (E : list vec) :
  model w = Some name -> embeddings w = Some E ->
  search query top_k min_score w
  = let w' := set_encode_calls (encode_calls w ++ [[query]]) w in
    match similarities E (encoder w name query) with
    | Ok sims =>
        (collect_results (database w) sims min_score
           (slice_to top_k (rev (argsort sims))) [], w')
    | Raise e => (Raise e, w')
    end.
Proof. apply search_with_ready. Qed.

(** The result loop, when every index names a record. *)
Lemma collect_results_ok (entries : list entry) (sims : list fval)
    (min_score : R) (top_indices : list nat) (results : list (entry * fval)) :
  List.Forall (fun i => (i < length entries)%nat) top_indices ->
  collect_results (Some entries) sims min_score top_indices results
  = Ok (results
        ++ omap (Spec.result_at entries sims)
             (List.filter (fun i => fge (nth i sims NaN) min_score) top_indices)).
Proof.
  intros H. revert results.
  induction H as [|i idxs Hi _ IH]; intros results; simpl.
  - now rewrite app_nil_r.
  - destruct (fge (nth i sims NaN) min_score); [|apply IH].
    apply lookup_lt_is_Some_2 in Hi as [entry Hentry].
    cbn [omap list_omap]. unfold Spec.result_at at 1.
    rewrite Hentry, IH. now rewrite <- app_assoc.
Qed.

(** [load_embeddings] installs whatever vectors the index file holds; the
    provider name stored next to them is not read. *)
Lemma load_embeddings_installs (w : world) (data : pickled) :
  pickle_files w !! index_path w = Some data ->
  load_embeddings w = (Ok true, set_embeddings (p_embeddings data) w).
Proof.
  intros H. unfold load_embeddings, bind, gets, modify, ret.
  now rewrite H.
Qed.

Lemma with_database_loaded (w : world) (entries : list entry) :
  Spec.available_database w = Some entries ->
  database (Spec.with_database entries w) = Some entries.
Proof.
  unfold Spec.available_database, Spec.with_database.
  destruct (database w) as [db|] eqn:Hdb; [|reflexivity].
  intros [= ->]. exact Hdb.
Qed.

(** The guard [if self.database is None: self.load_database()] in front of
    the rest [k] of a method. *)
Lemma ensure_database {A} (k : M A) (w : world) (entries : list entry) :
  Spec.available_database w = Some entries ->
  (d <- gets database ;;
   when (is_None d) (load_database default_database_file) ;;
   k) w
  = k (Spec.with_database entries w).
Proof.
  unfold Spec.available_database, Spec.with_database, load_database.
  unfold bind, gets, when, modify, raise, ret.
  destruct (database w) as [db|] eqn:Hdb; cbn [is_None]; [reflexivity|].
  intros Hfile. now rewrite Hfile.
Qed.

Lemma search_by_tactic_available (w : world) (entries : list entry)
    (tactic_name : string) :
  Spec.available_database w = Some entries ->
  search_by_tactic tactic_name w
  = (Ok (List.filter
           (fun entry => contains (lower tactic_name) (lower (e_tactic entry)))
           entries),
     Spec.with_database entries w).
Proof.
  intros H. unfold search_by_tactic.
  rewrite (ensure_database _ w entries H).
  unfold bind, gets. now rewrite (with_database_loaded w entries H).
Qed.

Lemma get_related_available (w : world) (entries : list entry)
    (technique_id : string) (top_k : Z) :
  Spec.available_database w = Some entries ->
  get_related_techniques technique_id top_k w
  = match find_technique entries technique_id with
    | None => (Ok [], Spec.with_database entries w)
    | Some technique =>
        match search (e_description technique) (top_k + 1) 0
                (Spec.with_database entries w) with
        | (Ok results, w') => (Ok (slice_from_1 results), w')
        | (Raise e, w') => (Raise e, w')
        end
    end.
Proof.
  intros H. unfold get_related_techniques.
  rewrite (ensure_database _ w entries H).
  unfold bind at 1. unfold gets. rewrite (with_database_loaded w entries H).
  destruct (find_technique entries technique_id); [|reflexivity].
  unfold bind. destruct (search _ _ _ _) as [[results|err] w2]; reflexivity.
Qed.

Lemma find_technique_none (entries : list entry) (technique_id : string) :
  (forall entry, In entry entries -> e_id entry <> technique_id) ->
  find_technique entries technique_id = None.
Proof.
  unfold find_technique.
  induction entries as [|entry entries IH]; intros H; simpl; [reflexivity|].
  rewrite bool_decide_eq_false_2 by (apply H; now left).
  apply IH. intros entry' Hin. apply H. now right.
Qed.

(** The first pair of a list that passes a test is what [find] returns. *)
Lemma find_first {A} (f : A -> bool) (l : list A) (i : nat) (x : A) :
  l !! i = Some x -> f x = true ->
  (forall j y, (j < i)%nat -> l !! j = Some y -> f y = false) ->
  List.find f l = Some x.
Proof.
  revert i. induction l as [|y l IH]; intros i Hi Hx Hbefore; [easy|].
  destruct i as [|i]; simpl in *.
  - injection Hi as ->. now rewrite Hx.
  - rewrite (Hbefore 0%nat y) by (reflexivity || lia).
    apply (IH i Hi Hx). intros j z Hj Hz.
    apply (Hbefore (S j) z); [lia|exact Hz].
Qed.

Lemma find_nothing {A} (f : A -> bool) (l : list A) :
  (forall x, In x l -> f x = false) -> List.find f l = None.
Proof.
  induction l as [|y l IH]; intros H; simpl; [reflexivity|].
  rewrite (H y) by now left. apply IH. intros x Hx. apply H. now right.
Qed.

(** A first [search] on an engine next to an index file: the model is
    loaded, the file's vectors are installed, and the search goes on with
    them. *)
Lemma search_loads_index (w : world) (query : string) (top_k : Z)
    (min_score : R) (data : pickled) :
  model w = None -> SENTENCE_TRANSFORMERS_AVAILABLE w = true ->
  embeddings w = None -> pickle_files w !! index_path w = Some data ->
  is_Some (p_embeddings data) ->
  search query top_k min_score w
  = search query top_k min_score
      (set_embeddings (p_embeddings data) (set_model (Some (model_name w)) w)).
Proof.
  intros Hm Hav He Hfile [E HE].
  unfold search at 1. unfold search_with at 1.
  unfold bind at 1. unfold gets at 1. rewrite Hm.
  cbn [is_None when]. unfold bind at 1. unfold load_model at 1.
  unfold bind at 1. unfold gets at 1. rewrite Hav.
  unfold bind at 1. unfold gets at 1. unfold modify at 1.
  unfold bind at 1. unfold gets at 1. cbn [embeddings set_model]. rewrite He.
  cbn [is_None when]. unfold bind at 1. unfold bind at 1.
  rewrite (load_embeddings_installs _ data) by exact Hfile.
  cbn [negb when ret].
  rewrite (search_ready _ query top_k min_score (model_name w) E)
    by (cbn; rewrite ?HE; reflexivity).
  unfold bind, gets, encode, lift, raise. cbn. rewrite HE. cbn.
  destruct (similarities E _); reflexivity.
Qed.

End EngineFacts.

(** C10. Called with an id that matches no record of the database,
    [get_related_techniques] returns the empty list: it does not raise, and
    it makes no call to the embedding model (the log of calls is
    unchanged). *)
Theorem related_unknown_id_is_empty :
  forall (w : Semantic.world) (entries : list Extractor.entry)
         (technique_id : string) (top_k : Z),
    Spec.available_database w = Some entries ->
    (forall entry, In entry entries -> Extractor.e_id entry <> technique_id) ->
    exists w' : Semantic.world,
      Semantic.get_related_techniques technique_id top_k w = (Py.Ok [], w')
      /\ Semantic.encode_calls w' = Semantic.encode_calls w
      /\ Semantic.embeddings w' = Semantic.embeddings w.
Proof.
  intros w entries technique_id top_k Hdb Hid.
  exists (Spec.with_database entries w).
  rewrite (EngineFacts.get_related_available w entries technique_id top_k Hdb).
  rewrite (EngineFacts.find_technique_none entries technique_id Hid).
  split; [reflexivity|].
  unfold Spec.with_database. destruct (Semantic.database w); split; reflexivity.
Qed.

Lemma related_unknown_id_is_empty_witness :
  Spec.available_database Examples.w_ready = Some Examples.database_pair
  /\ (forall entry, In entry Examples.database_pair ->
        Extractor.e_id entry <> "EX-9999")
  /\ exists w' : Semantic.world,
       Semantic.get_related_techniques "EX-9999" 5 Examples.w_ready
       = (Py.Ok [], w')
       /\ Semantic.encode_calls w' = Semantic.encode_calls Examples.w_ready
       /\ Semantic.embeddings w' = Semantic.embeddings Examples.w_ready.
Proof.
  assert (H : forall entry, In entry Examples.database_pair ->
                Extractor.e_id entry <> "EX-9999").
  { intros entry [<-|[<-|[]]]; discriminate. }
  split; [reflexivity|]. split; [exact H|].
  exact (related_unknown_id_is_empty Examples.w_ready Examples.database_pair
           "EX-9999" 5 eq_refl H).
Defined.


(** C7. When the lowercased query contains a key of the tactic-keyword
    mapping, [answer_query] takes the tactic path once, with the tactic of
    the first key (in mapping order) that the query contains, and hands on
    exactly the records whose tactic name contains that tactic's name,
    compared in lower case, in store order; so does the query "what are the
    reconnaissance techniques", with the tactic Reconnaissance. When the
    query contains no key, [answer_query] is the semantic search of the
    query with top_k = 5 and min_score = 0.3. *)
Theorem answer_query_dispatch :
  forall (w : Semantic.world) (entries : list Extractor.entry) (query : string),
    Spec.available_database w = Some entries ->
    let by_tactic (tactic : string) :=
      List.filter
        (fun entry =>
           Text.contains (Text.lower tactic)
             (Text.lower (Extractor.e_tactic entry)))
        entries in
    (forall (i : nat) (keyword tactic : string),
        Semantic.tactic_keywords !! i = Some (keyword, tactic) ->
        Text.contains keyword (Text.lower query) = true ->
        (forall (j : nat) (kw t : string),
            (j < i)%nat -> Semantic.tactic_keywords !! j = Some (kw, t) ->
            Text.contains kw (Text.lower query) = false) ->
        Semantic.answer_query query w
        = (Py.Ok (Semantic.TacticResponse tactic (by_tactic tactic)),
           Spec.with_database entries w))
    /\ Semantic.answer_query "what are the reconnaissance techniques" w
       = (Py.Ok (Semantic.TacticResponse "Reconnaissance"
                   (by_tactic "Reconnaissance")),
          Spec.with_database entries w)
    /\ ((forall keyword tactic : string,
            In (keyword, tactic) Semantic.tactic_keywords ->
            Text.contains keyword (Text.lower query) = false) ->
        Semantic.answer_query query w
        = Semantic.bind (Semantic.search query 5 (3 / 10))
            (fun results => Semantic.ret (Semantic.SearchResponse query results))
            w).
Proof.
  intros w entries query Hdb by_tactic.
  assert (Hpath : forall q i keyword tactic,
             Semantic.tactic_keywords !! i = Some (keyword, tactic) ->
             Text.contains keyword (Text.lower q) = true ->
             (forall (j : nat) (kw t : string),
                 (j < i)%nat -> Semantic.tactic_keywords !! j = Some (kw, t) ->
                 Text.contains kw (Text.lower q) = false) ->
             Semantic.answer_query q w
             = (Py.Ok (Semantic.TacticResponse tactic (by_tactic tactic)),
                Spec.with_database entries w)).
  { intros q i keyword tactic Hi Hin Hbefore. unfold Semantic.answer_query.
    rewrite (EngineFacts.find_first _ _ i (keyword, tactic) Hi Hin).
    - unfold Semantic.bind.
      now rewrite (EngineFacts.search_by_tactic_available w entries tactic Hdb).
    - intros j [kw t] Hj Hjth. exact (Hbefore j kw t Hj Hjth). }
  split; [apply Hpath|]. split.
  - apply (Hpath "what are the reconnaissance techniques" 0%nat
             "reconnaissance" "Reconnaissance"); [reflexivity|reflexivity|].
    intros j kw t Hj. lia.
  - intros Hnone. unfold Semantic.answer_query.
    rewrite EngineFacts.find_nothing; [reflexivity|].
    intros [kw t] Hin. exact (Hnone kw t Hin).
Qed.

Lemma answer_query_dispatch_witness :
  Spec.available_database Examples.w_excerpt = Some Examples.database_excerpt
  /\ Semantic.tactic_keywords !! 3%nat = Some ("execution", "Execution")
  /\ Text.contains "execution"
       (Text.lower "How can threat actors keep persistence during execution?")
     = true
  /\ (forall (j : nat) (kw t : string),
         (j < 3)%nat -> Semantic.tactic_keywords !! j = Some (kw, t) ->
         Text.contains kw
           (Text.lower "How can threat actors keep persistence during execution?")
         = false)
  /\ Semantic.answer_query
       "How can threat actors keep persistence during execution?"
       Examples.w_excerpt
     = (Py.Ok (Semantic.TacticResponse "Execution"
                 (List.filter
                    (fun entry =>
                       Text.contains (Text.lower "Execution")
                         (Text.lower (Extractor.e_tactic entry)))
                    Examples.database_excerpt)),
        Spec.with_database Examples.database_excerpt Examples.w_excerpt).
Proof.
  assert (Hdb : Spec.available_database Examples.w_excerpt
                = Some Examples.database_excerpt) by reflexivity.
  assert (Hbefore : forall (j : nat) (kw t : string),
             (j < 3)%nat -> Semantic.tactic_keywords !! j = Some (kw, t) ->
             Text.contains kw
               (Text.lower
                  "How can threat actors keep persistence during execution?")
             = false).
  { intros [|[|[|j]]] kw t Hj Hjth; [| | |lia];
      injection Hjth as <- <-; reflexivity. }
  split; [exact Hdb|]. split; [reflexivity|]. split; [reflexivity|].
  split; [exact Hbefore|].
  exact (proj1 (answer_query_dispatch Examples.w_excerpt
                  Examples.database_excerpt
                  "How can threat actors keep persistence during execution?"
                  Hdb)
           3%nat "execution" "Execution" eq_refl eq_refl Hbefore).
Defined.

(** C4, on the code: an index pickled under all-mpnet-base-v2 is loaded by
    an engine configured for all-MiniLM-L6-v2 without any error; its
    vectors are installed and the next search ranks with them, the index
    is not rebuilt. *)
Lemma load_embeddings_accepts_other_provider :
  Semantic.p_model_name Examples.stale_index
    <> Semantic.model_name Examples.w_stale_db
  /\ Semantic.load_embeddings Examples.w_stale_db
     = (Py.Ok true,
        Semantic.set_embeddings (Semantic.p_embeddings Examples.stale_index)
          Examples.w_stale_db)
  /\ exists w' : Semantic.world,
       Semantic.search "jamming" 2 0 Examples.w_stale_db
       = (Py.Ok [(Examples.jamming, Semantic.Num 1);
                 (Examples.uplink_jamming, Semantic.Num 0)], w')
       /\ Semantic.embeddings w'
          = Semantic.p_embeddings Examples.stale_index
       /\ Semantic.encode_calls w' = [["jamming"]].
Proof.
  split; [discriminate|]. split; [reflexivity|].
  eexists.
  rewrite (EngineFacts.search_loads_index _ _ _ _ Examples.stale_index)
    by (reflexivity || (eexists; reflexivity)).
  rewrite (EngineFacts.search_ready _ _ _ _ "all-MiniLM-L6-v2"
             [[0%R; 1%R]; [1%R; 0%R]]) by reflexivity.
  cbv zeta.
  change (Semantic.encoder _ "all-MiniLM-L6-v2" "jamming") with [0%R; 1%R].
  rewrite CosineFacts.similarities_ok by (repeat constructor).
  cbn [map]. rewrite CosineFacts.cosine_e2_e2, CosineFacts.cosine_e1_e2.
  unfold Semantic.argsort. cbn [length seq StableSort.isort StableSort.insert nth].
  EngineFacts.decide_scores.
  change (Semantic.database _) with (Some Examples.database_pair).
  change (Text.slice_to 2 (rev [1; 0]%nat)) with [0; 1]%nat.
  cbn [Semantic.collect_results nth].
  EngineFacts.decide_scores.
  split; [reflexivity|]. split; reflexivity.
Qed.

(** C5, on the code: on the engine set up over the two-record database,
    the description of EX-0016 is nearer to the stored vector of EX-0016.01
    than to that of EX-0016 itself; the ranking puts EX-0016 second, the
    slice [[1:]] drops the first entry only, and the related techniques of
    EX-0016 are EX-0016. *)
Lemma related_keeps_queried_record :
  Semantic.bind (Semantic.load_database Semantic.default_database_file)
    (fun _ => Semantic.bind Semantic.load_model
                (fun _ => Semantic.create_embeddings))
    Examples.w_fresh
  = (Py.Ok tt, Examples.w_ready)
  /\ Semantic.database Examples.w_ready
     = Some [Examples.jamming; Examples.uplink_jamming]
  /\ Extractor.e_id Examples.jamming = "EX-0016"
  /\ exists w' : Semantic.world,
       Semantic.search (Extractor.e_description Examples.jamming) 2 0
         Examples.w_ready
       = (Py.Ok [(Examples.uplink_jamming, Semantic.Num 1);
                 (Examples.jamming, Semantic.Num 0)], w')
       /\ Semantic.get_related_techniques "EX-0016" 1 Examples.w_ready
          = (Py.Ok [(Examples.jamming, Semantic.Num 0)], w').
Proof.
  split; [reflexivity|]. split; [reflexivity|]. split; [reflexivity|].
  assert (Hsearch :
    Semantic.search (Extractor.e_description Examples.jamming) 2 0
      Examples.w_ready
    = (Py.Ok [(Examples.uplink_jamming, Semantic.Num 1);
              (Examples.jamming, Semantic.Num 0)],
       Semantic.set_encode_calls
         (Semantic.encode_calls Examples.w_ready
          ++ [[Extractor.e_description Examples.jamming]])
         Examples.w_ready)).
  { rewrite (EngineFacts.search_ready _ _ _ _ "all-MiniLM-L6-v2"
               [[1%R; 0%R]; [0%R; 1%R]]) by reflexivity.
    cbv zeta.
    change (Semantic.encoder _ "all-MiniLM-L6-v2" _) with [0%R; 1%R].
    rewrite CosineFacts.similarities_ok by (repeat constructor).
    cbn [map]. rewrite CosineFacts.cosine_e2_e2, CosineFacts.cosine_e1_e2.
    unfold Semantic.argsort.
    cbn [length seq StableSort.isort StableSort.insert nth].
    EngineFacts.decide_scores.
    change (Semantic.database _) with (Some Examples.database_pair).
    change (Text.slice_to 2 (rev [0; 1]%nat)) with [1; 0]%nat.
    cbn [Semantic.collect_results nth].
    EngineFacts.decide_scores.
    reflexivity. }
  eexists. split; [exact Hsearch|].
  rewrite (EngineFacts.get_related_available _ Examples.database_pair)
    by reflexivity.
  change (Semantic.find_technique Examples.database_pair "EX-0016")
    with (Some Examples.jamming).
  change (Spec.with_database Examples.database_pair Examples.w_ready)
    with Examples.w_ready.
  cbv beta iota. change (1 + 1)%Z with 2%Z.
  now rewrite Hsearch.
Qed.

(** ** Similarity ranking *)

Module RankingFacts.
Import Text Py Extractor Semantic.

Lemma StronglySorted_snoc {A} (R : A -> A -> Prop) (l : list A) (x : A) :
  StronglySorted R l -> List.Forall (fun y => R y x) l ->
  StronglySorted R (l ++ [x]).
Proof.
  induction 1 as [|y l Hl IH Hy]; intros Hx; simpl.
  - repeat constructor.
  - inversion Hx as [|? ? Hyx Hlx]; subst.
    constructor; [now apply IH|].
    apply List.Forall_app. split; [exact Hy|]. now constructor.
Qed.

Lemma StronglySorted_rev {A} (R : A -> A -> Prop) (l : list A) :
  StronglySorted R l -> StronglySorted (fun a b => R b a) (rev l).
Proof.
  induction 1 as [|x l Hl IH Hx]; simpl; [constructor|].
  apply StronglySorted_snoc; [exact IH|].
  apply List.Forall_rev. exact Hx.
Qed.

Lemma StronglySorted_restrict {A} (R R' : A -> A -> Prop) (Q : A -> Prop)
    (l : list A) :
  (forall a b, Q a -> Q b -> R a b -> R' a b) ->
  List.Forall Q l -> StronglySorted R l -> StronglySorted R' l.
Proof.
  intros HR HQ Hs. induction Hs as [|x l Hl IH Hx]; [constructor|].
  inversion HQ as [|? ? Qx Ql]; subst.
  constructor; [now apply IH|].
  rewrite List.Forall_forall in *. intros b Hb.
  apply HR; [exact Qx|now apply Ql|now apply Hx].
Qed.

Lemma filter_none {A} (p : A -> bool) (l : list A) :
  (forall x, In x l -> p x = false) -> List.filter p l = [].
Proof.
  induction l as [|x l IH]; intros H; simpl; [reflexivity|].
  rewrite (H x) by now left. apply IH. intros y Hy. apply H. now right.
Qed.

(** A test that, along the list, holds on a prefix only: filtering the
    first [n] elements is taking the first [n] of the filtered list. *)
Lemma filter_firstn_prefix {A} (p : A -> bool) (l : list A) (n : nat) :
  StronglySorted (fun a b => p b = true -> p a = true) l ->
  List.filter p (firstn n l) = firstn n (List.filter p l).
Proof.
  intros Hs. revert n. induction Hs as [|x l Hl IH Hx]; intros n.
  - now rewrite !firstn_nil.
  - destruct n as [|n]; [reflexivity|]. simpl.
    destruct (p x) eqn:Hpx; simpl; [now rewrite IH|].
    assert (Hnone : forall y, In y l -> p y = false).
    { intros y Hy. rewrite List.Forall_forall in Hx. specialize (Hx y Hy).
      destruct (p y); [|reflexivity].
      symmetry. now apply Hx. }
    rewrite (filter_none p l Hnone), firstn_nil.
    apply filter_none. intros y Hy. apply Hnone.
    eapply RankFacts.In_firstn, Hy.
Qed.

Lemma argsort_perm (sims : list fval) :
  Permutation (argsort sims) (seq 0 (length sims)).
Proof. apply StableSortFacts.isort_perm. Qed.

Lemma argsort_sorted (sims : list fval) :
  StronglySorted (fun i j => fle (nth i sims NaN) (nth j sims NaN) = true)
    (argsort sims).
Proof.
  apply (StableSortFacts.isort_sorted
           (fun i j => fle (nth i sims NaN) (nth j sims NaN))).
  - intros i j. apply EngineFacts.fle_total.
  - intros i j k. apply EngineFacts.fle_trans.
Qed.

(** The stable sort meets numpy's contract. *)
Lemma argsort_conforms (a : list fval) : is_argsort a (argsort a).
Proof. split; [apply argsort_perm|apply argsort_sorted]. Qed.

(** numpy's contract leaves the order of equal values open: both orders of
    two equal scores meet it. *)
Lemma tie_order_is_open (x : R) :
  is_argsort [Num x; Num x] [0; 1]%nat /\ is_argsort [Num x; Num x] [1; 0]%nat.
Proof.
  assert (Hxx : fle (Num x) (Num x) = true)
    by (apply EngineFacts.fle_num_true; lra).
  split; (split; [|repeat constructor; exact Hxx]).
  - reflexivity.
  - apply perm_swap.
Qed.

(** The order in which [search] visits the records,
    [np.argsort(similarities)[::-1]]: all of them, scores descending, NaN
    first. *)
Lemma visiting_order_of (sims : list fval) (order : list nat) :
  is_argsort sims order ->
  Permutation (rev order) (seq 0 (length sims))
  /\ StronglySorted (fun i j => fle (nth j sims NaN) (nth i sims NaN) = true)
       (rev order).
Proof.
  intros [Hperm Hsorted]. split.
  - now rewrite <- Permutation_rev.
  - apply (StronglySorted_rev _ _ Hsorted).
Qed.

Lemma visiting_order (sims : list fval) :
  Permutation (rev (argsort sims)) (seq 0 (length sims))
  /\ StronglySorted (fun i j => fle (nth j sims NaN) (nth i sims NaN) = true)
       (rev (argsort sims)).
Proof. apply visiting_order_of, argsort_conforms. Qed.

Lemma visiting_order_in_range_of (sims : list fval) (order : list nat)
    (k : Z) :
  is_argsort sims order ->
  List.Forall (fun i => (i < length sims)%nat) (slice_to k (rev order)).
Proof.
  intros Horder. apply List.Forall_forall. intros i Hi.
  apply RankFacts.In_slice_to in Hi.
  apply (Permutation_in _ (proj1 (visiting_order_of sims order Horder))) in Hi.
  apply in_seq in Hi. lia.
Qed.

Lemma visiting_order_in_range (sims : list fval) (k : Z) :
  List.Forall (fun i => (i < length sims)%nat)
    (slice_to k (rev (argsort sims))).
Proof. apply visiting_order_in_range_of, argsort_conforms. Qed.

(** Without NaN, the entries that pass [min_score] are a prefix of the
    visiting order. *)
Lemma passing_is_prefix_of (sims : list fval) (order : list nat)
    (min_score : R) :
  is_argsort sims order ->
  List.Forall (fun s => s <> NaN) sims ->
  StronglySorted
    (fun i j => fge (nth j sims NaN) min_score = true ->
                fge (nth i sims NaN) min_score = true)
    (rev order).
Proof.
  intros Horder Hnan.
  destruct (visiting_order_of sims order Horder) as [Hperm Hsorted].
  apply (StronglySorted_restrict
           (fun i j => fle (nth j sims NaN) (nth i sims NaN) = true) _
           (fun i => nth i sims NaN <> NaN)).
  - intros i j Hi _. destruct (nth i sims NaN) as [x|]; [|contradiction].
    destruct (nth j sims NaN) as [y|]; simpl; [|discriminate].
    destruct (Rle_dec y x), (Rle_dec min_score y), (Rle_dec min_score x);
      try easy. lra.
  - apply List.Forall_forall. intros i Hi.
    apply (Permutation_in _ Hperm) in Hi.
    apply in_seq in Hi. rewrite List.Forall_forall in Hnan.
    apply Hnan, nth_In. lia.
  - exact Hsorted.
Qed.

(** A number and a NaN can be sorted in one way only. *)
Lemma argsort_nan_last (x : R) (order : list nat) :
  is_argsort [NaN; Num x] order -> order = [1; 0]%nat.
Proof.
  intros [Hperm Hsorted]. cbn [length seq] in Hperm.
  apply Permutation_sym, Permutation_length_2_inv in Hperm as [->| ->];
    [|reflexivity].
  exfalso. inversion Hsorted as [|? ? _ Hall]; subst.
  inversion Hall as [|? ? Hle _]; subst. discriminate Hle.
Qed.

(** Two sorted arrangements of the same elements agree when no two of the
    elements are tied. *)
Lemma sorted_arrangement_unique {A} (R : A -> A -> Prop) (l1 l2 : list A) :
  (forall x y, In x l1 -> In y l1 -> R x y -> R y x -> x = y) ->
  StronglySorted R l1 -> StronglySorted R l2 -> Permutation l1 l2 ->
  l1 = l2.
Proof.
  revert l2. induction l1 as [|x l1 IH]; intros l2 Hanti H1 H2 Hperm.
  - now apply Permutation_nil in Hperm.
  - destruct l2 as [|y l2];
      [now apply Permutation_sym, Permutation_nil in Hperm|].
    inversion H1 as [|? ? H1' Hx]; subst.
    inversion H2 as [|? ? H2' Hy]; subst.
    rewrite List.Forall_forall in Hx, Hy.
    assert (Hxy : x = y).
    { assert (Hin_x : In x (y :: l2))
        by (apply (Permutation_in _ Hperm); now left).
      assert (Hin_y : In y (x :: l1))
        by (apply (Permutation_in _ (Permutation_sym Hperm)); now left).
      destruct Hin_x as [->|Hin_x]; [reflexivity|].
      destruct Hin_y as [->|Hin_y]; [reflexivity|].
      apply Hanti; [now left|now right|now apply Hx|now apply Hy]. }
    subst y. f_equal. apply IH.
    + intros a b Ha Hb. apply Hanti; now right.
    + exact H1'.
    + exact H2'.
    + now apply Permutation_cons_inv in Hperm.
Qed.

(** Where no two scores are tied, numpy's contract leaves one order only:
    every sort that meets it gives what the stable sort gives. *)
Lemma argsort_without_ties (a : list fval) (order : list nat) :
  (forall i j, (i < length a)%nat -> (j < length a)%nat ->
               fle (nth i a NaN) (nth j a NaN) = true ->
               fle (nth j a NaN) (nth i a NaN) = true -> i = j) ->
  is_argsort a order -> order = argsort a.
Proof.
  intros Hties [Hperm Hsorted].
  destruct (argsort_conforms a) as [Hperm' Hsorted'].
  apply (sorted_arrangement_unique
           (fun i j => fle (nth i a NaN) (nth j a NaN) = true)).
  - intros i j Hi Hj. apply Hties.
    + apply (Permutation_in _ Hperm), in_seq in Hi. lia.
    + apply (Permutation_in _ Hperm), in_seq in Hj. lia.
  - exact Hsorted.
  - exact Hsorted'.
  - now rewrite Hperm, Hperm'.
Qed.

(** So on a loaded engine the result of a search in which no two scores
    are tied does not depend on the sort numpy uses. *)
Lemma search_with_without_ties (np_argsort : list fval -> list nat)
    (w : world) (query : string) (top_k : Z) (min_score : R)
    (name : string) (E : list vec) :
  (forall a, is_argsort a (np_argsort a)) ->
  model w = Some name -> embeddings w = Some E ->
  (let sims := map (fun row => cosine row (encoder w name query)) E in
   forall i j, (i < length sims)%nat -> (j < length sims)%nat ->
               fle (nth i sims NaN) (nth j sims NaN) = true ->
               fle (nth j sims NaN) (nth i sims NaN) = true -> i = j) ->
  search_with np_argsort query top_k min_score w
  = search query top_k min_score w.
Proof.
  intros Hsort Hm He Hties.
  rewrite (EngineFacts.search_with_ready np_argsort w _ _ _ name E Hm He).
  rewrite (EngineFacts.search_ready w _ _ _ name E Hm He).
  cbv zeta in *. unfold similarities.
  match goal with
  | |- context [forallb ?f E] => destruct (forallb f E)
  end; [|reflexivity].
  now rewrite (argsort_without_ties _ _ Hties (Hsort _)).
Qed.

End RankingFacts.

(** C6, as stated, fails, whatever order [np.argsort] gives equal values:
    NaN is sorted after every number, so read backwards it comes first. A
    record whose stored vector is null takes the one place of [top_k] = 1
    and is then dropped, and the search returns nothing, although the
    other record scores 1 and passes [min_score] = 0: dropping first and
    then taking the first would return that record. *)
Lemma search_gives_nan_a_place :
  Semantic.database Examples.w_null_row
  = Some [Examples.jamming; Examples.uplink_jamming]
  /\ Semantic.similarities [[0%R; 0%R]; [0%R; 1%R]]
       (Semantic.encoder Examples.w_null_row "all-MiniLM-L6-v2" "jamming")
     = Py.Ok [Semantic.NaN; Semantic.Num 1]
  /\ Semantic.fge (Semantic.Num 1) 0 = true
  /\ forall np_argsort : list Semantic.fval -> list nat,
       (forall a, Semantic.is_argsort a (np_argsort a)) ->
       Semantic.search_with np_argsort "jamming" 1 0 Examples.w_null_row
       = (Py.Ok [],
          Semantic.set_encode_calls
            (Semantic.encode_calls Examples.w_null_row ++ [["jamming"]])
            Examples.w_null_row).
Proof.
  assert (Hsims :
    Semantic.similarities [[0%R; 0%R]; [0%R; 1%R]]
      (Semantic.encoder Examples.w_null_row "all-MiniLM-L6-v2" "jamming")
    = Py.Ok [Semantic.NaN; Semantic.Num 1]).
  { change (Semantic.encoder _ "all-MiniLM-L6-v2" "jamming") with [0%R; 1%R].
    rewrite CosineFacts.similarities_ok by (repeat constructor).
    cbn [map].
    now rewrite CosineFacts.cosine_null_e2, CosineFacts.cosine_e2_e2. }
  split; [reflexivity|]. split; [exact Hsims|].
  split; [apply EngineFacts.fge_true; lra|].
  intros np_argsort Hsort.
  rewrite (EngineFacts.search_with_ready np_argsort _ _ _ _ "all-MiniLM-L6-v2"
             [[0%R; 0%R]; [0%R; 1%R]]) by reflexivity.
  cbv zeta. rewrite Hsims.
  rewrite (RankingFacts.argsort_nan_last 1 _ (Hsort _)).
  reflexivity.
Qed.

(** C6, amended. On a loaded engine, [search] visits the records in
    descending order of cosine score, NaN before every number; the order
    among records with equal scores is the one [np.argsort] gives them,
    read backwards, and numpy's default sort leaves it open, so the
    statement is made for every sort that meets numpy's contract. Of that
    order [search] takes the slice [[:top_k]], the first [top_k] for a
    count, and returns those of them whose score is a number not below
    [min_score]; when no score is NaN and [top_k] is a count, this is the
    first [top_k] of the records that pass [min_score]. *)
Theorem similarity_rank_spec :
  forall (np_argsort : list Semantic.fval -> list nat)
         (w : Semantic.world) (query : string) (top_k : Z) (min_score : R)
         (name : string) (E : list Semantic.vec)
         (entries : list Extractor.entry),
    (forall a, Semantic.is_argsort a (np_argsort a)) ->
    Semantic.model w = Some name ->
    Semantic.embeddings w = Some E ->
    Semantic.database w = Some entries ->
    E <> [] ->
    length entries = length E ->
    List.Forall
      (fun row => length row = length (Semantic.encoder w name query)) E ->
    let sims :=
      map (fun row => Semantic.cosine row (Semantic.encoder w name query)) E in
    let passes := fun i => Semantic.fge (nth i sims Semantic.NaN) min_score in
    exists order : list nat,
      order = rev (np_argsort sims)
      /\ Permutation order (seq 0 (length E))
      /\ StronglySorted
           (fun i j =>
              Semantic.fle (nth j sims Semantic.NaN) (nth i sims Semantic.NaN)
              = true)
           order
      /\ Spec.returned (Semantic.search_with np_argsort query top_k min_score w)
         = Some (omap (Spec.result_at entries sims)
                   (List.filter passes (Text.slice_to top_k order)))
      /\ ((0 <= top_k)%Z ->
          List.Forall (fun s => s <> Semantic.NaN) sims ->
          List.filter passes (Text.slice_to top_k order)
          = firstn (Z.to_nat top_k) (List.filter passes order)).
Proof.
  intros np_argsort w query top_k min_score name E entries Hsort Hm He Hdb _
    Hlen Hrows sims passes.
  exists (rev (np_argsort sims)).
  assert (Hn : length sims = length E) by (unfold sims; apply length_map).
  destruct (RankingFacts.visiting_order_of sims _ (Hsort sims))
    as [Hperm Hsorted].
  rewrite Hn in Hperm.
  split; [reflexivity|]. split; [exact Hperm|]. split; [exact Hsorted|].
  split.
  - rewrite (EngineFacts.search_with_ready np_argsort w query top_k min_score
               name E Hm He).
    cbv zeta. rewrite (CosineFacts.similarities_ok E _ Hrows). fold sims.
    rewrite Hdb. rewrite EngineFacts.collect_results_ok.
    + reflexivity.
    + rewrite Hlen, <- Hn.
      apply RankingFacts.visiting_order_in_range_of, Hsort.
  - intros Hk Hnan. unfold Text.slice_to.
    destruct (Z.leb_spec 0 top_k) as [_|]; [|lia].
    apply RankingFacts.filter_firstn_prefix.
    now apply RankingFacts.passing_is_prefix_of.
Qed.

Lemma similarity_rank_spec_witness :
  (forall a, Semantic.is_argsort a (Semantic.argsort a))
  /\ Semantic.model Examples.w_ready = Some "all-MiniLM-L6-v2"
  /\ Semantic.embeddings Examples.w_ready = Some [[1%R; 0%R]; [0%R; 1%R]]
  /\ Semantic.database Examples.w_ready = Some Examples.database_pair
  /\ [[1%R; 0%R]; [0%R; 1%R]] <> []
  /\ length Examples.database_pair = length [[1%R; 0%R]; [0%R; 1%R]]
  /\ List.Forall
       (fun row =>
          length row
          = length (Semantic.encoder Examples.w_ready "all-MiniLM-L6-v2"
                      "jamming"))
       [[1%R; 0%R]; [0%R; 1%R]]
  /\ exists order : list nat,
       Permutation order (seq 0 (length [[1%R; 0%R]; [0%R; 1%R]]))
       /\ Spec.returned
            (Semantic.search_with Semantic.argsort "jamming" 2 0
               Examples.w_ready)
          = Some (omap (Spec.result_at Examples.database_pair
                          (map (fun row =>
                                  Semantic.cosine row
                                    (Semantic.encoder Examples.w_ready
                                       "all-MiniLM-L6-v2" "jamming"))
                             [[1%R; 0%R]; [0%R; 1%R]]))
                    (List.filter
                       (fun i =>
                          Semantic.fge
                            (nth i
                               (map (fun row =>
                                       Semantic.cosine row
                                         (Semantic.encoder Examples.w_ready
                                            "all-MiniLM-L6-v2" "jamming"))
                                  [[1%R; 0%R]; [0%R; 1%R]])
                               Semantic.NaN) 0)
                       (Text.slice_to 2 order))).
Proof.
  assert (Hrows : List.Forall
            (fun row =>
               length row
               = length (Semantic.encoder Examples.w_ready "all-MiniLM-L6-v2"
                           "jamming"))
            [[1%R; 0%R]; [0%R; 1%R]])
    by (repeat constructor).
  assert (Hne : [[1%R; 0%R]; [0%R; 1%R]] <> []) by discriminate.
  split; [exact RankingFacts.argsort_conforms|].
  split; [reflexivity|]. split; [reflexivity|]. split; [reflexivity|].
  split; [exact Hne|]. split; [reflexivity|]. split; [exact Hrows|].
  destruct (similarity_rank_spec Semantic.argsort Examples.w_ready "jamming"
              2 0 "all-MiniLM-L6-v2" [[1%R; 0%R]; [0%R; 1%R]]
              Examples.database_pair RankingFacts.argsort_conforms
              eq_refl eq_refl eq_refl Hne eq_refl Hrows)
    as [order [_ [Hperm [_ [Hres _]]]]].
  exists order. split; [exact Hperm|exact Hres].
Defined.

(** * Further properties of the code *)

(** ** Strings *)

Module TextFacts.
Import Text.

Lemma prefix_empty (s : string) : String.prefix "" s = true.
Proof. now destruct s. Qed.

Lemma prefix_refl (s : string) : String.prefix s s = true.
Proof.
  induction s as [|c s IH]; [reflexivity|]. simpl.
  destruct (ascii_dec c c); [exact IH|contradiction].
Qed.

Lemma contains_empty (s : string) : contains "" s = true.
Proof. destruct s; reflexivity. Qed.

Lemma contains_refl (s : string) : contains s s = true.
Proof.
  destruct s as [|c s]; [reflexivity|].
  cbn [contains]. now rewrite prefix_refl.
Qed.

Lemma prefix_app (w b : string) : String.prefix w (w +:+ b) = true.
Proof.
  induction w as [|c w IH]; simpl; [apply prefix_empty|].
  destruct (ascii_dec c c); [exact IH|contradiction].
Qed.

Lemma prefix_split (w t : string) :
  String.prefix w t = true -> exists b, t = w +:+ b.
Proof.
  revert t. induction w as [|c w IH]; intros t H.
  - now exists t.
  - destruct t as [|d t]; [discriminate|]. simpl in H.
    destruct (ascii_dec c d) as [->|]; [|discriminate].
    destruct (IH t H) as [b ->]. now exists b.
Qed.

(** [contains] is the substring test. *)
Lemma contains_spec (w t : string) :
  contains w t = true <-> exists a b, t = a +:+ w +:+ b.
Proof.
  split.
  - induction t as [|d t IH]; cbn [contains]; intros H.
    + apply orb_prop in H as [H|H]; [|discriminate].
      apply prefix_split in H as [b Hb]. now exists "", b.
    + apply orb_prop in H as [H|H].
      * apply prefix_split in H as [b Hb]. now exists "", b.
      * destruct (IH H) as [a [b ->]]. now exists (String d a), b.
  - intros [a [b ->]]. induction a as [|c a IH].
    + change ("" +:+ w +:+ b) with (w +:+ b).
      destruct (w +:+ b) eqn:E; cbn [contains]; rewrite <- E, prefix_app;
        reflexivity.
    + change (String c a +:+ w +:+ b) with (String c (a +:+ w +:+ b)).
      cbn [contains]. rewrite IH. apply orb_true_r.
Qed.

Lemma app_assoc_string (a b c : string) : (a +:+ b) +:+ c = a +:+ b +:+ c.
Proof.
  induction a as [|x a IH]; [reflexivity|].
  change (String x ((a +:+ b) +:+ c) = String x (a +:+ b +:+ c)).
  now rewrite IH.
Qed.

Lemma app_empty_r (a : string) : a +:+ "" = a.
Proof.
  induction a as [|x a IH]; [reflexivity|].
  change (String x (a +:+ "") = String x a). now rewrite IH.
Qed.

(** Every word that [split] returns is a substring of what it read. *)
Lemma split_from_substring (s cur w : string) :
  In w (split_from cur s) -> exists a b, cur +:+ s = a +:+ w +:+ b.
Proof.
  revert cur. induction s as [|c s IH]; intros cur; simpl.
  - destruct (decide (cur = "")); [easy|].
    intros [<-|[]]. exists "", "".
    change ("" +:+ cur +:+ "") with (cur +:+ ""). reflexivity.
  - destruct (isspace c).
    + destruct (decide (cur = "")) as [->|].
      * intros H. destruct (IH "" H) as [a [b Hab]].
        change ("" +:+ s) with s in Hab.
        exists (String c a), b.
        change (String c s = String c (a +:+ w +:+ b)). now rewrite Hab.
      * intros [<-|H]; [now exists "", (String c s)|].
        destruct (IH "" H) as [a [b Hab]].
        change ("" +:+ s) with s in Hab.
        exists (cur +:+ String c a), b.
        rewrite app_assoc_string.
        change (String c a +:+ w +:+ b) with (String c (a +:+ w +:+ b)).
        now rewrite Hab.
    + intros H. destruct (IH _ H) as [a [b Hab]].
      exists a, b. rewrite <- Hab, app_assoc_string. reflexivity.
Qed.

Lemma word_is_substring (s w : string) :
  In w (split s) -> contains w s = true.
Proof.
  intros H. apply contains_spec.
  apply (split_from_substring s "" w H).
Qed.

Lemma lower_char_idem (c : ascii) : lower_char (lower_char c) = lower_char c.
Proof. destruct c as [[] [] [] [] [] [] [] []]; reflexivity. Qed.

Lemma lower_idem (s : string) : lower (lower s) = lower s.
Proof.
  induction s as [|c s IH]; simpl; [reflexivity|].
  now rewrite lower_char_idem, IH.
Qed.

End TextFacts.

(** ** Keyword search *)

Module KeywordFacts.
Import Text Py Extractor.

Lemma list_filter_sublist {A} (p : A -> bool) (l : list A) :
  sublist (List.filter p l) l.
Proof.
  induction l as [|x l IH]; simpl; [constructor|].
  destruct (p x); now constructor.
Qed.

Lemma slice_to_sublist {A} (k : Z) (l : list A) : sublist (slice_to k l) l.
Proof. unfold slice_to. destruct (0 <=? k)%Z; apply sublist_take. Qed.

Lemma ranking_within (database : list entry) (query : string) :
  Spec.ranking database query ⊆+ database.
Proof.
  rewrite (RankFacts.ranking_perm database query).
  apply sublist_submseteq, list_filter_sublist.
Qed.

Lemma ranking_length (database : list entry) (query : string) :
  length (Spec.ranking database query) <= length database.
Proof. apply submseteq_length, ranking_within. Qed.

(** A sort leaves a list alone when its elements are pairwise in order. *)
Lemma isort_sorted_input {A} (le : A -> A -> bool) (l : list A) :
  (forall x y, In x l -> In y l -> le x y = true) ->
  StableSort.isort le l = l.
Proof.
  induction l as [|x l IH]; intros H; [reflexivity|].
  cbn [StableSort.isort]. rewrite IH.
  - destruct l as [|y l]; [reflexivity|]. cbn [StableSort.insert].
    rewrite H; [reflexivity|now left|right; now left].
  - intros u v Hu Hv. apply H; now right.
Qed.

Lemma empty_query_scores_150 (entry : entry) : Spec.score "" entry = 150%Z.
Proof.
  rewrite ScoreFacts.entry_score_eq. unfold Spec.keyword_score.
  change (lower "") with "". rewrite !TextFacts.contains_empty. reflexivity.
Qed.

Lemma filter_all {A} (p : A -> bool) (l : list A) :
  (forall x, In x l -> p x = true) -> List.filter p l = l.
Proof.
  induction l as [|x l IH]; intros H; simpl; [reflexivity|].
  rewrite (H x) by now left. f_equal. apply IH. intros y Hy. apply H. now right.
Qed.

Lemma ranking_empty_query (database : list entry) :
  Spec.ranking database "" = database.
Proof.
  unfold Spec.ranking, sort_by_score_desc.
  rewrite RankFacts.score_entries_eq.
  change (entry_score (lower "") (list_to_set (split (lower ""))))
    with (Spec.score "").
  rewrite filter_all by (intros e _; now rewrite empty_query_scores_150).
  rewrite isort_sorted_input.
  - rewrite map_map. apply map_id.
  - intros x y Hx Hy.
    apply in_map_iff in Hx as [ex [<- _]]. apply in_map_iff in Hy as [ey [<- _]].
    cbn [fst]. rewrite !empty_query_scores_150. reflexivity.
Qed.

Lemma count_zero {A} (p : A -> bool) (l : list A) :
  Spec.count p l = 0%Z <-> forall x, In x l -> p x = false.
Proof.
  unfold Spec.count. split.
  - intros H x Hx. destruct (p x) eqn:Hp; [|reflexivity].
    assert (Hin : In x (List.filter p l)) by (apply filter_In; now split).
    destruct (List.filter p l); [destruct Hin|simpl in H; lia].
  - intros H. rewrite RankingFacts.filter_none by exact H. reflexivity.
Qed.

Lemma count_nonneg {A} (p : A -> bool) (l : list A) : (0 <= Spec.count p l)%Z.
Proof. unfold Spec.count. lia. Qed.

Lemma count_le_length {A} (p : A -> bool) (l : list A) :
  (Spec.count p l <= Z.of_nat (length l))%Z.
Proof.
  unfold Spec.count. apply inj_le.
  apply submseteq_length, sublist_submseteq, list_filter_sublist.
Qed.

Lemma existsb_false {A} (p : A -> bool) (l : list A) :
  existsb p l = false <-> forall x, In x l -> p x = false.
Proof.
  induction l as [|y l IH]; simpl.
  - split; [intros _ x []|reflexivity].
  - rewrite orb_false_iff, IH. split.
    + intros [Hy Hl] x [<-|Hx]; [exact Hy|now apply Hl].
    + intros H. split; [apply H; now left|]. intros x Hx. apply H. now right.
Qed.

Lemma In_distinct_words (s w : string) :
  In w (Spec.distinct_words s) <-> In w (split s).
Proof.
  unfold Spec.distinct_words. rewrite <- !list_elem_of_In.
  apply elem_of_remove_dups.
Qed.

(** The score is 0 exactly when nothing of the query occurs in the
    entry. *)
Lemma score_zero (query : string) (entry : entry) :
  (Spec.score query entry =? 0)%Z = negb (Props.matches query entry).
Proof.
  rewrite ScoreFacts.entry_score_eq.
  unfold Spec.keyword_score, Props.matches.
  set (q := lower query). set (text := lower (e_full_text entry)).
  pose proof (count_nonneg (fun w => bool_decide (w ∈ split text))
                (Spec.distinct_words q)) as Hw.
  pose proof (count_nonneg (fun w => contains w text)
                (Spec.distinct_words q)) as Hs.
  destruct (contains q (lower (e_name entry)));
    [cbn [orb negb]; apply Z.eqb_neq;
     destruct (contains q (lower (e_description entry))); lia|].
  destruct (contains q (lower (e_description entry)));
    [cbn [orb negb]; apply Z.eqb_neq; lia|].
  cbn [orb].
  destruct (existsb (fun w => contains w text) (split q)) eqn:Hex; cbn [negb].
  - apply Z.eqb_neq. intros Hz.
    assert (Hc : Spec.count (fun w => contains w text) (Spec.distinct_words q)
                 = 0%Z) by lia.
    rewrite count_zero in Hc.
    assert (existsb (fun w => contains w text) (split q) = false) as Hno.
    { apply existsb_false. intros w Hw'. apply Hc, In_distinct_words, Hw'. }
    congruence.
  - apply Z.eqb_eq. rewrite existsb_false in Hex.
    assert (Hc : Spec.count (fun w => contains w text) (Spec.distinct_words q)
                 = 0%Z).
    { apply count_zero. intros w Hw'. apply Hex, In_distinct_words, Hw'. }
    assert (Hc' : Spec.count (fun w => bool_decide (w ∈ split text))
                    (Spec.distinct_words q) = 0%Z).
    { apply count_zero. intros w Hw'.
      apply bool_decide_eq_false_2. intros Hin.
      apply list_elem_of_In, TextFacts.word_is_substring in Hin.
      rewrite Hex in Hin; [discriminate|]. apply In_distinct_words, Hw'. }
    rewrite Hc, Hc'. reflexivity.
Qed.

Lemma matching_records (database : list entry) (query : string) :
  List.filter (fun e => negb (Spec.score query e =? 0)%Z) database
  = List.filter (Props.matches query) database.
Proof.
  apply List.filter_ext. intros e. rewrite score_zero. apply negb_involutive.
Qed.

Lemma slice_to_all {A} (k : Z) (l : list A) :
  (Z.of_nat (length l) <= k)%Z -> slice_to k l = l.
Proof.
  intros H. unfold slice_to. destruct (Z.leb_spec 0 k); [|lia].
  apply firstn_all2. lia.
Qed.

Lemma score_own_name (entry : entry) :
  (100 <= Spec.score (e_name entry) entry)%Z.
Proof.
  rewrite ScoreFacts.entry_score_eq. unfold Spec.keyword_score.
  rewrite TextFacts.contains_refl.
  pose proof (count_nonneg
                (fun w => bool_decide (w ∈ split (lower (e_full_text entry))))
                (Spec.distinct_words (lower (e_name entry)))).
  pose proof (count_nonneg
                (fun w => contains w (lower (e_full_text entry)))
                (Spec.distinct_words (lower (e_name entry)))).
  destruct (contains _ (lower (e_description entry))); lia.
Qed.

Lemma score_lower_query (query : string) (entry : entry) :
  Spec.score (lower query) entry = Spec.score query entry.
Proof. unfold Spec.score. now rewrite TextFacts.lower_idem. Qed.

Lemma count_mono {A} (p p' : A -> bool) (l : list A) :
  (forall x, In x l -> p x = true -> p' x = true) ->
  (Spec.count p l <= Spec.count p' l)%Z.
Proof.
  unfold Spec.count. intros H. apply inj_le.
  induction l as [|x l IH]; simpl; [lia|].
  assert (IH' : length (List.filter p l) <= length (List.filter p' l)).
  { apply IH. intros y Hy. apply H. now right. }
  destruct (p x) eqn:Hp.
  - rewrite (H x) by (now left || assumption). simpl. lia.
  - destruct (p' x); simpl; lia.
Qed.

End KeywordFacts.

(** X1. Keyword search returns records of the database only, none more
    often than the database holds it, and at most [top_k] of them when
    [top_k] is not negative. *)
Theorem search_techniques_within_database :
  forall (database : list Extractor.entry) (query : string) (top_k : Z),
    (0 <= top_k)%Z ->
    Extractor.search_techniques database query top_k ⊆+ database
    /\ length (Extractor.search_techniques database query top_k)
       <= Z.to_nat top_k.
Proof.
  intros database query top_k Hk.
  rewrite RankFacts.search_techniques_slice. split.
  - transitivity (Spec.ranking database query).
    + apply sublist_submseteq, KeywordFacts.slice_to_sublist.
    + apply KeywordFacts.ranking_within.
  - unfold Text.slice_to. destruct (Z.leb_spec 0 top_k); [|lia].
    apply firstn_le_length.
Qed.

Lemma search_techniques_within_database_witness :
  (0 <= 2)%Z
  /\ Extractor.search_techniques Examples.database_excerpt "jamming" 2
     ⊆+ Examples.database_excerpt
  /\ length (Extractor.search_techniques Examples.database_excerpt "jamming" 2)
     <= Z.to_nat 2.
Proof.
  assert (Hk : (0 <= 2)%Z) by lia.
  split; [exact Hk|].
  exact (search_techniques_within_database Examples.database_excerpt
           "jamming" 2 Hk).
Defined.

(** X2. Asking keyword search for fewer results gives a prefix of what a
    larger [top_k] gives: for 0 <= k' <= k the result for k' is the first k'
    records of the result for k. *)
Theorem search_techniques_prefix_stable :
  forall (database : list Extractor.entry) (query : string) (k k' : Z),
    (0 <= k')%Z -> (k' <= k)%Z ->
    Extractor.search_techniques database query k'
    = firstn (Z.to_nat k') (Extractor.search_techniques database query k).
Proof.
  intros database query k k' Hk' Hle.
  rewrite !RankFacts.search_techniques_slice. unfold Text.slice_to.
  destruct (Z.leb_spec 0 k'); [|lia]. destruct (Z.leb_spec 0 k); [|lia].
  rewrite firstn_firstn. f_equal. lia.
Qed.

Lemma search_techniques_prefix_stable_witness :
  (0 <= 2)%Z /\ (2 <= 5)%Z
  /\ Extractor.search_techniques Examples.database_excerpt "jamming" 2
     = firstn (Z.to_nat 2)
         (Extractor.search_techniques Examples.database_excerpt "jamming" 5).
Proof.
  assert (H0 : (0 <= 2)%Z) by lia. assert (H1 : (2 <= 5)%Z) by lia.
  split; [exact H0|]. split; [exact H1|].
  exact (search_techniques_prefix_stable Examples.database_excerpt
           "jamming" 5 2 H0 H1).
Defined.

(** X3. The empty query matches every record: every record scores 150,
    and keyword search returns the slice [[:top_k]] of the database in
    store order. *)
Theorem search_techniques_empty_query :
  forall (database : list Extractor.entry) (top_k : Z),
    Extractor.search_techniques database "" top_k
    = Text.slice_to top_k database
    /\ List.Forall (fun e => Spec.score "" e = 150%Z) database.
Proof.
  intros database top_k. split.
  - rewrite RankFacts.search_techniques_slice.
    now rewrite KeywordFacts.ranking_empty_query.
  - apply List.Forall_forall. intros e _.
    apply KeywordFacts.empty_query_scores_150.
Qed.

(** X4. A record scores 0, and is discarded by keyword search, exactly
    when the lowercased query occurs neither in its lowercased name nor in
    its lowercased description and no word of the query occurs in its
    lowercased composite text. *)
Theorem score_zero_iff_no_match :
  forall (query : string) (entry : Extractor.entry),
    (Spec.score query entry =? 0)%Z
    = negb
        (Text.contains (Text.lower query)
           (Text.lower (Extractor.e_name entry))
         || Text.contains (Text.lower query)
              (Text.lower (Extractor.e_description entry))
         || existsb
              (fun w =>
                 Text.contains w (Text.lower (Extractor.e_full_text entry)))
              (Text.split (Text.lower query))).
Proof. intros query entry. apply KeywordFacts.score_zero. Qed.

(** X5. With [top_k] at least the size of the database, keyword search
    returns every matching record and nothing else: its result is a
    rearrangement of the matching records of the database. *)
Theorem search_techniques_returns_all_matches :
  forall (database : list Extractor.entry) (query : string) (top_k : Z),
    (Z.of_nat (length database) <= top_k)%Z ->
    Permutation (Extractor.search_techniques database query top_k)
      (List.filter (Props.matches query) database).
Proof.
  intros database query top_k Hk.
  rewrite RankFacts.search_techniques_slice.
  rewrite KeywordFacts.slice_to_all.
  - rewrite <- KeywordFacts.matching_records. apply RankFacts.ranking_perm.
  - pose proof (KeywordFacts.ranking_length database query). lia.
Qed.

Lemma search_techniques_returns_all_matches_witness :
  (Z.of_nat (length Examples.database_excerpt) <= 10)%Z
  /\ Permutation
       (Extractor.search_techniques Examples.database_excerpt "jamming" 10)
       (List.filter (Props.matches "jamming") Examples.database_excerpt).
Proof.
  assert (Hk : (Z.of_nat (length Examples.database_excerpt) <= 10)%Z)
    by (simpl; lia).
  split; [exact Hk|].
  exact (search_techniques_returns_all_matches Examples.database_excerpt
           "jamming" 10 Hk).
Defined.

(** X6. A distinct query word is worth 0, 5 or 15: every word counted as
    a whole-word match is also counted as a substring match. The score is
    therefore at most 150 plus 15 per distinct word of the query. *)
Theorem score_word_contributions :
  forall (query : string) (entry : Extractor.entry),
    let text := Text.lower (Extractor.e_full_text entry) in
    let words := Spec.distinct_words (Text.lower query) in
    (Spec.count (fun w => bool_decide (w ∈ Text.split text)) words
     <= Spec.count (fun w => Text.contains w text) words
     <= Z.of_nat (length words))%Z
    /\ (Spec.score query entry <= 150 + 15 * Z.of_nat (length words))%Z.
Proof.
  intros query entry text words.
  assert (H1 : (Spec.count (fun w => bool_decide (w ∈ Text.split text)) words
                <= Spec.count (fun w => Text.contains w text) words)%Z).
  { apply KeywordFacts.count_mono. intros w _ Hw.
    apply bool_decide_eq_true in Hw.
    apply TextFacts.word_is_substring, list_elem_of_In, Hw. }
  pose proof (KeywordFacts.count_le_length
                (fun w => Text.contains w text) words) as H2.
  split; [lia|].
  rewrite ScoreFacts.entry_score_eq. unfold Spec.keyword_score.
  fold text. fold words.
  destruct (Text.contains _ (Text.lower (Extractor.e_name entry))),
    (Text.contains _ (Text.lower (Extractor.e_description entry))); lia.
Qed.

(** X7. A record is always found by its own name: the query equal to a
    record's name gives that record a score of at least 100, so keyword
    search returns it whenever [top_k] is at least the size of the
    database. *)
Theorem search_techniques_finds_by_name :
  forall (database : list Extractor.entry) (entry : Extractor.entry)
         (top_k : Z),
    In entry database ->
    (Z.of_nat (length database) <= top_k)%Z ->
    (100 <= Spec.score (Extractor.e_name entry) entry)%Z
    /\ In entry
         (Extractor.search_techniques database (Extractor.e_name entry) top_k).
Proof.
  intros database entry top_k Hin Hk.
  pose proof (KeywordFacts.score_own_name entry) as Hscore.
  split; [exact Hscore|].
  rewrite RankFacts.search_techniques_slice.
  rewrite KeywordFacts.slice_to_all
    by (pose proof (KeywordFacts.ranking_length database
                      (Extractor.e_name entry)); lia).
  apply (Permutation_in _
           (Permutation_sym
              (RankFacts.ranking_perm database (Extractor.e_name entry)))).
  apply filter_In. split; [exact Hin|].
  apply negb_true_iff, Z.eqb_neq. lia.
Qed.

Lemma search_techniques_finds_by_name_witness :
  In Examples.uplink_jamming Examples.database_excerpt
  /\ (Z.of_nat (length Examples.database_excerpt) <= 7)%Z
  /\ (100 <= Spec.score (Extractor.e_name Examples.uplink_jamming)
               Examples.uplink_jamming)%Z
  /\ In Examples.uplink_jamming
       (Extractor.search_techniques Examples.database_excerpt
          (Extractor.e_name Examples.uplink_jamming) 7).
Proof.
  assert (Hin : In Examples.uplink_jamming Examples.database_excerpt)
    by (do 3 right; left; reflexivity).
  assert (Hk : (Z.of_nat (length Examples.database_excerpt) <= 7)%Z)
    by (simpl; lia).
  split; [exact Hin|]. split; [exact Hk|].
  exact (search_techniques_finds_by_name Examples.database_excerpt
           Examples.uplink_jamming 7 Hin Hk).
Defined.

(** X8. Keyword search ignores the case of the query: a query and its
    lowercased form score every record alike and return the same list. *)
Theorem search_techniques_ignores_query_case :
  forall (database : list Extractor.entry) (query : string) (top_k : Z),
    Extractor.search_techniques database (Text.lower query) top_k
    = Extractor.search_techniques database query top_k
    /\ forall entry : Extractor.entry,
         Spec.score (Text.lower query) entry = Spec.score query entry.
Proof.
  intros database query top_k. split.
  - unfold Extractor.search_techniques. now rewrite TextFacts.lower_idem.
  - apply KeywordFacts.score_lower_query.
Qed.

(** ** The store, its statistics and the interactive loop *)

Module StoreFacts.
Import Text Py Extractor Tools.

Lemma in_flat_map_split {A B} (f : A -> list B) (l : list A) (y : B) :
  In y (flat_map f l) ->
  exists l1 x l2, l = l1 ++ x :: l2 /\ In y (f x).
Proof.
  intros H. apply in_flat_map in H as [x [Hx Hy]].
  apply in_split in Hx as [l1 [l2 ->]]. now exists l1, x, l2.
Qed.

(** Where a record of the declared order comes from. *)
Lemma declared_order_origin TACTICS SPARTA_DATA (e : entry) :
  In e (Spec.declared_order TACTICS SPARTA_DATA) ->
  exists before after tactic_info t,
    Spec.declared_order TACTICS SPARTA_DATA
    = before ++ Spec.technique_records tactic_info t ++ after
    /\ In e (Spec.technique_records tactic_info t).
Proof.
  unfold Spec.declared_order. intros H.
  apply in_flat_map_split in H as [T1 [tac [T2 [-> H]]]].
  unfold Spec.tactic_records at 1 in H.
  apply in_flat_map_split in H as [ts1 [t [ts2 [Hts H]]]].
  exists (flat_map (Spec.tactic_records SPARTA_DATA) T1
          ++ flat_map (Spec.technique_records tac) ts1),
    (flat_map (Spec.technique_records tac) ts2
     ++ flat_map (Spec.tactic_records SPARTA_DATA) T2), tac, t.
  split; [|exact H].
  rewrite flat_map_app. cbn [flat_map]. unfold Spec.tactic_records at 2.
  rewrite Hts, flat_map_app. cbn [flat_map].
  now rewrite <- !app_assoc.
Qed.

Lemma has_key_true {V} (key : string) (d : list (string * V)) :
  has_key key d = true <-> In key (map fst d).
Proof.
  unfold has_key. rewrite existsb_exists, in_map_iff. split.
  - intros [kv [Hin Hk]]. apply bool_decide_eq_true in Hk. now exists kv.
  - intros [kv [Hk Hin]]. exists kv. split; [exact Hin|].
    now apply bool_decide_eq_true.
Qed.

Lemma get_item_None {V} (key : string) (d : list (string * V)) :
  ~ In key (map fst d) -> get_item key d = None.
Proof.
  induction d as [|[k v] d IH]; simpl; intros H; [reflexivity|].
  destruct (decide (k = key)) as [->|]; [exfalso; apply H; now left|].
  apply IH. intros Hin. apply H. now right.
Qed.

Lemma get_item_app {V} (key : string) (d d' : list (string * V)) :
  get_item key (d ++ d')
  = match get_item key d with
    | Some v => Some v
    | None => get_item key d'
    end.
Proof.
  induction d as [|[k v] d IH]; simpl; [reflexivity|].
  destruct (decide (k = key)); [reflexivity|exact IH].
Qed.

Lemma get_item_update {V} (f : V -> V) (key key' : string)
    (d : list (string * V)) :
  get_item key' (update_item f key d)
  = if decide (key = key') then f <$> get_item key' d else get_item key' d.
Proof.
  induction d as [|[k v] d IH]; simpl; [now destruct (decide (key = key'))|].
  destruct (decide (k = key)) as [->|Hk]; simpl.
  - destruct (decide (key = key')); reflexivity.
  - destruct (decide (k = key')) as [->|].
    + destruct (decide (key = key')); [congruence|reflexivity].
    + exact IH.
Qed.

Lemma keys_update {V} (f : V -> V) (key : string) (d : list (string * V)) :
  map fst (update_item f key d) = map fst d.
Proof.
  induction d as [|[k v] d IH]; simpl; [reflexivity|].
  destruct (decide (k = key)); simpl; [reflexivity|now rewrite IH].
Qed.

(** One step of the counting loop, seen through a lookup. *)
Lemma get_item_count_entry (tactics : list (string * tactic_counts))
    (e : entry) (tactic : string) :
  get_item tactic (count_entry tactics e)
  = if decide (e_tactic e = tactic)
    then Some (bump (e_type e)
                 (default {| n_techniques := 0; n_sub_techniques := 0 |}
                    (get_item tactic tactics)))
    else get_item tactic tactics.
Proof.
  unfold count_entry. rewrite get_item_update.
  destruct (decide (e_tactic e = tactic)) as [<-|Hne].
  - destruct (has_key (e_tactic e) tactics) eqn:Hk.
    + apply has_key_true in Hk.
      destruct (get_item (e_tactic e) tactics) eqn:Hg; [reflexivity|].
      exfalso. clear - Hk Hg.
      induction tactics as [|[k v] d IH]; simpl in *; [easy|].
      destruct (decide (k = e_tactic e)); [discriminate|].
      destruct Hk as [Hk|Hk]; [contradiction|now apply IH].
    + rewrite get_item_app, get_item_None; [simpl|].
      * now destruct (decide (e_tactic e = e_tactic e)).
      * intros Hin. apply has_key_true in Hin. congruence.
  - destruct (has_key (e_tactic e) tactics); [reflexivity|].
    rewrite get_item_app. destruct (get_item tactic tactics); [reflexivity|].
    simpl. now destruct (decide (e_tactic e = tactic)).
Qed.

Lemma keys_count_entry (tactics : list (string * tactic_counts)) (e : entry) :
  map fst (count_entry tactics e)
  = if has_key (e_tactic e) tactics then map fst tactics
    else map fst tactics ++ [e_tactic e].
Proof.
  unfold count_entry. rewrite keys_update.
  destruct (has_key (e_tactic e) tactics); [reflexivity|].
  now rewrite map_app.
Qed.

Lemma tally_cons (e : entry) (database : list entry) (tactic : string)
    (t : entry_type) :
  Props.tally (e :: database) tactic t
  = (if bool_decide (e_tactic e = tactic) && is_type t e then 1 else 0)
    + Props.tally database tactic t.
Proof.
  unfold Props.tally. simpl.
  destruct (bool_decide (e_tactic e = tactic) && is_type t e); reflexivity.
Qed.

(** The table after the loop, entry by entry. *)
Lemma counting_loop (database : list entry) :
  forall (tactics : list (string * tactic_counts)) (tactic : string),
    get_item tactic (fold_left count_entry database tactics)
    = match get_item tactic tactics with
      | Some c =>
          Some {| n_techniques :=
                    n_techniques c + Props.tally database tactic ty_technique;
                  n_sub_techniques :=
                    n_sub_techniques c
                    + Props.tally database tactic ty_sub_technique |}
      | None =>
          if existsb (fun e => bool_decide (e_tactic e = tactic)) database
          then Some {| n_techniques := Props.tally database tactic ty_technique;
                       n_sub_techniques :=
                         Props.tally database tactic ty_sub_technique |}
          else None
      end.
Proof.
  induction database as [|e db IH]; intros tactics tactic.
  - simpl. destruct (get_item tactic tactics) as [[a b]|]; [|reflexivity].
    unfold Props.tally. simpl. now rewrite !Nat.add_0_r.
  - cbn [fold_left]. rewrite IH, get_item_count_entry, !tally_cons.
    cbn [existsb].
    destruct (decide (e_tactic e = tactic)) as [Heq|Hne].
    + rewrite (bool_decide_eq_true_2 _ Heq). cbn [orb andb].
      destruct (get_item tactic tactics) as [[a b]|]; cbn [default];
        destruct (e_type e) eqn:Ht; unfold is_type; rewrite Ht; cbn;
        f_equal; f_equal; lia.
    + rewrite (bool_decide_eq_false_2 _ Hne). cbn [orb andb].
      destruct (get_item tactic tactics) as [[a b]|]; reflexivity.
Qed.

Lemma keys_loop (database : list entry) :
  forall tactics : list (string * tactic_counts),
    map fst (fold_left count_entry database tactics)
    = map fst tactics
      ++ Props.first_occurrences (map fst tactics) (map e_tactic database).
Proof.
  induction database as [|e db IH]; intros tactics.
  - simpl. now rewrite app_nil_r.
  - cbn [fold_left map Props.first_occurrences].
    rewrite IH, keys_count_entry.
    destruct (has_key (e_tactic e) tactics) eqn:Hk.
    + apply has_key_true in Hk.
      rewrite bool_decide_eq_true_2 by (now apply list_elem_of_In).
      reflexivity.
    + rewrite bool_decide_eq_false_2.
      * now rewrite <- app_assoc.
      * intros Hin. apply list_elem_of_In, has_key_true in Hin. congruence.
Qed.

Lemma sum_update (g : tactic_counts -> nat) (f : tactic_counts -> tactic_counts)
    (n : nat) (key : string) (d : list (string * tactic_counts)) :
  (forall c, g (f c) = g c + n) ->
  In key (map fst d) ->
  sum_list_with (fun kv => g (snd kv)) (update_item f key d)
  = sum_list_with (fun kv => g (snd kv)) d + n.
Proof.
  intros Hg. induction d as [|[k v] d IH]; simpl; [easy|].
  intros Hin. destruct (decide (k = key)) as [->|Hne]; simpl.
  - rewrite Hg. lia.
  - destruct Hin as [Hk|Hin]; [contradiction|]. rewrite (IH Hin). lia.
Qed.

Lemma sum_count_entry (g : tactic_counts -> nat) (n : nat)
    (tactics : list (string * tactic_counts)) (e : entry) :
  g {| n_techniques := 0; n_sub_techniques := 0 |} = 0 ->
  (forall c, g (bump (e_type e) c) = g c + n) ->
  sum_list_with (fun kv => g (snd kv)) (count_entry tactics e)
  = sum_list_with (fun kv => g (snd kv)) tactics + n.
Proof.
  intros H0 Hg. unfold count_entry.
  destruct (has_key (e_tactic e) tactics) eqn:Hk.
  - apply sum_update; [exact Hg|now apply has_key_true].
  - rewrite (sum_update g _ n); [|exact Hg|].
    + rewrite sum_list_with_app. simpl. rewrite H0. lia.
    + rewrite map_app. apply in_or_app. right. now left.
Qed.

Lemma sum_loop (g : tactic_counts -> nat) (t : entry_type)
    (database : list entry) :
  g {| n_techniques := 0; n_sub_techniques := 0 |} = 0 ->
  (forall e c, g (bump (e_type e) c) = g c + (if is_type t e then 1 else 0)) ->
  forall tactics : list (string * tactic_counts),
    sum_list_with (fun kv => g (snd kv)) (fold_left count_entry database tactics)
    = sum_list_with (fun kv => g (snd kv)) tactics
      + length (List.filter (is_type t) database).
Proof.
  intros H0 Hg. induction database as [|e db IH]; intros tactics.
  - simpl. lia.
  - cbn [fold_left List.filter]. rewrite IH.
    rewrite (sum_count_entry g (if is_type t e then 1 else 0));
      [|exact H0|apply Hg].
    destruct (is_type t e); cbn [length]; lia.
Qed.

Lemma types_partition (database : list entry) :
  length (List.filter (is_type ty_technique) database)
  + length (List.filter (is_type ty_sub_technique) database)
  = length database.
Proof.
  induction database as [|e db IH]; [reflexivity|].
  cbn [List.filter].
  assert (H : is_type ty_technique e = negb (is_type ty_sub_technique e))
    by (unfold is_type; destruct (e_type e); reflexivity).
  rewrite H. destruct (is_type ty_sub_technique e); cbn [negb length]; lia.
Qed.

End StoreFacts.

(** X9. In every store that [build_database] returns, a technique record
    has no parent, and a sub-technique record comes after the record of its
    parent technique, separated from it by sub-technique records only; it
    carries that record's id and name as parent id and parent name, and
    its tactic id. *)
Theorem build_database_parent_precedes :
  forall (TACTICS : list Extractor.TacticInfo)
         (SPARTA_DATA : gmap string (list Extractor.TechniqueInfo))
         (store : list Extractor.entry) (e : Extractor.entry),
    Extractor.build_database TACTICS SPARTA_DATA = Py.Ok store ->
    In e store ->
    match Extractor.e_type e with
    | Extractor.ty_technique =>
        Extractor.e_parent_id e = None /\ Extractor.e_parent_name e = None
    | Extractor.ty_sub_technique =>
        exists (before : list Extractor.entry) (p : Extractor.entry)
               (between after : list Extractor.entry),
          store = before ++ p :: between ++ e :: after
          /\ Extractor.e_type p = Extractor.ty_technique
          /\ Extractor.e_parent_id e = Some (Extractor.e_id p)
          /\ Extractor.e_parent_name e = Some (Extractor.e_name p)
          /\ Extractor.e_tactic_id e = Extractor.e_tactic_id p
          /\ List.Forall
               (fun x => Extractor.e_type x = Extractor.ty_sub_technique)
               between
    end.
Proof.
  intros TACTICS SPARTA_DATA store e Hbuild Hin.
  rewrite BuildFacts.build_database_eq in Hbuild. injection Hbuild as <-.
  apply StoreFacts.declared_order_origin in Hin
    as [before [after [tac [t [Hstore Hin]]]]].
  unfold Spec.technique_records in Hin, Hstore.
  destruct Hin as [<-|Hin]; [now split|].
  apply in_map_iff in Hin as [sub [<- Hsub]].
  apply in_split in Hsub as [s1 [s2 Hsubs]].
  cbn [Extractor.e_type Extractor.sub_technique_entry].
  exists before, (Extractor.technique_entry tac t),
    (map (Extractor.sub_technique_entry tac t) s1),
    (map (Extractor.sub_technique_entry tac t) s2 ++ after).
  split.
  - rewrite Hstore, Hsubs, map_app. cbn [map app].
    now rewrite <- !app_assoc.
  - repeat (split; [reflexivity|]).
    apply List.Forall_forall. intros x Hx.
    apply in_map_iff in Hx as [s [<- _]]. reflexivity.
Qed.

Lemma build_database_parent_precedes_witness :
  Extractor.build_database Examples.TACTICS Examples.SPARTA_DATA_excerpt
  = Py.Ok Examples.database_excerpt
  /\ In Examples.uplink_jamming Examples.database_excerpt
  /\ exists (before : list Extractor.entry) (p : Extractor.entry)
            (between after : list Extractor.entry),
       Examples.database_excerpt
       = before ++ p :: between ++ Examples.uplink_jamming :: after
       /\ Extractor.e_type p = Extractor.ty_technique
       /\ Extractor.e_parent_id Examples.uplink_jamming
          = Some (Extractor.e_id p)
       /\ Extractor.e_parent_name Examples.uplink_jamming
          = Some (Extractor.e_name p)
       /\ Extractor.e_tactic_id Examples.uplink_jamming
          = Extractor.e_tactic_id p
       /\ List.Forall
            (fun x => Extractor.e_type x = Extractor.ty_sub_technique)
            between.
Proof.
  assert (Hbuild : Extractor.build_database Examples.TACTICS
                     Examples.SPARTA_DATA_excerpt
                   = Py.Ok Examples.database_excerpt) by reflexivity.
  assert (Hin : In Examples.uplink_jamming Examples.database_excerpt)
    by (do 3 right; left; reflexivity).
  split; [exact Hbuild|]. split; [exact Hin|].
  exact (build_database_parent_precedes Examples.TACTICS
           Examples.SPARTA_DATA_excerpt Examples.database_excerpt
           Examples.uplink_jamming Hbuild Hin).
Defined.

(** X10. The totals of [get_statistics] are consistent: the techniques and
    the sub-techniques add up to the number of entries, and the
    per-tactic counts add up to the totals. *)
Theorem get_statistics_totals :
  forall database : list Extractor.entry,
    let stats := Tools.get_statistics database in
    Tools.st_total_entries stats = length database
    /\ Tools.st_techniques stats + Tools.st_sub_techniques stats
       = Tools.st_total_entries stats
    /\ sum_list_with (fun kv => Tools.n_techniques (snd kv))
         (Tools.st_tactics stats)
       = Tools.st_techniques stats
    /\ sum_list_with (fun kv => Tools.n_sub_techniques (snd kv))
         (Tools.st_tactics stats)
       = Tools.st_sub_techniques stats.
Proof.
  intros database stats. unfold stats, Tools.get_statistics.
  cbn [Tools.st_total_entries Tools.st_techniques Tools.st_sub_techniques
       Tools.st_tactics].
  split; [reflexivity|]. split; [apply StoreFacts.types_partition|]. split.
  - rewrite (StoreFacts.sum_loop Tools.n_techniques Extractor.ty_technique).
    + reflexivity.
    + reflexivity.
    + intros e c. unfold Tools.is_type. destruct (Extractor.e_type e); simpl; lia.
  - rewrite (StoreFacts.sum_loop Tools.n_sub_techniques
               Extractor.ty_sub_technique).
    + reflexivity.
    + reflexivity.
    + intros e c. unfold Tools.is_type. destruct (Extractor.e_type e); simpl; lia.
Qed.

(** X11. The per-tactic table of [get_statistics] has one item per tactic
    name that occurs in the database, in order of first occurrence, and
    the item of a tactic holds the number of its technique entries and the
    number of its sub-technique entries; a tactic name that does not occur
    is no key of the table. *)
Theorem get_statistics_per_tactic :
  forall (database : list Extractor.entry) (tactic : string),
    let table := Tools.st_tactics (Tools.get_statistics database) in
    Tools.get_item tactic table
    = (if existsb (fun e => bool_decide (Extractor.e_tactic e = tactic))
            database
       then Some {| Tools.n_techniques :=
                      Props.tally database tactic Extractor.ty_technique;
                    Tools.n_sub_techniques :=
                      Props.tally database tactic Extractor.ty_sub_technique |}
       else None)
    /\ map fst table
       = Props.first_occurrences [] (map Extractor.e_tactic database).
Proof.
  intros database tactic table. unfold table, Tools.get_statistics.
  cbn [Tools.st_tactics]. split.
  - now rewrite StoreFacts.counting_loop.
  - now rewrite StoreFacts.keys_loop.
Qed.

(** X12. [interactive_query] answers the lines typed before the first
    quit word (quit, exit or q, in any case, surrounded by any white
    space): one answer per line that is not blank, in order, each the
    keyword search of the stripped line with top_k = 5. At the quit word it
    says goodbye and returns; what is typed after it is never read.
    Without a quit word it ends when the input does. *)
Theorem interactive_query_session :
  forall (database : list Extractor.entry) (before : list string),
    List.Forall (fun line => Tools.is_quit (Tools.strip line) = false) before ->
    let shown :=
      map (Props.answer database)
        (List.filter (fun query => negb (bool_decide (query = "")))
           (map Tools.strip before)) in
    Tools.interactive_query database before = (shown, Tools.EOFError)
    /\ forall (line : string) (after : list string),
         Tools.is_quit (Tools.strip line) = true ->
         Tools.interactive_query database (before ++ line :: after)
         = (shown ++ [Tools.Goodbye], Tools.Returned).
Proof.
  intros database before Hbefore.
  induction Hbefore as [|l before Hl _ IH]; cbn zeta.
  - split; [reflexivity|]. intros line after Hq. simpl. now rewrite Hq.
  - cbn zeta in IH. destruct IH as [IH1 IH2].
    cbn [map List.filter app Tools.interactive_query]. rewrite Hl.
    destruct (decide (Tools.strip l = "")) as [He|Hne].
    + rewrite (bool_decide_eq_true_2 _ He). cbn [negb]. split; [exact IH1|].
      exact IH2.
    + rewrite (bool_decide_eq_false_2 _ Hne). cbn [negb map app].
      assert (Hans : match Extractor.search_techniques database
                             (Tools.strip l) 5 with
                     | [] => Tools.NoMatch (Tools.strip l)
                     | _ :: _ =>
                         Tools.Found (Tools.strip l)
                           (Extractor.search_techniques database
                              (Tools.strip l) 5)
                     end = Props.answer database (Tools.strip l)).
      { unfold Props.answer.
        now destruct (Extractor.search_techniques database (Tools.strip l) 5). }
      rewrite Hans. split.
      * now rewrite IH1.
      * intros line after Hq. now rewrite (IH2 line after Hq).
Qed.

Lemma interactive_query_session_witness :
  List.Forall (fun line => Tools.is_quit (Tools.strip line) = false)
    ["  jamming "; "   "; "launch"]
  /\ Tools.is_quit (Tools.strip " QUIT ") = true
  /\ Tools.interactive_query Examples.database_excerpt
       (["  jamming "; "   "; "launch"] ++ " QUIT " :: ["denial"])
     = (map (Props.answer Examples.database_excerpt)
          (List.filter (fun query => negb (bool_decide (query = "")))
             (map Tools.strip ["  jamming "; "   "; "launch"]))
        ++ [Tools.Goodbye], Tools.Returned).
Proof.
  assert (H : List.Forall
                (fun line => Tools.is_quit (Tools.strip line) = false)
                ["  jamming "; "   "; "launch"])
    by (repeat constructor).
  assert (Hq : Tools.is_quit (Tools.strip " QUIT ") = true) by reflexivity.
  split; [exact H|]. split; [exact Hq|].
  exact (proj2 (interactive_query_session Examples.database_excerpt
                  ["  jamming "; "   "; "launch"] H)
           " QUIT " ["denial"] Hq).
Defined.

(** ** The embedding index and the semantic search *)

Module IndexFacts.
Import Text Py Extractor Semantic.
Local Open Scope py_scope.

Lemma search_unfold (query : string) (top_k : Z) (min_score : R) :
  search query top_k min_score
  = (m <- gets model ;;
     when (is_None m) load_model ;;
     e <- gets embeddings ;;
     when (is_None e)
       (loaded <- load_embeddings ;;
        when (negb loaded) (create_embeddings ;; save_embeddings)) ;;
     Props.rank_with_index query top_k min_score).
Proof. reflexivity. Qed.

Lemma bind_inv {A B} (m : M A) (k : A -> M B) (w w' : world) (b : B) :
  bind m k w = (Ok b, w') ->
  exists a w1, m w = (Ok a, w1) /\ k a w1 = (Ok b, w').
Proof.
  unfold bind. destruct (m w) as [[a|e] w1]; [|discriminate].
  intros H. now exists a, w1.
Qed.

(** The guard [if self.model is None: self.load_model()] in front of the
    rest [k] of a method. *)
Lemma ensure_model {A} (k : M A) (w : world) :
  (m <- gets model ;; when (is_None m) load_model ;; k) w
  = match Props.usable_model w with
    | Some name => k (Props.with_model name w)
    | None => (Raise ImportError, w)
    end.
Proof.
  unfold Props.usable_model, Props.with_model, load_model.
  unfold bind, gets, when, modify, raise, ret.
  destruct (model w); cbn [is_None]; [reflexivity|].
  destruct (SENTENCE_TRANSFORMERS_AVAILABLE w); reflexivity.
Qed.

Lemma with_model_loaded (w : world) (name : string) :
  Props.usable_model w = Some name ->
  model (Props.with_model name w) = Some name.
Proof.
  unfold Props.usable_model, Props.with_model.
  destruct (model w) eqn:Hm; [now intros [= ->]|reflexivity].
Qed.

(** The two guards change the attribute they guard and nothing else. *)
Lemma with_model_frame (w : world) (name : string) :
  database (Props.with_model name w) = database w
  /\ embeddings (Props.with_model name w) = embeddings w
  /\ encode_calls (Props.with_model name w) = encode_calls w
  /\ encoder (Props.with_model name w) = encoder w
  /\ pickle_files (Props.with_model name w) = pickle_files w
  /\ json_files (Props.with_model name w) = json_files w
  /\ index_path (Props.with_model name w) = index_path w
  /\ model_name (Props.with_model name w) = model_name w.
Proof. unfold Props.with_model. destruct (model w); now repeat split. Qed.

Lemma with_database_frame (w : world) (entries : list entry) :
  model (Spec.with_database entries w) = model w
  /\ embeddings (Spec.with_database entries w) = embeddings w
  /\ encode_calls (Spec.with_database entries w) = encode_calls w
  /\ encoder (Spec.with_database entries w) = encoder w
  /\ pickle_files (Spec.with_database entries w) = pickle_files w
  /\ json_files (Spec.with_database entries w) = json_files w
  /\ index_path (Spec.with_database entries w) = index_path w
  /\ model_name (Spec.with_database entries w) = model_name w.
Proof. unfold Spec.with_database. destruct (database w); now repeat split. Qed.

(** What [create_embeddings] does when it has a model and a database. *)
Lemma create_embeddings_run (w : world) (name : string) (entries : list entry) :
  Props.usable_model w = Some name ->
  Spec.available_database w = Some entries ->
  create_embeddings w = (Ok tt, Props.with_index name entries w).
Proof.
  intros Hm Hdb. unfold create_embeddings.
  rewrite ensure_model, Hm.
  destruct (with_model_frame w name)
    as [Fdb [_ [Fcalls [Fenc [_ [Fjson _]]]]]].
  destruct (with_database_frame (Props.with_model name w) entries)
    as [Gm [_ [Gcalls [Genc _]]]].
  assert (Hdb' : Spec.available_database (Props.with_model name w)
                 = Some entries).
  { unfold Spec.available_database in *. now rewrite Fdb, Fjson. }
  rewrite (EngineFacts.ensure_database _ _ entries Hdb').
  unfold bind at 1. unfold gets at 1.
  rewrite (EngineFacts.with_database_loaded _ entries Hdb').
  unfold bind, encode, modify.
  rewrite Gm, (with_model_loaded w name Hm).
  unfold Props.with_index, Props.index_of.
  now rewrite Genc, Fenc, Gcalls, Fcalls, map_map.
Qed.

(** The steps of [search] before the ranking. *)
Lemma search_steps (w : world) (query : string) (top_k : Z) (min_score : R) :
  search query top_k min_score w
  = match Props.usable_model w with
    | None => (Raise ImportError, w)
    | Some name =>
        let w1 := Props.with_model name w in
        match embeddings w with
        | Some _ => Props.rank_with_index query top_k min_score w1
        | None =>
            match pickle_files w !! index_path w with
            | Some data =>
                Props.rank_with_index query top_k min_score
                  (set_embeddings (p_embeddings data) w1)
            | None =>
                (create_embeddings ;; save_embeddings ;;
                 Props.rank_with_index query top_k min_score) w1
            end
        end
    end.
Proof.
  rewrite search_unfold, ensure_model.
  destruct (Props.usable_model w) as [name|]; [|reflexivity].
  cbv zeta.
  destruct (with_model_frame w name) as [_ [He [_ [_ [Hp [_ [Hi _]]]]]]].
  unfold bind at 1. unfold gets at 1. rewrite He.
  destruct (embeddings w) as [E|]; cbn [is_None when]; [reflexivity|].
  unfold bind at 1. unfold bind at 1. unfold load_embeddings.
  unfold bind at 1. unfold gets at 1. unfold bind at 1. unfold gets at 1.
  rewrite Hp, Hi.
  destruct (pickle_files w !! index_path w) as [data|]; cbn [negb when].
  - reflexivity.
  - unfold ret at 1. cbn [negb when].
    unfold bind. destruct (create_embeddings _) as [[[]|e] w2]; [|reflexivity].
    destruct (save_embeddings w2) as [[[]|e] w3]; reflexivity.
Qed.

(** What a returning ranking found on its way. *)
Lemma rank_with_index_inv (w w' : world) (query : string) (top_k : Z)
    (min_score : R) (results : list (entry * fval)) :
  Props.rank_with_index query top_k min_score w = (Ok results, w') ->
  exists name E,
    model w = Some name /\ embeddings w = Some E
    /\ w' = set_encode_calls (encode_calls w ++ [[query]]) w
    /\ List.Forall (fun row => length row = length (encoder w name query)) E
    /\ collect_results (database w)
         (map (fun row => cosine row (encoder w name query)) E) min_score
         (slice_to top_k
            (rev (argsort (map (fun row => cosine row (encoder w name query)) E))))
         []
       = Ok results.
Proof.
  unfold Props.rank_with_index, bind, encode, gets, lift, raise.
  destruct (model w) as [name|] eqn:Hm; [|discriminate].
  cbn [embeddings set_encode_calls nth map].
  destruct (embeddings w) as [E|] eqn:He; [|discriminate].
  unfold similarities.
  match goal with
  | |- context [forallb ?f E] => destruct (forallb f E) eqn:Hrows
  end; [|discriminate].
  cbn [database set_encode_calls]. intros [= Hres <-].
  exists name, E. repeat (split; [reflexivity|]). split; [|exact Hres].
  apply List.Forall_forall. intros row Hrow.
  rewrite forallb_forall in Hrows. apply Nat.eqb_eq, Hrows, Hrow.
Qed.

(** On a loaded engine the ranking is what [search] does. *)
Lemma rank_with_index_ready (w : world) (query : string) (top_k : Z)
    (min_score : R) (name : string) (E : list vec) :
  model w = Some name -> embeddings w = Some E ->
  Props.rank_with_index query top_k min_score w
  = search query top_k min_score w.
Proof.
  intros Hm He. rewrite search_steps.
  unfold Props.usable_model, Props.with_model. now rewrite Hm, He.
Qed.

(** What the result loop returns when it returns. *)
Lemma collect_results_inv (db : option (list entry)) (sims : list fval)
    (min_score : R) (top_indices : list nat) :
  forall results acc : list (entry * fval),
    collect_results db sims min_score top_indices acc = Ok results ->
    exists picked,
      results = acc ++ picked
      /\ length picked <= length top_indices
      /\ List.Forall
           (fun r =>
              exists i entries,
                In i top_indices /\ db = Some entries
                /\ entries !! i = Some (fst r)
                /\ snd r = nth i sims NaN
                /\ fge (snd r) min_score = true)
           picked.
Proof.
  induction top_indices as [|i idxs IH]; intros results acc; simpl.
  - intros [= <-]. exists []. rewrite app_nil_r. now repeat split.
  - destruct (fge (nth i sims NaN) min_score) eqn:Hpass.
    + destruct db as [entries|]; [|discriminate].
      destruct (entries !! i) as [entry|] eqn:Hentry; [|discriminate].
      intros H. apply IH in H as [picked [-> [Hlen Hall]]].
      exists ((entry, nth i sims NaN) :: picked).
      split; [now rewrite <- app_assoc|]. split; [simpl; lia|].
      constructor.
      * exists i, entries. cbn [fst snd]. repeat split; auto.
      * eapply List.Forall_impl; [|exact Hall].
        intros r [j [es [Hj H]]]. exists j, es. split; [now right|exact H].
    + intros H. apply IH in H as [picked [-> [Hlen Hall]]].
      exists picked. split; [reflexivity|]. split; [lia|].
      eapply List.Forall_impl; [|exact Hall].
      intros r [j [es [Hj H]]]. exists j, es. split; [now right|exact H].
Qed.

(** Without a passing score the loop returns what it had, database or
    not. *)
Lemma collect_results_none (db : option (list entry)) (sims : list fval)
    (min_score : R) (top_indices : list nat) (acc : list (entry * fval)) :
  (forall i, In i top_indices -> fge (nth i sims NaN) min_score = false) ->
  collect_results db sims min_score top_indices acc = Ok acc.
Proof.
  induction top_indices as [|i idxs IH]; intros H; simpl; [reflexivity|].
  rewrite (H i) by now left. apply IH. intros j Hj. apply H. now right.
Qed.

(** Without a database the first passing score raises. *)
Lemma collect_results_no_database (sims : list fval) (min_score : R)
    (top_indices : list nat) (acc : list (entry * fval)) (i : nat) :
  In i top_indices -> fge (nth i sims NaN) min_score = true ->
  collect_results None sims min_score top_indices acc = Raise TypeError.
Proof.
  induction top_indices as [|j idxs IH]; intros Hin Hpass; simpl; [easy|].
  destruct (fge (nth j sims NaN) min_score) eqn:Hj; [reflexivity|].
  destruct Hin as [->|Hin]; [congruence|]. now apply IH.
Qed.

(** A score is NaN or a cosine of a stored row. *)
Lemma score_at (E : list vec) (q : vec) (i : nat) (x : R) :
  nth i (map (fun row => cosine row q) E) NaN = Num x ->
  exists row, In row E /\ cosine row q = Num x.
Proof.
  intros H. destruct (Nat.lt_ge_cases i (length E)) as [Hi|Hi].
  - exists (nth i E []). split; [now apply nth_In|].
    rewrite <- H. rewrite (nth_indep _ NaN (cosine [] q))
      by (now rewrite length_map).
    symmetry. apply (map_nth (fun row => cosine row q)).
  - rewrite nth_overflow in H by (now rewrite length_map). discriminate.
Qed.

Lemma passing_score (E : list vec) (q : vec) (i : nat) (min_score : R) :
  fge (nth i (map (fun row => cosine row q) E) NaN) min_score = true ->
  exists x, nth i (map (fun row => cosine row q) E) NaN = Num x
            /\ (min_score <= x)%R.
Proof.
  destruct (nth i _ NaN) as [x|] eqn:Hx; simpl; [|discriminate].
  destruct (Rle_dec min_score x); [|discriminate]. intros _.
  exists x. split; [reflexivity|assumption].
Qed.

Lemma slice_to_length {A} (k : Z) (l : list A) :
  (0 <= k)%Z -> length (slice_to k l) <= Z.to_nat k.
Proof.
  intros Hk. unfold slice_to. destruct (Z.leb_spec 0 k); [|lia].
  apply firstn_le_length.
Qed.

(** What every returning [search] satisfies. *)
Lemma search_returns (w w' : world) (query : string) (top_k : Z)
    (min_score : R) (results : list (entry * fval)) :
  search query top_k min_score w = (Ok results, w') ->
  ((0 <= top_k)%Z -> length results <= Z.to_nat top_k)
  /\ List.Forall
       (fun r =>
          exists x entries,
            snd r = Num x /\ (min_score <= x)%R
            /\ database w' = Some entries /\ In (fst r) entries)
       results.
Proof.
  intros H.
  assert (Htail : exists w1,
             Props.rank_with_index query top_k min_score w1 = (Ok results, w')).
  { rewrite search_unfold in H.
    apply bind_inv in H as [m0 [w1 [_ H]]].
    apply bind_inv in H as [u1 [w2 [_ H]]].
    apply bind_inv in H as [e0 [w3 [_ H]]].
    apply bind_inv in H as [u2 [w4 [_ H]]]. now exists w4. }
  destruct Htail as [w1 Htail].
  apply rank_with_index_inv in Htail
    as [name [E [Hm [He [-> [Hrows Hcollect]]]]]].
  apply collect_results_inv in Hcollect as [picked [-> [Hlen Hall]]].
  cbn [app]. split.
  - intros Hk. pose proof (slice_to_length top_k
      (rev (argsort (map (fun row => cosine row (encoder w1 name query)) E)))
      Hk). lia.
  - eapply List.Forall_impl; [|exact Hall].
    intros r [i [entries [_ [Hdb [Hentry [Hscore Hpass]]]]]].
    rewrite Hscore in Hpass.
    apply passing_score in Hpass as [x [Hx Hmin]].
    exists x, entries. rewrite Hscore.
    repeat (split; [assumption|]).
    apply list_elem_of_In. eapply list_elem_of_lookup_2. exact Hentry.
Qed.

End IndexFacts.

Module RunFacts.
Import Text Py Extractor Semantic.
Local Open Scope py_scope.

(** The world a ranking leaves behind, whether it returns or raises. *)
Lemma rank_with_index_world (w : world) (query : string) (top_k : Z)
    (min_score : R) (name : string) (E : list vec) :
  model w = Some name -> embeddings w = Some E ->
  snd (Props.rank_with_index query top_k min_score w)
  = set_encode_calls (encode_calls w ++ [[query]]) w.
Proof.
  intros Hm He. unfold Props.rank_with_index, bind, encode, gets, lift, raise.
  rewrite Hm. cbn [embeddings set_encode_calls]. rewrite He.
  destruct (similarities E _); reflexivity.
Qed.

(** The search of the description of EX-0016 on the engine of the
    examples. *)
Lemma search_description_run :
  search (e_description Examples.jamming) 2 0 Examples.w_ready
  = (Ok [(Examples.uplink_jamming, Num 1); (Examples.jamming, Num 0)],
     set_encode_calls
       (encode_calls Examples.w_ready ++ [[e_description Examples.jamming]])
       Examples.w_ready).
Proof.
  rewrite (EngineFacts.search_ready _ _ _ _ "all-MiniLM-L6-v2"
             [[1%R; 0%R]; [0%R; 1%R]]) by reflexivity.
  cbv zeta.
  change (encoder _ "all-MiniLM-L6-v2" _) with [0%R; 1%R].
  rewrite CosineFacts.similarities_ok by (repeat constructor).
  cbn [map]. rewrite CosineFacts.cosine_e2_e2, CosineFacts.cosine_e1_e2.
  unfold argsort.
  cbn [length seq StableSort.isort StableSort.insert nth].
  EngineFacts.decide_scores.
  change (database _) with (Some Examples.database_pair).
  change (slice_to 2 (rev [0; 1]%nat)) with [1; 0]%nat.
  cbn [collect_results nth].
  EngineFacts.decide_scores.
  reflexivity.
Qed.

Lemma related_run :
  get_related_techniques "EX-0016" 1 Examples.w_ready
  = (Ok [(Examples.jamming, Num 0)],
     set_encode_calls
       (encode_calls Examples.w_ready ++ [[e_description Examples.jamming]])
       Examples.w_ready).
Proof.
  rewrite (EngineFacts.get_related_available _ Examples.database_pair)
    by reflexivity.
  change (find_technique Examples.database_pair "EX-0016")
    with (Some Examples.jamming).
  change (Spec.with_database Examples.database_pair Examples.w_ready)
    with Examples.w_ready.
  cbv beta iota. change (1 + 1)%Z with 2%Z.
  now rewrite search_description_run.
Qed.

Lemma stub_encoder_dimension (name t1 t2 : string) :
  length (Examples.stub_encoder name t1) = length (Examples.stub_encoder name t2).
Proof.
  unfold Examples.stub_encoder.
  repeat match goal with
         | |- context [if ?b then _ else _] => destruct b
         end; reflexivity.
Qed.

End RunFacts.

(** X13. Saving and loading the index is a round trip: an engine that
    finds the file written by [save_embeddings] under its own index path
    loads exactly the vectors that were saved, whatever its own
    attributes are, and returns True. Without a file [load_embeddings]
    returns False and changes nothing. *)
Theorem index_file_round_trip :
  forall w w2 : Semantic.world,
    Semantic.index_path w2 = Semantic.index_path w ->
    Semantic.pickle_files w2
    = Semantic.pickle_files (snd (Semantic.save_embeddings w)) ->
    Semantic.load_embeddings w2
    = (Py.Ok true, Semantic.set_embeddings (Semantic.embeddings w) w2)
    /\ forall w3 : Semantic.world,
         Semantic.pickle_files w3 !! Semantic.index_path w3 = None ->
         Semantic.load_embeddings w3 = (Py.Ok false, w3).
Proof.
  intros w w2 Hpath Hfiles. split.
  - rewrite (EngineFacts.load_embeddings_installs w2
               {| Semantic.p_embeddings := Semantic.embeddings w;
                  Semantic.p_model_name := Semantic.model_name w |});
      [reflexivity|].
    rewrite Hfiles, Hpath. cbn. apply lookup_insert_eq.
  - intros w3 H3. unfold Semantic.load_embeddings, Semantic.bind, Semantic.gets.
    now rewrite H3.
Qed.

Lemma index_file_round_trip_witness :
  Semantic.index_path MoreExamples.w_index_only
  = Semantic.index_path Examples.w_ready
  /\ Semantic.pickle_files
       (Semantic.set_pickle_files
          (Semantic.pickle_files (snd (Semantic.save_embeddings Examples.w_ready)))
          MoreExamples.w_index_only)
     = Semantic.pickle_files (snd (Semantic.save_embeddings Examples.w_ready))
  /\ Semantic.load_embeddings
       (Semantic.set_pickle_files
          (Semantic.pickle_files (snd (Semantic.save_embeddings Examples.w_ready)))
          MoreExamples.w_index_only)
     = (Py.Ok true,
        Semantic.set_embeddings (Semantic.embeddings Examples.w_ready)
          (Semantic.set_pickle_files
             (Semantic.pickle_files
                (snd (Semantic.save_embeddings Examples.w_ready)))
             MoreExamples.w_index_only)).
Proof.
  split; [reflexivity|]. split; [reflexivity|].
  exact (proj1 (index_file_round_trip Examples.w_ready
                  (Semantic.set_pickle_files
                     (Semantic.pickle_files
                        (snd (Semantic.save_embeddings Examples.w_ready)))
                     MoreExamples.w_index_only)
                  eq_refl eq_refl)).
Defined.

(** X14. A search on a loaded engine is read-only: whether it returns or
    raises, it calls the model once, on the query alone, and leaves the
    model, the database, the embeddings and the files as they were. *)
Theorem search_is_read_only :
  forall (w : Semantic.world) (query : string) (top_k : Z) (min_score : R)
         (name : string) (E : list Semantic.vec),
    Semantic.model w = Some name ->
    Semantic.embeddings w = Some E ->
    snd (Semantic.search query top_k min_score w)
    = Semantic.set_encode_calls (Semantic.encode_calls w ++ [[query]]) w.
Proof.
  intros w query top_k min_score name E Hm He.
  rewrite <- (IndexFacts.rank_with_index_ready w query top_k min_score name E
                Hm He).
  exact (RunFacts.rank_with_index_world w query top_k min_score name E Hm He).
Qed.

Lemma search_is_read_only_witness :
  Semantic.model Examples.w_ready = Some "all-MiniLM-L6-v2"
  /\ Semantic.embeddings Examples.w_ready = Some [[1%R; 0%R]; [0%R; 1%R]]
  /\ snd (Semantic.search "jamming" 2 0 Examples.w_ready)
     = Semantic.set_encode_calls
         (Semantic.encode_calls Examples.w_ready ++ [["jamming"]])
         Examples.w_ready.
Proof.
  split; [reflexivity|]. split; [reflexivity|].
  exact (search_is_read_only Examples.w_ready "jamming" 2 0
           "all-MiniLM-L6-v2" [[1%R; 0%R]; [0%R; 1%R]] eq_refl eq_refl).
Defined.

(** X15. Whatever the state of the engine, a search that returns gives at
    most [top_k] results (for [top_k] not negative), each a record of the
    database paired with a score that is a number, never NaN, and not
    below [min_score]. *)
Theorem search_results_bounded :
  forall (w w' : Semantic.world) (query : string) (top_k : Z) (min_score : R)
         (results : list (Extractor.entry * Semantic.fval)),
    Semantic.search query top_k min_score w = (Py.Ok results, w') ->
    ((0 <= top_k)%Z -> length results <= Z.to_nat top_k)
    /\ List.Forall
         (fun r =>
            exists (x : R) (entries : list Extractor.entry),
              snd r = Semantic.Num x
              /\ (min_score <= x)%R
              /\ Semantic.database w' = Some entries
              /\ In (fst r) entries)
         results.
Proof.
  intros w w' query top_k min_score results H.
  exact (IndexFacts.search_returns w w' query top_k min_score results H).
Qed.

Lemma search_results_bounded_witness :
  Semantic.search (Extractor.e_description Examples.jamming) 2 0
    Examples.w_ready
  = (Py.Ok [(Examples.uplink_jamming, Semantic.Num 1);
            (Examples.jamming, Semantic.Num 0)],
     Semantic.set_encode_calls
       (Semantic.encode_calls Examples.w_ready
        ++ [[Extractor.e_description Examples.jamming]])
       Examples.w_ready)
  /\ ((0 <= 2)%Z ->
      length [(Examples.uplink_jamming, Semantic.Num 1);
              (Examples.jamming, Semantic.Num 0)] <= Z.to_nat 2)
  /\ List.Forall
       (fun r =>
          exists (x : R) (entries : list Extractor.entry),
            snd r = Semantic.Num x
            /\ (0 <= x)%R
            /\ Semantic.database
                 (Semantic.set_encode_calls
                    (Semantic.encode_calls Examples.w_ready
                     ++ [[Extractor.e_description Examples.jamming]])
                    Examples.w_ready)
               = Some entries
            /\ In (fst r) entries)
       [(Examples.uplink_jamming, Semantic.Num 1);
        (Examples.jamming, Semantic.Num 0)].
Proof.
  split; [exact RunFacts.search_description_run|].
  exact (search_results_bounded Examples.w_ready _
           (Extractor.e_description Examples.jamming) 2 0 _
           RunFacts.search_description_run).
Defined.

(** X16. [create_embeddings] builds an index aligned with the database:
    given a usable model and a database that is not empty, it calls the
    model once, on the
    batch of the texts of all entries in store order, and installs one
    vector per entry, the i-th being the model's vector for the text of the
    i-th entry. *)
Theorem create_embeddings_aligned :
  forall (w : Semantic.world) (name : string) (entries : list Extractor.entry),
    Props.usable_model w = Some name ->
    Spec.available_database w = Some entries ->
    entries <> [] ->
    exists (w' : Semantic.world) (E : list Semantic.vec),
      Semantic.create_embeddings w = (Py.Ok tt, w')
      /\ Semantic.embeddings w' = Some E
      /\ Semantic.database w' = Some entries
      /\ length E = length entries
      /\ (forall (i : nat) (entry : Extractor.entry),
             entries !! i = Some entry ->
             E !! i
             = Some (Semantic.encoder w name (Semantic.entry_text entry)))
      /\ Semantic.encode_calls w'
         = Semantic.encode_calls w ++ [map Semantic.entry_text entries].
Proof.
  intros w name entries Hm Hdb _.
  exists (Props.with_index name entries w), (Props.index_of w name entries).
  split; [now apply IndexFacts.create_embeddings_run|].
  split; [reflexivity|]. split.
  - unfold Props.with_index. cbn [Semantic.database Semantic.set_embeddings
      Semantic.set_encode_calls].
    apply EngineFacts.with_database_loaded.
    unfold Spec.available_database in *.
    destruct (IndexFacts.with_model_frame w name) as [-> [_ [_ [_ [_ [-> _]]]]]].
    exact Hdb.
  - split; [apply length_map|]. split; [|reflexivity].
    intros i entry Hi. unfold Props.index_of.
    now rewrite list_lookup_fmap, Hi.
Qed.

Lemma create_embeddings_aligned_witness :
  Props.usable_model Examples.w_fresh = Some "all-MiniLM-L6-v2"
  /\ Spec.available_database Examples.w_fresh = Some Examples.database_pair
  /\ Examples.database_pair <> []
  /\ exists (w' : Semantic.world) (E : list Semantic.vec),
       Semantic.create_embeddings Examples.w_fresh = (Py.Ok tt, w')
       /\ Semantic.embeddings w' = Some E
       /\ Semantic.database w' = Some Examples.database_pair
       /\ length E = length Examples.database_pair
       /\ (forall (i : nat) (entry : Extractor.entry),
              Examples.database_pair !! i = Some entry ->
              E !! i
              = Some (Semantic.encoder Examples.w_fresh "all-MiniLM-L6-v2"
                        (Semantic.entry_text entry)))
       /\ Semantic.encode_calls w'
          = Semantic.encode_calls Examples.w_fresh
            ++ [map Semantic.entry_text Examples.database_pair].
Proof.
  assert (Hne : Examples.database_pair <> []) by discriminate.
  split; [reflexivity|]. split; [reflexivity|]. split; [exact Hne|].
  exact (create_embeddings_aligned Examples.w_fresh "all-MiniLM-L6-v2"
           Examples.database_pair eq_refl eq_refl Hne).
Defined.

(** X17. The first search on an engine without an index and without an
    index file, over a database that is not empty, builds the index and
    saves it before it ranks: whether the
    ranking then returns or raises, the model has been called twice (the
    batch of entry texts, then the query), the index file holds the new
    vectors under the engine's model name, and the engine keeps them. *)
Theorem first_search_builds_index :
  forall (w : Semantic.world) (query : string) (top_k : Z) (min_score : R)
         (name : string) (entries : list Extractor.entry),
    Props.usable_model w = Some name ->
    Spec.available_database w = Some entries ->
    entries <> [] ->
    Semantic.embeddings w = None ->
    Semantic.pickle_files w !! Semantic.index_path w = None ->
    exists (o : Py.outcome (list (Extractor.entry * Semantic.fval)))
           (w' : Semantic.world),
      Semantic.search query top_k min_score w = (o, w')
      /\ Semantic.encode_calls w'
         = Semantic.encode_calls w
           ++ [map Semantic.entry_text entries; [query]]
      /\ Semantic.pickle_files w' !! Semantic.index_path w'
         = Some {| Semantic.p_embeddings :=
                     Some (Props.index_of w name entries);
                   Semantic.p_model_name := Semantic.model_name w |}
      /\ Semantic.embeddings w' = Some (Props.index_of w name entries)
      /\ Semantic.database w' = Some entries.
Proof.
  intros w query top_k min_score name entries Hm Hdb _ He Hp.
  destruct (IndexFacts.with_model_frame w name)
    as [Fdb [Femb [Fcalls [Fenc [Fpick [Fjson [Fpath Fname]]]]]]].
  assert (Hm1 : Props.usable_model (Props.with_model name w) = Some name).
  { unfold Props.usable_model.
    now rewrite (IndexFacts.with_model_loaded w name Hm). }
  assert (Hdb1 : Spec.available_database (Props.with_model name w)
                 = Some entries).
  { unfold Spec.available_database in *. now rewrite Fdb, Fjson. }
  set (w1 := Props.with_model name w) in *.
  destruct (IndexFacts.with_database_frame (Props.with_model name w1) entries)
    as [Gm [_ [_ [_ [Gpick [_ [Gpath Gname]]]]]]].
  destruct (IndexFacts.with_model_frame w1 name)
    as [_ [_ [_ [_ [Hpick [_ [Hpath Hname]]]]]]].
  rewrite IndexFacts.search_steps, Hm, He, Hp. cbv zeta. fold w1.
  unfold Semantic.bind at 1.
  rewrite (IndexFacts.create_embeddings_run w1 name entries Hm1 Hdb1).
  unfold Semantic.bind at 1. unfold Semantic.save_embeddings, Semantic.modify.
  set (w3 := Semantic.set_pickle_files _ _).
  assert (Hm3 : Semantic.model w3 = Some name).
  { unfold w3, Props.with_index.
    cbn [Semantic.model Semantic.set_pickle_files Semantic.set_embeddings
         Semantic.set_encode_calls].
    rewrite Gm. apply IndexFacts.with_model_loaded, Hm1. }
  assert (He3 : Semantic.embeddings w3 = Some (Props.index_of w1 name entries))
    by reflexivity.
  pose proof (RunFacts.rank_with_index_world w3 query top_k min_score name _
                Hm3 He3) as Hw.
  destruct (Props.rank_with_index query top_k min_score w3) as [o w4].
  cbn [snd] in Hw. subst w4. exists o, (Semantic.set_encode_calls
    (Semantic.encode_calls w3 ++ [[query]]) w3).
  split; [reflexivity|].
  assert (Hidx : Props.index_of w1 name entries = Props.index_of w name entries)
    by (unfold Props.index_of; now rewrite Fenc).
  split.
  - cbn [Semantic.encode_calls Semantic.set_encode_calls].
    unfold w3, Props.with_index.
    cbn [Semantic.encode_calls Semantic.set_pickle_files
         Semantic.set_embeddings Semantic.set_encode_calls].
    now rewrite Fcalls, <- app_assoc.
  - split.
    + cbn [Semantic.pickle_files Semantic.index_path
           Semantic.set_encode_calls].
      unfold w3, Props.with_index.
      cbn [Semantic.pickle_files Semantic.index_path Semantic.embeddings
           Semantic.model_name Semantic.set_pickle_files
           Semantic.set_embeddings Semantic.set_encode_calls].
      rewrite lookup_insert_eq, Hidx, Gname, Hname, Fname. reflexivity.
    + split; [cbn; now rewrite Hidx|].
      cbn [Semantic.database Semantic.set_encode_calls].
      unfold w3, Props.with_index.
      cbn [Semantic.database Semantic.set_pickle_files
           Semantic.set_embeddings Semantic.set_encode_calls].
      apply EngineFacts.with_database_loaded.
      unfold Spec.available_database in *.
      destruct (IndexFacts.with_model_frame w1 name)
        as [-> [_ [_ [_ [_ [-> _]]]]]].
      exact Hdb1.
Qed.

Lemma first_search_builds_index_witness :
  Props.usable_model Examples.w_fresh = Some "all-MiniLM-L6-v2"
  /\ Spec.available_database Examples.w_fresh = Some Examples.database_pair
  /\ Examples.database_pair <> []
  /\ Semantic.embeddings Examples.w_fresh = None
  /\ Semantic.pickle_files Examples.w_fresh
       !! Semantic.index_path Examples.w_fresh = None
  /\ exists (o : Py.outcome (list (Extractor.entry * Semantic.fval)))
            (w' : Semantic.world),
       Semantic.search "jamming" 2 0 Examples.w_fresh = (o, w')
       /\ Semantic.encode_calls w'
          = Semantic.encode_calls Examples.w_fresh
            ++ [map Semantic.entry_text Examples.database_pair; ["jamming"]]
       /\ Semantic.pickle_files w' !! Semantic.index_path w'
          = Some {| Semantic.p_embeddings :=
                      Some (Props.index_of Examples.w_fresh
                              "all-MiniLM-L6-v2" Examples.database_pair);
                    Semantic.p_model_name :=
                      Semantic.model_name Examples.w_fresh |}
       /\ Semantic.embeddings w'
          = Some (Props.index_of Examples.w_fresh "all-MiniLM-L6-v2"
                    Examples.database_pair)
       /\ Semantic.database w' = Some Examples.database_pair.
Proof.
  assert (Hne : Examples.database_pair <> []) by discriminate.
  split; [reflexivity|]. split; [reflexivity|]. split; [exact Hne|].
  split; [reflexivity|]. split; [reflexivity|].
  exact (first_search_builds_index Examples.w_fresh "jamming" 2 0
           "all-MiniLM-L6-v2" Examples.database_pair
           eq_refl eq_refl Hne eq_refl eq_refl).
Defined.

(** X18. No relevant match is an empty result, not an error: on a loaded
    engine whose index is not empty and has rows of the dimension of the
    query vector, a search in which no row's score reaches [min_score], or with
    [top_k] = 0, returns the empty list, database loaded or not. *)
Theorem search_without_matches_is_empty :
  forall (w : Semantic.world) (query : string) (top_k : Z) (min_score : R)
         (name : string) (E : list Semantic.vec),
    Semantic.model w = Some name ->
    Semantic.embeddings w = Some E ->
    E <> [] ->
    List.Forall
      (fun row => length row = length (Semantic.encoder w name query)) E ->
    (forall row, In row E ->
       Semantic.fge (Semantic.cosine row (Semantic.encoder w name query))
         min_score = false)
    \/ top_k = 0%Z ->
    Semantic.search query top_k min_score w
    = (Py.Ok [],
       Semantic.set_encode_calls (Semantic.encode_calls w ++ [[query]]) w).
Proof.
  intros w query top_k min_score name E Hm He _ Hrows Hcase.
  rewrite (EngineFacts.search_ready w query top_k min_score name E Hm He).
  cbv zeta. rewrite (CosineFacts.similarities_ok E _ Hrows).
  rewrite IndexFacts.collect_results_none; [reflexivity|].
  intros i Hi. destruct Hcase as [Hlow| ->]; [|destruct Hi].
  destruct (Semantic.fge _ min_score) eqn:Hpass; [|reflexivity].
  destruct (IndexFacts.passing_score _ _ _ _ Hpass) as [x [Hx _]].
  rewrite Hx in Hpass.
  apply IndexFacts.score_at in Hx as [row [Hrow Hcos]].
  rewrite <- Hcos, (Hlow row Hrow) in Hpass. discriminate.
Qed.

Lemma search_without_matches_is_empty_witness :
  Semantic.model MoreExamples.w_index_only = Some "all-MiniLM-L6-v2"
  /\ Semantic.embeddings MoreExamples.w_index_only
     = Some [[1%R; 0%R]; [0%R; 1%R]]
  /\ [[1%R; 0%R]; [0%R; 1%R]] <> []
  /\ List.Forall
       (fun row =>
          length row
          = length (Semantic.encoder MoreExamples.w_index_only
                      "all-MiniLM-L6-v2" "jamming"))
       [[1%R; 0%R]; [0%R; 1%R]]
  /\ (forall row, In row [[1%R; 0%R]; [0%R; 1%R]] ->
        Semantic.fge
          (Semantic.cosine row
             (Semantic.encoder MoreExamples.w_index_only "all-MiniLM-L6-v2"
                "jamming")) 2 = false)
  /\ Semantic.search "jamming" 5 2 MoreExamples.w_index_only
     = (Py.Ok [],
        Semantic.set_encode_calls
          (Semantic.encode_calls MoreExamples.w_index_only ++ [["jamming"]])
          MoreExamples.w_index_only).
Proof.
  assert (Hrows : List.Forall
            (fun row =>
               length row
               = length (Semantic.encoder MoreExamples.w_index_only
                           "all-MiniLM-L6-v2" "jamming"))
            [[1%R; 0%R]; [0%R; 1%R]])
    by (repeat constructor).
  assert (Hlow : forall row, In row [[1%R; 0%R]; [0%R; 1%R]] ->
            Semantic.fge
              (Semantic.cosine row
                 (Semantic.encoder MoreExamples.w_index_only
                    "all-MiniLM-L6-v2" "jamming")) 2 = false).
  { change (Semantic.encoder _ "all-MiniLM-L6-v2" "jamming") with [0%R; 1%R].
    intros row [<-|[<-|[]]].
    - rewrite CosineFacts.cosine_e1_e2. apply EngineFacts.fge_false. lra.
    - rewrite CosineFacts.cosine_e2_e2. apply EngineFacts.fge_false. lra. }
  assert (Hne : [[1%R; 0%R]; [0%R; 1%R]] <> []) by discriminate.
  split; [reflexivity|]. split; [reflexivity|]. split; [exact Hne|].
  split; [exact Hrows|]. split; [exact Hlow|].
  exact (search_without_matches_is_empty MoreExamples.w_index_only "jamming"
           5 2 "all-MiniLM-L6-v2" [[1%R; 0%R]; [0%R; 1%R]]
           eq_refl eq_refl Hne Hrows (or_introl Hlow)).
Defined.

(** X19. Without sentence-transformers and without a loaded model, the
    methods that need the model raise ImportError and change nothing:
    [search], [create_embeddings], and [answer_query] on a query that
    names no tactic. *)
Theorem no_model_raises_import_error :
  forall (w : Semantic.world) (query : string) (top_k : Z) (min_score : R),
    Props.usable_model w = None ->
    Semantic.search query top_k min_score w = (Py.Raise Py.ImportError, w)
    /\ Semantic.create_embeddings w = (Py.Raise Py.ImportError, w)
    /\ (List.find (fun kt => Text.contains (fst kt) (Text.lower query))
          Semantic.tactic_keywords = None ->
        Semantic.answer_query query w = (Py.Raise Py.ImportError, w)).
Proof.
  intros w query top_k min_score Hm.
  assert (Hsearch : forall q k m,
             Semantic.search q k m w = (Py.Raise Py.ImportError, w)).
  { intros q k m. now rewrite IndexFacts.search_steps, Hm. }
  split; [apply Hsearch|]. split.
  - unfold Semantic.create_embeddings. now rewrite IndexFacts.ensure_model, Hm.
  - intros Hfind. unfold Semantic.answer_query. rewrite Hfind.
    unfold Semantic.bind. now rewrite Hsearch.
Qed.

Lemma no_model_raises_import_error_witness :
  Props.usable_model MoreExamples.w_no_package = None
  /\ Semantic.search "jamming" 5 0 MoreExamples.w_no_package
     = (Py.Raise Py.ImportError, MoreExamples.w_no_package)
  /\ Semantic.create_embeddings MoreExamples.w_no_package
     = (Py.Raise Py.ImportError, MoreExamples.w_no_package)
  /\ (List.find (fun kt => Text.contains (fst kt) (Text.lower "jamming"))
        Semantic.tactic_keywords = None ->
      Semantic.answer_query "jamming" MoreExamples.w_no_package
      = (Py.Raise Py.ImportError, MoreExamples.w_no_package)).
Proof.
  split; [reflexivity|].
  exact (no_model_raises_import_error MoreExamples.w_no_package "jamming" 5 0
           eq_refl).
Defined.

(** X20. [search] does not load the database: on an engine that has a
    model and an index but no database, a search that visits all rows
    raises TypeError as soon as one row's score passes [min_score]. *)
Theorem search_without_database_raises :
  forall (w : Semantic.world) (query : string) (top_k : Z) (min_score : R)
         (name : string) (E : list Semantic.vec) (row : Semantic.vec),
    Semantic.model w = Some name ->
    Semantic.embeddings w = Some E ->
    Semantic.database w = None ->
    List.Forall
      (fun row => length row = length (Semantic.encoder w name query)) E ->
    (Z.of_nat (length E) <= top_k)%Z ->
    In row E ->
    Semantic.fge (Semantic.cosine row (Semantic.encoder w name query))
      min_score = true ->
    Semantic.search query top_k min_score w
    = (Py.Raise Py.TypeError,
       Semantic.set_encode_calls (Semantic.encode_calls w ++ [[query]]) w).
Proof.
  intros w query top_k min_score name E row Hm He Hdb Hrows Hk Hrow Hpass.
  rewrite (EngineFacts.search_ready w query top_k min_score name E Hm He).
  cbv zeta. rewrite (CosineFacts.similarities_ok E _ Hrows), Hdb.
  set (sims := map _ E).
  assert (Hn : length sims = length E) by apply length_map.
  destruct (In_nth E row [] Hrow) as [i [Hi Hnth]].
  rewrite (IndexFacts.collect_results_no_database sims min_score _ [] i);
    [reflexivity| |].
  - rewrite KeywordFacts.slice_to_all.
    + apply (Permutation_in _
               (Permutation_sym (proj1 (RankingFacts.visiting_order sims)))).
      apply in_seq. lia.
    + rewrite length_rev, (Permutation_length (RankingFacts.argsort_perm sims)),
        length_seq. lia.
  - unfold sims.
    rewrite (nth_indep _ Semantic.NaN
               (Semantic.cosine [] (Semantic.encoder w name query)))
      by (now rewrite length_map).
    rewrite (map_nth (fun r => Semantic.cosine r (Semantic.encoder w name query))).
    now rewrite Hnth.
Qed.

Lemma search_without_database_raises_witness :
  Semantic.model MoreExamples.w_index_only = Some "all-MiniLM-L6-v2"
  /\ Semantic.embeddings MoreExamples.w_index_only
     = Some [[1%R; 0%R]; [0%R; 1%R]]
  /\ Semantic.database MoreExamples.w_index_only = None
  /\ (Z.of_nat (length [[1%R; 0%R]; [0%R; 1%R]]) <= 5)%Z
  /\ In [0%R; 1%R] [[1%R; 0%R]; [0%R; 1%R]]
  /\ Semantic.fge
       (Semantic.cosine [0%R; 1%R]
          (Semantic.encoder MoreExamples.w_index_only "all-MiniLM-L6-v2"
             "jamming")) 0 = true
  /\ Semantic.search "jamming" 5 0 MoreExamples.w_index_only
     = (Py.Raise Py.TypeError,
        Semantic.set_encode_calls
          (Semantic.encode_calls MoreExamples.w_index_only ++ [["jamming"]])
          MoreExamples.w_index_only).
Proof.
  assert (Hrows : List.Forall
            (fun row =>
               length row
               = length (Semantic.encoder MoreExamples.w_index_only
                           "all-MiniLM-L6-v2" "jamming"))
            [[1%R; 0%R]; [0%R; 1%R]])
    by (repeat constructor).
  assert (Hk : (Z.of_nat (length [[1%R; 0%R]; [0%R; 1%R]]) <= 5)%Z)
    by (simpl; lia).
  assert (Hin : In [0%R; 1%R] [[1%R; 0%R]; [0%R; 1%R]])
    by (right; left; reflexivity).
  assert (Hpass : Semantic.fge
            (Semantic.cosine [0%R; 1%R]
               (Semantic.encoder MoreExamples.w_index_only "all-MiniLM-L6-v2"
                  "jamming")) 0 = true).
  { change (Semantic.encoder _ "all-MiniLM-L6-v2" "jamming") with [0%R; 1%R].
    rewrite CosineFacts.cosine_e2_e2. apply EngineFacts.fge_true. lra. }
  split; [reflexivity|]. split; [reflexivity|]. split; [reflexivity|].
  split; [exact Hk|]. split; [exact Hin|]. split; [exact Hpass|].
  exact (search_without_database_raises MoreExamples.w_index_only "jamming"
           5 0 "all-MiniLM-L6-v2" [[1%R; 0%R]; [0%R; 1%R]] [0%R; 1%R]
           eq_refl eq_refl eq_refl Hrows Hk Hin Hpass).
Defined.

(** X21. An index whose rows do not have the dimension of the model's
    query vector makes [search] raise ValueError, after the model has
    been called on the query. *)
Theorem search_dimension_mismatch_raises :
  forall (w : Semantic.world) (query : string) (top_k : Z) (min_score : R)
         (name : string) (E : list Semantic.vec) (row : Semantic.vec),
    Semantic.model w = Some name ->
    Semantic.embeddings w = Some E ->
    In row E ->
    length row <> length (Semantic.encoder w name query) ->
    Semantic.search query top_k min_score w
    = (Py.Raise Py.ValueError,
       Semantic.set_encode_calls (Semantic.encode_calls w ++ [[query]]) w).
Proof.
  intros w query top_k min_score name E row Hm He Hrow Hlen.
  rewrite (EngineFacts.search_ready w query top_k min_score name E Hm He).
  cbv zeta. unfold Semantic.similarities.
  match goal with
  | |- context [forallb ?f E] => destruct (forallb f E) eqn:Hall
  end; [|reflexivity].
  exfalso. rewrite forallb_forall in Hall.
  apply Hlen, Nat.eqb_eq, Hall, Hrow.
Qed.

Lemma search_dimension_mismatch_raises_witness :
  Semantic.model MoreExamples.w_other_dimension = Some "all-MiniLM-L6-v2"
  /\ Semantic.embeddings MoreExamples.w_other_dimension
     = Some [[1%R; 0%R; 0%R]; [0%R; 1%R; 0%R]]
  /\ In [1%R; 0%R; 0%R] [[1%R; 0%R; 0%R]; [0%R; 1%R; 0%R]]
  /\ length [1%R; 0%R; 0%R]
     <> length (Semantic.encoder MoreExamples.w_other_dimension
                  "all-MiniLM-L6-v2" "jamming")
  /\ Semantic.search "jamming" 5 0 MoreExamples.w_other_dimension
     = (Py.Raise Py.ValueError,
        Semantic.set_encode_calls
          (Semantic.encode_calls MoreExamples.w_other_dimension
           ++ [["jamming"]])
          MoreExamples.w_other_dimension).
Proof.
  assert (Hin : In [1%R; 0%R; 0%R] [[1%R; 0%R; 0%R]; [0%R; 1%R; 0%R]])
    by (left; reflexivity).
  assert (Hlen : length [1%R; 0%R; 0%R]
                 <> length (Semantic.encoder MoreExamples.w_other_dimension
                              "all-MiniLM-L6-v2" "jamming"))
    by (intros H; discriminate H).
  split; [reflexivity|]. split; [reflexivity|]. split; [exact Hin|].
  split; [exact Hlen|].
  exact (search_dimension_mismatch_raises MoreExamples.w_other_dimension
           "jamming" 5 0 "all-MiniLM-L6-v2"
           [[1%R; 0%R; 0%R]; [0%R; 1%R; 0%R]] [1%R; 0%R; 0%R]
           eq_refl eq_refl Hin Hlen).
Defined.

Module EdgeFacts.
Import Text Py Extractor Semantic.
Local Open Scope py_scope.

(** The guard [if self.database is None: self.load_database()] when there
    is no database and no database file. *)
Lemma ensure_database_missing {A} (k : M A) (w : world) :
  Spec.available_database w = None ->
  (d <- gets database ;;
   when (is_None d) (load_database default_database_file) ;;
   k) w
  = (Raise FileNotFoundError, w).
Proof.
  unfold Spec.available_database, load_database.
  unfold bind, gets, when, modify, raise, ret.
  destruct (database w) as [db|] eqn:Hdb; [discriminate|]. cbn [is_None].
  intros Hfile. now rewrite Hfile.
Qed.

(** A search over an index that is aligned with the database returns. *)
Lemma search_aligned_returns (w : world) (query : string) (top_k : Z)
    (min_score : R) (name : string) (E : list vec) (entries : list entry) :
  model w = Some name -> embeddings w = Some E ->
  database w = Some entries -> length E = length entries ->
  List.Forall (fun row => length row = length (encoder w name query)) E ->
  exists results,
    search query top_k min_score w
    = (Ok results, set_encode_calls (encode_calls w ++ [[query]]) w).
Proof.
  intros Hm He Hdb Hlen Hrows.
  rewrite (EngineFacts.search_ready w query top_k min_score name E Hm He).
  cbv zeta. rewrite (CosineFacts.similarities_ok E _ Hrows), Hdb.
  rewrite EngineFacts.collect_results_ok.
  - eexists. reflexivity.
  - rewrite <- Hlen, <- (length_map (fun row => cosine row (encoder w name query)) E).
    apply RankingFacts.visiting_order_in_range.
Qed.

(** The engine on which the first search ranks, after it has built and
    saved the index. *)
Lemma first_search_run (w : world) (query : string) (top_k : Z)
    (min_score : R) (name : string) (entries : list entry) :
  Props.usable_model w = Some name ->
  Spec.available_database w = Some entries ->
  embeddings w = None ->
  pickle_files w !! index_path w = None ->
  exists w3,
    search query top_k min_score w = search query top_k min_score w3
    /\ model w3 = Some name
    /\ embeddings w3 = Some (Props.index_of w name entries)
    /\ database w3 = Some entries
    /\ encoder w3 = encoder w.
Proof.
  intros Hm Hdb He Hp.
  destruct (IndexFacts.with_model_frame w name)
    as [Fdb [Femb [Fcalls [Fenc [Fpick [Fjson [Fpath Fname]]]]]]].
  assert (Hm1 : Props.usable_model (Props.with_model name w) = Some name).
  { unfold Props.usable_model.
    now rewrite (IndexFacts.with_model_loaded w name Hm). }
  assert (Hdb1 : Spec.available_database (Props.with_model name w)
                 = Some entries).
  { unfold Spec.available_database in *. now rewrite Fdb, Fjson. }
  set (w1 := Props.with_model name w) in *.
  destruct (IndexFacts.with_database_frame (Props.with_model name w1) entries)
    as [Gm [_ [_ [Genc _]]]].
  destruct (IndexFacts.with_model_frame w1 name)
    as [Hdbf [_ [_ [Henc [_ [Hjson _]]]]]].
  rewrite IndexFacts.search_steps, Hm, He, Hp. cbv zeta. fold w1.
  unfold bind at 1.
  rewrite (IndexFacts.create_embeddings_run w1 name entries Hm1 Hdb1).
  unfold bind at 1. unfold save_embeddings, modify.
  set (w3 := set_pickle_files _ _).
  assert (Hm3 : model w3 = Some name).
  { unfold w3, Props.with_index.
    cbn [model set_pickle_files set_embeddings set_encode_calls].
    rewrite Gm. apply IndexFacts.with_model_loaded, Hm1. }
  assert (He3 : embeddings w3 = Some (Props.index_of w1 name entries))
    by reflexivity.
  exists w3.
  split; [apply (IndexFacts.rank_with_index_ready w3 _ _ _ name _ Hm3 He3)|].
  split; [exact Hm3|]. split.
  { rewrite He3. unfold Props.index_of. now rewrite Fenc. }
  split.
  - unfold w3, Props.with_index.
    cbn [database set_pickle_files set_embeddings set_encode_calls].
    apply EngineFacts.with_database_loaded.
    unfold Spec.available_database in *. rewrite Hdbf, Hjson. exact Hdb1.
  - unfold w3, Props.with_index.
    cbn [encoder set_pickle_files set_embeddings set_encode_calls].
    now rewrite Genc, Henc, Fenc.
Qed.

End EdgeFacts.

(** X22. Whatever the state of the engine, a call of
    [get_related_techniques] that returns gives at most [top_k] results
    (for [top_k] not negative), each a record of the database paired with
    a score that is a number, never NaN, and not negative. *)
Theorem related_results_bounded :
  forall (w w' : Semantic.world) (technique_id : string) (top_k : Z)
         (results : list (Extractor.entry * Semantic.fval)),
    (0 <= top_k)%Z ->
    Semantic.get_related_techniques technique_id top_k w = (Py.Ok results, w') ->
    length results <= Z.to_nat top_k
    /\ List.Forall
         (fun r =>
            exists (x : R) (entries : list Extractor.entry),
              snd r = Semantic.Num x /\ (0 <= x)%R
              /\ Semantic.database w' = Some entries
              /\ In (fst r) entries)
         results.
Proof.
  intros w w' technique_id top_k results Hk.
  destruct (Spec.available_database w) as [entries|] eqn:Hdb.
  - rewrite (EngineFacts.get_related_available w entries technique_id top_k Hdb).
    destruct (Semantic.find_technique entries technique_id) as [technique|].
    + destruct (Semantic.search _ _ _ _) as [[found|e] w2] eqn:Hs;
        [|discriminate].
      intros [= <- <-].
      apply IndexFacts.search_returns in Hs as [Hlen Hall].
      unfold Text.slice_from_1. split.
      * rewrite length_skipn. specialize (Hlen ltac:(lia)).
        replace (Z.to_nat (top_k + 1)) with (S (Z.to_nat top_k)) in Hlen by lia.
        lia.
      * apply List.Forall_forall. intros r Hr.
        rewrite List.Forall_forall in Hall.
        destruct (Hall r) as [x [es [Hx [Hmin [Hes Hin]]]]].
        { rewrite <- (firstn_skipn 1 found). apply in_or_app. now right. }
        exists x, es. repeat split; auto.
    + intros [= <- <-]. split; [simpl; lia|constructor].
  - unfold Semantic.get_related_techniques.
    rewrite (EdgeFacts.ensure_database_missing _ w Hdb). discriminate.
Qed.

Lemma related_results_bounded_witness :
  (0 <= 1)%Z
  /\ Semantic.get_related_techniques "EX-0016" 1 Examples.w_ready
     = (Py.Ok [(Examples.jamming, Semantic.Num 0)],
        Semantic.set_encode_calls
          (Semantic.encode_calls Examples.w_ready
           ++ [[Extractor.e_description Examples.jamming]])
          Examples.w_ready)
  /\ length [(Examples.jamming, Semantic.Num 0)] <= Z.to_nat 1
  /\ List.Forall
       (fun r =>
          exists (x : R) (entries : list Extractor.entry),
            snd r = Semantic.Num x /\ (0 <= x)%R
            /\ Semantic.database
                 (Semantic.set_encode_calls
                    (Semantic.encode_calls Examples.w_ready
                     ++ [[Extractor.e_description Examples.jamming]])
                    Examples.w_ready)
               = Some entries
            /\ In (fst r) entries)
       [(Examples.jamming, Semantic.Num 0)].
Proof.
  assert (Hk : (0 <= 1)%Z) by lia.
  split; [exact Hk|]. split; [exact RunFacts.related_run|].
  exact (related_results_bounded Examples.w_ready _ "EX-0016" 1 _ Hk
           RunFacts.related_run).
Defined.

(** X23. The tactic path of [answer_query] needs no model: when the
    lowercased query contains a tactic keyword and a database is loaded or
    on disk, the call returns a tactic response whose records are a
    sub-list of the database in store order, also without
    sentence-transformers; it makes no model call and leaves the model,
    the index and the index files as they were. *)
Theorem tactic_answer_needs_no_model :
  forall (w : Semantic.world) (entries : list Extractor.entry)
         (query keyword tactic : string),
    Spec.available_database w = Some entries ->
    List.find (fun kt => Text.contains (fst kt) (Text.lower query))
      Semantic.tactic_keywords = Some (keyword, tactic) ->
    exists (techniques : list Extractor.entry) (w' : Semantic.world),
      Semantic.answer_query query w
      = (Py.Ok (Semantic.TacticResponse tactic techniques), w')
      /\ sublist techniques entries
      /\ Semantic.database w' = Some entries
      /\ Semantic.encode_calls w' = Semantic.encode_calls w
      /\ Semantic.model w' = Semantic.model w
      /\ Semantic.embeddings w' = Semantic.embeddings w
      /\ Semantic.pickle_files w' = Semantic.pickle_files w.
Proof.
  intros w entries query keyword tactic Hdb Hfind.
  destruct (IndexFacts.with_database_frame w entries)
    as [Fm [Fe [Fc [_ [Fp _]]]]].
  eexists _, (Spec.with_database entries w). split.
  - unfold Semantic.answer_query. rewrite Hfind. unfold Semantic.bind.
    rewrite (EngineFacts.search_by_tactic_available w entries tactic Hdb).
    reflexivity.
  - split; [apply KeywordFacts.list_filter_sublist|].
    split; [now apply EngineFacts.with_database_loaded|].
    now repeat split.
Qed.

Lemma tactic_answer_needs_no_model_witness :
  Spec.available_database MoreExamples.w_no_package
  = Some Examples.database_pair
  /\ List.find
       (fun kt =>
          Text.contains (fst kt) (Text.lower "Which techniques have IMPACT?"))
       Semantic.tactic_keywords = Some ("impact", "Impact")
  /\ exists (techniques : list Extractor.entry) (w' : Semantic.world),
       Semantic.answer_query "Which techniques have IMPACT?"
         MoreExamples.w_no_package
       = (Py.Ok (Semantic.TacticResponse "Impact" techniques), w')
       /\ sublist techniques Examples.database_pair
       /\ Semantic.database w' = Some Examples.database_pair
       /\ Semantic.encode_calls w'
          = Semantic.encode_calls MoreExamples.w_no_package
       /\ Semantic.model w' = Semantic.model MoreExamples.w_no_package
       /\ Semantic.embeddings w'
          = Semantic.embeddings MoreExamples.w_no_package
       /\ Semantic.pickle_files w'
          = Semantic.pickle_files MoreExamples.w_no_package.
Proof.
  split; [reflexivity|]. split; [reflexivity|].
  exact (tactic_answer_needs_no_model MoreExamples.w_no_package
           Examples.database_pair "Which techniques have IMPACT?"
           "impact" "Impact" eq_refl eq_refl).
Defined.

(** X24. [search_by_tactic] with the empty name returns the whole
    database, and the case of the letters of the name does not matter:
    the name and its lowercase form give the same records. *)
Theorem search_by_tactic_empty_name_and_case :
  forall (w : Semantic.world) (entries : list Extractor.entry)
         (tactic_name : string),
    Spec.available_database w = Some entries ->
    fst (Semantic.search_by_tactic "" w) = Py.Ok entries
    /\ Semantic.search_by_tactic (Text.lower tactic_name) w
       = Semantic.search_by_tactic tactic_name w.
Proof.
  intros w entries tactic_name Hdb.
  rewrite !(EngineFacts.search_by_tactic_available w entries _ Hdb).
  split.
  - cbn [fst]. f_equal. apply KeywordFacts.filter_all.
    intros entry _. apply TextFacts.contains_empty.
  - now rewrite TextFacts.lower_idem.
Qed.

Lemma search_by_tactic_empty_name_and_case_witness :
  Spec.available_database Examples.w_fresh = Some Examples.database_pair
  /\ fst (Semantic.search_by_tactic "" Examples.w_fresh)
     = Py.Ok Examples.database_pair
  /\ Semantic.search_by_tactic (Text.lower "EXECUTION") Examples.w_fresh
     = Semantic.search_by_tactic "EXECUTION" Examples.w_fresh.
Proof.
  split; [reflexivity|].
  exact (search_by_tactic_empty_name_and_case Examples.w_fresh
           Examples.database_pair "EXECUTION" eq_refl).
Defined.

(** X25. With no database loaded and no database file, every method that
    needs the database raises FileNotFoundError: [search_by_tactic] and
    [get_related_techniques] at once, leaving the engine as it was;
    [create_embeddings], and the first [search] of an engine without an
    index and without an index file, after the model has been loaded. *)
Theorem missing_database_raises :
  forall (w : Semantic.world) (text : string) (top_k : Z) (min_score : R),
    Spec.available_database w = None ->
    Semantic.search_by_tactic text w = (Py.Raise Py.FileNotFoundError, w)
    /\ Semantic.get_related_techniques text top_k w
       = (Py.Raise Py.FileNotFoundError, w)
    /\ forall name : string,
         Props.usable_model w = Some name ->
         Semantic.create_embeddings w
         = (Py.Raise Py.FileNotFoundError, Props.with_model name w)
         /\ (Semantic.embeddings w = None ->
             Semantic.pickle_files w !! Semantic.index_path w = None ->
             Semantic.search text top_k min_score w
             = (Py.Raise Py.FileNotFoundError, Props.with_model name w)).
Proof.
  intros w text top_k min_score Hdb.
  split; [apply (EdgeFacts.ensure_database_missing _ w Hdb)|].
  split; [apply (EdgeFacts.ensure_database_missing _ w Hdb)|].
  intros name Hm.
  destruct (IndexFacts.with_model_frame w name) as [Fdb [_ [_ [_ [_ [Fjson _]]]]]].
  assert (Hdb1 : Spec.available_database (Props.with_model name w) = None).
  { unfold Spec.available_database in *. now rewrite Fdb, Fjson. }
  assert (Hcreate : Semantic.create_embeddings w
                    = (Py.Raise Py.FileNotFoundError, Props.with_model name w)).
  { unfold Semantic.create_embeddings. rewrite IndexFacts.ensure_model, Hm.
    apply (EdgeFacts.ensure_database_missing _ _ Hdb1). }
  split; [exact Hcreate|].
  intros He Hp. rewrite IndexFacts.search_steps, Hm, He, Hp. cbv zeta.
  unfold Semantic.bind at 1.
  assert (Hm1 : Props.usable_model (Props.with_model name w) = Some name).
  { unfold Props.usable_model.
    now rewrite (IndexFacts.with_model_loaded w name Hm). }
  unfold Semantic.create_embeddings. rewrite IndexFacts.ensure_model, Hm1.
  rewrite (EdgeFacts.ensure_database_missing _ _).
  - f_equal. unfold Props.with_model at 1.
    now rewrite (IndexFacts.with_model_loaded w name Hm).
  - unfold Spec.available_database in *.
    destruct (IndexFacts.with_model_frame (Props.with_model name w) name)
      as [-> [_ [_ [_ [_ [-> _]]]]]].
    exact Hdb1.
Qed.

Lemma missing_database_raises_witness :
  Spec.available_database MoreExamples.w_no_database = None
  /\ Semantic.search_by_tactic "Impact" MoreExamples.w_no_database
     = (Py.Raise Py.FileNotFoundError, MoreExamples.w_no_database)
  /\ Semantic.get_related_techniques "Impact" 5 MoreExamples.w_no_database
     = (Py.Raise Py.FileNotFoundError, MoreExamples.w_no_database)
  /\ forall name : string,
       Props.usable_model MoreExamples.w_no_database = Some name ->
       Semantic.create_embeddings MoreExamples.w_no_database
       = (Py.Raise Py.FileNotFoundError,
          Props.with_model name MoreExamples.w_no_database)
       /\ (Semantic.embeddings MoreExamples.w_no_database = None ->
           Semantic.pickle_files MoreExamples.w_no_database
             !! Semantic.index_path MoreExamples.w_no_database = None ->
           Semantic.search "Impact" 5 0 MoreExamples.w_no_database
           = (Py.Raise Py.FileNotFoundError,
              Props.with_model name MoreExamples.w_no_database)).
Proof.
  split; [reflexivity|].
  exact (missing_database_raises MoreExamples.w_no_database "Impact" 5 0
           eq_refl).
Defined.

(** X26. The first search of an engine that has a usable model and a
    database that is not empty, but no index and no index file, returns: when the model
    gives every text a vector of the same dimension, the index it builds
    fits the database and the query, and the search raises nothing,
    whatever [top_k] and [min_score] are. *)
Theorem first_search_returns :
  forall (w : Semantic.world) (query : string) (top_k : Z) (min_score : R)
         (name : string) (entries : list Extractor.entry),
    Props.usable_model w = Some name ->
    Spec.available_database w = Some entries ->
    entries <> [] ->
    Semantic.embeddings w = None ->
    Semantic.pickle_files w !! Semantic.index_path w = None ->
    (forall text : string,
        length (Semantic.encoder w name text)
        = length (Semantic.encoder w name query)) ->
    exists (results : list (Extractor.entry * Semantic.fval))
           (w' : Semantic.world),
      Semantic.search query top_k min_score w = (Py.Ok results, w').
Proof.
  intros w query top_k min_score name entries Hm Hdb _ He Hp Hdim.
  destruct (EdgeFacts.first_search_run w query top_k min_score name entries
              Hm Hdb He Hp) as [w3 [-> [Hm3 [He3 [Hdb3 Henc]]]]].
  destruct (EdgeFacts.search_aligned_returns w3 query top_k min_score name
              (Props.index_of w name entries) entries Hm3 He3 Hdb3)
    as [results Hres].
  - apply length_map.
  - rewrite Henc. unfold Props.index_of. apply List.Forall_forall.
    intros row Hrow. apply in_map_iff in Hrow as [entry [<- _]]. apply Hdim.
  - eexists results, _. exact Hres.
Qed.

Lemma first_search_returns_witness :
  Props.usable_model Examples.w_fresh = Some "all-MiniLM-L6-v2"
  /\ Spec.available_database Examples.w_fresh = Some Examples.database_pair
  /\ Examples.database_pair <> []
  /\ Semantic.embeddings Examples.w_fresh = None
  /\ Semantic.pickle_files Examples.w_fresh
       !! Semantic.index_path Examples.w_fresh = None
  /\ (forall text : string,
         length (Semantic.encoder Examples.w_fresh "all-MiniLM-L6-v2" text)
         = length (Semantic.encoder Examples.w_fresh "all-MiniLM-L6-v2"
                     "jamming"))
  /\ exists (results : list (Extractor.entry * Semantic.fval))
            (w' : Semantic.world),
       Semantic.search "jamming" 2 0 Examples.w_fresh = (Py.Ok results, w').
Proof.
  assert (Hdim : forall text : string,
             length (Semantic.encoder Examples.w_fresh "all-MiniLM-L6-v2" text)
             = length (Semantic.encoder Examples.w_fresh "all-MiniLM-L6-v2"
                         "jamming")).
  { intros text. apply RunFacts.stub_encoder_dimension. }
  assert (Hne : Examples.database_pair <> []) by discriminate.
  split; [reflexivity|]. split; [reflexivity|]. split; [exact Hne|].
  split; [reflexivity|]. split; [reflexivity|]. split; [exact Hdim|].
  exact (first_search_returns Examples.w_fresh "jamming" 2 0
           "all-MiniLM-L6-v2" Examples.database_pair
           eq_refl eq_refl Hne eq_refl eq_refl Hdim).
Defined.
